(** * Invoice QC service: extraction and validation core

    A shallow embedding of [invoice_qc/utils.py], [invoice_qc/extractor.py],
    [invoice_qc/schema.py] and [invoice_qc/validator.py], with the theorems
    that settle the properties stated about them, and of the commands
    [validate] and [full-run] of [invoice_qc/cli.py], with further
    properties of the code.

    Conventions of the embedding.
    - A Python [str] is the list of its Unicode code points ([list N]).
      Character classes whose extension is small and fixed (white space,
      line boundaries, the case-insensitive matches of ASCII letters) are
      written out; the parts of the Unicode character database that are
      large tables (decimal digits, alphanumerics and lower-casing outside
      ASCII) are a parameter, the class [UnicodeData], so every statement
      holds whatever those tables contain.
    - A Python [float] is a primitive binary64 float; [float(s)] is the
      correctly rounded value of the decimal literal.
    - Exceptions are explicit: a computation that may raise returns a
      [result]; [try]/[except] is a match on it.
    - [dateutil.parser.parse] is a parameter, the class [DateParser]; the
      part of dateutil exercised by all-numeric dates is embedded in module
      [Dateutil] and a parser is only assumed to agree with it there.
    - Module [Validator] is the validator as a function of the batch;
      module [Session] is the same code with the state that outlives a
      call made explicit (the module-level names it reads and the caller's
      list), and agrees with [Validator] when the module is as the import
      leaves it. *)

From Stdlib Require Import Ascii String.
From Stdlib Require Import ZArith NArith List Bool Lia Floats.
From Stdlib Require Import Permutation DecimalN.
Import ListNotations.

Set Warnings "-inexact-float".

(* ===================================================================== *)
(** * Python values: strings, exceptions, floats                          *)
(* ===================================================================== *)

Module Py.

Local Open Scope N_scope.

(** ** Strings as code-point sequences *)

Definition str : Type := list N.

(** [u "lit"]: the [str] of an ASCII literal. *)
Definition u (s : string) : str := map N_of_ascii (list_ascii_of_string s).
Arguments u s%_string.

Fixpoint str_eqb (a b : str) : bool :=
  match a, b with
  | [], [] => true
  | x :: a', y :: b' => N.eqb x y && str_eqb a' b'
  | _, _ => false
  end.

(** [a.startswith(b)] read the other way round: [prefixb b a]. *)
Fixpoint prefixb (p s : str) : bool :=
  match p, s with
  | [], _ => true
  | x :: p', y :: s' => N.eqb x y && prefixb p' s'
  | _ :: _, [] => false
  end.

(** [sub in s] for strings. *)
Fixpoint contains (sub s : str) : bool :=
  prefixb sub s ||
  match s with
  | [] => false
  | _ :: s' => contains sub s'
  end.

(** [str.isspace] of one character; also the class [\s] of [re] and the
    characters removed by [str.strip]. *)
Definition isspace (c : N) : bool :=
  ((9 <=? c) && (c <=? 13)) || ((28 <=? c) && (c <=? 32))
  || (c =? 133) || (c =? 160) || (c =? 5760)
  || ((8192 <=? c) && (c <=? 8202)) || (c =? 8232) || (c =? 8233)
  || (c =? 8239) || (c =? 8287) || (c =? 12288).

Fixpoint lstrip (s : str) : str :=
  match s with
  | c :: s' => if isspace c then lstrip s' else s
  | [] => []
  end.

Definition rstrip (s : str) : str := rev (lstrip (rev s)).

Definition strip (s : str) : str := rstrip (lstrip s).

(** [s.replace(old, new)] for a one-character [old]. *)
Definition replace1 (old : N) (new : str) (s : str) : str :=
  flat_map (fun c => if c =? old then new else [c]) s.

(** Line boundaries of [str.splitlines]. *)
Definition is_linebreak (c : N) : bool :=
  ((10 <=? c) && (c <=? 13)) || ((28 <=? c) && (c <=? 30))
  || (c =? 133) || (c =? 8232) || (c =? 8233).

(** [splitlines_from after_cr cur s]: [cur] is the line being read
    (reversed); [after_cr] records that the previous character was a
    carriage return, so that a line feed right after it belongs to the
    same boundary. *)
Fixpoint splitlines_from (after_cr : bool) (cur : str) (s : str) : list str :=
  match s with
  | [] => match cur with [] => [] | _ => [rev cur] end
  | c :: s' =>
      if after_cr && (c =? 10) then splitlines_from false cur s'
      else if is_linebreak c then rev cur :: splitlines_from (c =? 13) [] s'
      else splitlines_from false (c :: cur) s'
  end.

Definition splitlines (s : str) : list str := splitlines_from false [] s.

(** ** The Unicode character database outside ASCII *)

Class UnicodeData : Type := {
  (** digit value of a decimal digit (category Nd), for code points >= 128 *)
  ucd_decimal : N -> option N;
  (** [str.isalnum] of one character, for code points >= 128 *)
  ucd_alnum : N -> bool;
  (** [ucd_lower s i]: what [s.lower()] puts in place of the character at
      index [i] of [s], for a code point >= 128 (the result may depend on
      the neighbours, as for the Greek capital sigma) *)
  ucd_lower : str -> nat -> str
}.

(** The database restricted to ASCII: no other character is classified. *)
Definition ascii_only : UnicodeData :=
  {| ucd_decimal := fun _ => None;
     ucd_alnum := fun _ => false;
     ucd_lower := fun s i => match nth_error s i with Some c => [c] | None => [] end |}.

Section Unicode.
Context {U : UnicodeData}.

(** Digit value of a decimal digit: the class [\d] is [decimal c <> None]. *)
Definition decimal (c : N) : option N :=
  if c <? 128 then
    (if (48 <=? c) && (c <=? 57) then Some (c - 48) else None)
  else
    match ucd_decimal c with
    | Some d => if d <? 10 then Some d else None
    | None => None
    end.

Definition isdecimal (c : N) : bool :=
  match decimal c with Some _ => true | None => false end.

(** The class [\w]. *)
Definition isword (c : N) : bool :=
  if c <? 128 then
    ((48 <=? c) && (c <=? 57)) || ((65 <=? c) && (c <=? 90))
    || (c =? 95) || ((97 <=? c) && (c <=? 122))
  else ucd_alnum c.

Definition lower_at (s : str) (i : nat) (c : N) : str :=
  if c <? 128 then
    [if (65 <=? c) && (c <=? 90) then c + 32 else c]
  else ucd_lower s i.

(** [s.lower()]. *)
Definition lower (s : str) : str :=
  concat (map (fun ic => lower_at s (fst ic) (snd ic))
              (combine (seq 0 (length s)) s)).

End Unicode.

(** ** Exceptions *)

(** The exception classes that occur, all of them subclasses of
    [Exception]; [ParserError] (dateutil) and [ValidationError] (pydantic)
    are subclasses of [ValueError]. *)
Inductive exn : Type :=
| ValueError | IndexError | AttributeError | OverflowError
| ParserError | ValidationError.

Inductive result (A : Type) : Type :=
| Ok (a : A)
| Raise (e : exn).
Arguments Ok {A} a.
Arguments Raise {A} e.

Definition bind {A B : Type} (m : result A) (k : A -> result B) : result B :=
  match m with
  | Ok a => k a
  | Raise e => Raise e
  end.

(** A loop whose body may raise. *)
Fixpoint for_each {A S : Type} (body : S -> A -> result S) (xs : list A) (s : S)
  : result S :=
  match xs with
  | [] => Ok s
  | x :: xs' => bind (body s x) (for_each body xs')
  end.

(** ** Floats *)

Definition pow10 (k : nat) : positive := Nat.iter k (Pos.mul 10) 1%positive.

(** The decimal number [m / 10^k], rounded to the nearest binary64 (ties to
    even), with the sign [neg]; beyond the largest finite float the result
    is an infinity. *)
Definition float_of_decimal (neg : bool) (m : N) (k : nat) : float :=
  match m with
  | N0 => if neg then neg_zero else zero
  | Npos p =>
      SF2Prim (SFdiv prec emax (S754_finite neg p 0)
                     (S754_finite false (pow10 k) 0))
  end.

Section FloatOfStr.
Context {U : UnicodeData}.

(** The longest prefix of decimal digits, as digit values, and the rest. *)
Fixpoint digits_span (s : str) : list N * str :=
  match s with
  | [] => ([], [])
  | c :: s' =>
      match decimal c with
      | Some d => let (ds, rest) := digits_span s' in (d :: ds, rest)
      | None => ([], s)
      end
  end.

Definition number_of_digits (ds : list N) : N :=
  fold_left (fun acc d => 10 * acc + d)%N ds 0%N.

(** [float(s)] for a string [s] made of decimal digits, ['.'] and ['-']
    only, which is all that [parse_amount_maybe] passes to it (lemma
    [cleaned_alphabet] below): an optional leading minus sign, then digits
    with at most one point and at least one digit.  Anything else is not a
    float literal over this alphabet and raises [ValueError]. *)
Definition py_float (s : str) : result float :=
  let (neg, body) :=
    match s with
    | 45%N :: r => (true, r)
    | _ => (false, s)
    end in
  let (ip, rest) := digits_span body in
  match rest with
  | [] =>
      match ip with
      | [] => Raise ValueError
      | _ => Ok (float_of_decimal neg (number_of_digits ip) 0)
      end
  | 46%N :: r =>
      let (fp, rest') := digits_span r in
      match rest', ip ++ fp with
      | [], _ :: _ =>
          Ok (float_of_decimal neg (number_of_digits (ip ++ fp)) (length fp))
      | _, _ => Raise ValueError
      end
  | _ => Raise ValueError
  end.

End FloatOfStr.

End Py.

(* ===================================================================== *)
(** * [datetime]                                                          *)
(* ===================================================================== *)

Module Datetime.
Import Py.
Local Open Scope N_scope.

(** [datetime.date] *)
Record date : Type := { year : N; month : N; day : N }.

(** [datetime.datetime], naive *)
Record datetime : Type :=
  { dt_date : date; hour : N; minute : N; second : N; microsecond : N }.

Definition date_eqb (a b : date) : bool :=
  (year a =? year b) && (month a =? month b) && (day a =? day b).

(** [a < b] on dates *)
Definition date_ltb (a b : date) : bool :=
  (year a <? year b)
  || ((year a =? year b)
      && ((month a <? month b)
          || ((month a =? month b) && (day a <? day b)))).

Definition is_leap (y : N) : bool :=
  (y mod 4 =? 0) && (negb (y mod 100 =? 0) || (y mod 400 =? 0)).

Definition days_in_month (y m : N) : N :=
  match m with
  | 1 | 3 | 5 | 7 | 8 | 10 | 12 => 31
  | 4 | 6 | 9 | 11 => 30
  | 2 => if is_leap y then 29 else 28
  | _ => 0
  end.

(** The field check of the [date] and [datetime] constructors. *)
Definition valid_date (y m d : N) : bool :=
  (1 <=? y) && (y <=? 9999) && (1 <=? m) && (m <=? 12)
  && (1 <=? d) && (d <=? days_in_month y m).

Fixpoint uint_str (d : Decimal.uint) : str :=
  match d with
  | Decimal.Nil => []
  | Decimal.D0 r => 48 :: uint_str r
  | Decimal.D1 r => 49 :: uint_str r
  | Decimal.D2 r => 50 :: uint_str r
  | Decimal.D3 r => 51 :: uint_str r
  | Decimal.D4 r => 52 :: uint_str r
  | Decimal.D5 r => 53 :: uint_str r
  | Decimal.D6 r => 54 :: uint_str r
  | Decimal.D7 r => 55 :: uint_str r
  | Decimal.D8 r => 56 :: uint_str r
  | Decimal.D9 r => 57 :: uint_str r
  end.

(** ["%0<width>d" % n] *)
Definition zero_padded (width : nat) (n : N) : str :=
  let digits := uint_str (N.to_uint n) in
  repeat 48 (width - length digits) ++ digits.

(** [date.isoformat()]: ["%04d-%02d-%02d"] *)
Definition isoformat (d : date) : str :=
  zero_padded 4 (year d) ++ u "-" ++ zero_padded 2 (month d)
  ++ u "-" ++ zero_padded 2 (day d).

End Datetime.

(* ===================================================================== *)
(** * dateutil: the parser on all-numeric dates                           *)
(* ===================================================================== *)

(** From [dateutil/parser/_parser.py] of python-dateutil 2.9.0: the
    tokenizer [_timelex], the list [_ymd] and the path of [parser._parse]
    and [parser.parse] taken by three numbers with separators. *)

Module Dateutil.
Import Py Datetime.
Local Open Scope N_scope.

(** [dateutil.parser.parse(timestr, dayfirst=...)] *)
Class DateParser : Type := {
  date_parser_parse : str -> bool -> result datetime
}.

(** ** [_timelex], on ASCII input *)

Definition isalpha (c : N) : bool :=
  ((65 <=? c) && (c <=? 90)) || ((97 <=? c) && (c <=? 122)).

Definition isdigit (c : N) : bool := (48 <=? c) && (c <=? 57).

(** The states ['a'], ['0'], ['a.'] and ['0.'] of [get_token]. *)
Inductive lexstate : Type := in_word | in_num | in_word_dot | in_num_dot.

Definition count_dots (t : str) : nat := length (filter (N.eqb 46) t).

Definition last_is (p : N -> bool) (t : str) : bool :=
  match rev t with c :: _ => p c | [] => false end.

(** [_split_decimal.split(token)]: split at every ['.'] and [','], the
    separators kept as elements. *)
Fixpoint split_decimal (cur : str) (t : str) : list str :=
  match t with
  | [] => [rev cur]
  | c :: t' =>
      if (c =? 46) || (c =? 44)
      then rev cur :: [c] :: split_decimal [] t'
      else split_decimal (c :: cur) t'
  end.

Definition nonempty (t : str) : bool :=
  match t with [] => false | _ => true end.

(** The end of [get_token]: the token read, followed by what it pushes on
    the token stack. *)
Definition finish (st : lexstate) (seenletters : bool) (token : str) : list str :=
  let dotted := match st with in_word_dot | in_num_dot => true | _ => false end in
  if dotted && (seenletters || (1 <? count_dots token)%nat
                || last_is (fun c => (c =? 46) || (c =? 44)) token)
  then
    match split_decimal [] token with
    | first :: others => first :: filter nonempty others
    | [] => []
    end
  else
    match st with
    | in_num_dot =>
        if (count_dots token =? 0)%nat then [replace1 44 (u ".") token]
        else [token]
    | _ => [token]
    end.

(** A token in progress: state, [seenletters], characters read. *)
Definition lexcfg : Type := option (lexstate * bool * str).

(** First character of a token. *)
Definition begin_token (c : N) : list str * lexcfg :=
  if isalpha c then ([], Some (in_word, false, [c]))
  else if isdigit c then ([], Some (in_num, false, [c]))
  else if isspace c then ([u " "], None)
  else ([[c]], None).

(** One character of input: the tokens completed by it and the token in
    progress afterwards.  A character that does not continue the current
    token ends it and is read again as a first character. *)
Definition lex_step (cfg : lexcfg) (c : N) : list str * lexcfg :=
  let ends st seen tok :=
    let (out, cfg') := begin_token c in (finish st seen tok ++ out, cfg') in
  match cfg with
  | None => begin_token c
  | Some (in_word, _, tok) =>
      if isalpha c then ([], Some (in_word, true, tok ++ [c]))
      else if c =? 46 then ([], Some (in_word_dot, true, tok ++ [c]))
      else ends in_word true tok
  | Some (in_num, seen, tok) =>
      if isdigit c then ([], Some (in_num, seen, tok ++ [c]))
      else if (c =? 46) || ((c =? 44) && (2 <=? length tok)%nat)
      then ([], Some (in_num_dot, seen, tok ++ [c]))
      else ends in_num seen tok
  | Some (in_word_dot, _, tok) =>
      if (c =? 46) || isalpha c then ([], Some (in_word_dot, true, tok ++ [c]))
      else if isdigit c && last_is (N.eqb 46) tok
      then ([], Some (in_num_dot, true, tok ++ [c]))
      else ends in_word_dot true tok
  | Some (in_num_dot, seen, tok) =>
      if (c =? 46) || isdigit c then ([], Some (in_num_dot, seen, tok ++ [c]))
      else if isalpha c && last_is (N.eqb 46) tok
      then ([], Some (in_word_dot, seen, tok ++ [c]))
      else ends in_num_dot seen tok
  end.

Fixpoint lex (cfg : lexcfg) (s : str) : list str :=
  match s with
  | [] =>
      match cfg with
      | None => []
      | Some (st, seen, tok) => finish st seen tok
      end
  | c :: s' => let (out, cfg') := lex_step cfg c in out ++ lex cfg' s'
  end.

(** [_timelex.split(s)] for [s] of ASCII characters other than NUL. *)
Definition timelex_split (s : str) : list str := lex None s.

(** ** [_ymd] *)

Record ymd : Type := {
  values : list N;
  century_specified : bool;
  ystridx : option nat
}.

Definition ymd_empty : ymd :=
  {| values := []; century_specified := false; ystridx := None |}.

Definition int_of_digits (t : str) : N :=
  fold_left (fun acc c => 10 * acc + (c - 48)) t 0.

(** [ymd.append(val)] for a token [val] of digits and no label: more than
    two digits make it the year. *)
Definition ymd_append (y : ymd) (val : str) : result ymd :=
  if (2 <? length val)%nat then
    match ystridx y with
    | Some _ => Raise ValueError      (* 'Year is already set' *)
    | None =>
        Ok {| values := values y ++ [int_of_digits val];
              century_specified := true;
              ystridx := Some (length (values y)) |}
    end
  else
    Ok {| values := values y ++ [int_of_digits val];
          century_specified := century_specified y;
          ystridx := ystridx y |}.

(** [resolve_ymd(yearfirst=False, dayfirst)] for three members, none of
    them a month name: the result is [(year, month, day)]. *)
Definition resolve_ymd (a b c : N) (ystr : option nat) (dayfirst : bool)
  : N * N * N :=
  if (31 <? a) || match ystr with Some O => true | _ => false end then
    (* 99-01-01 *)
    if dayfirst && (c <=? 12) then (a, c, b) else (a, b, c)
  else if (12 <? a) || (dayfirst && (b <=? 12)) then
    (* 13-01-01 *)
    (c, b, a)
  else
    (* 01-13-01 *)
    (c, a, b).

(** ** [parser.parse] on [D<sep>D<sep>D] *)

Definition is_sep (t : str) : bool :=
  str_eqb t (u "-") || str_eqb t (u "/") || str_eqb t (u ".").

(** A token of one to five ASCII digits.  (Six, eight, twelve and fourteen
    digits are read as packed dates and times.) *)
Definition short_number (t : str) : bool :=
  nonempty t && forallb isdigit t && (length t <=? 5)%nat.

(** [numeric_date s dayfirst] is what [parse(s, dayfirst=dayfirst)] does
    when [s] is three short numbers separated by twice the same ['-'],
    ['/'] or ['.'] and the year is written with its century: the
    [datetime] at midnight, or [ParserError].  It is [None] on any other
    string: those run through parts of the parser (names of months and
    days, times, time zones, the current date) that are not embedded. *)
Definition numeric_date (s : str) (dayfirst : bool) : option (result datetime) :=
  if forallb (fun c => (0 <? c) && (c <? 128)) s then
    match timelex_split s with
    | [a; s1; b; s2; c] =>
        if short_number a && short_number b && short_number c
           && is_sep s1 && str_eqb s1 s2
        then
          match bind (bind (ymd_append ymd_empty a) (fun y => ymd_append y b))
                     (fun y => ymd_append y c) with
          | Raise _ => Some (Raise ParserError)
          | Ok y =>
              match values y with
              | [va; vb; vc] =>
                  let '(yy, mm, dd) := resolve_ymd va vb vc (ystridx y) dayfirst in
                  if (yy <? 100) && negb (century_specified y) then None
                  else if valid_date yy mm dd then
                    Some (Ok {| dt_date := {| year := yy; month := mm; day := dd |};
                                hour := 0; minute := 0; second := 0;
                                microsecond := 0 |})
                  else Some (Raise ParserError)
              | _ => None
              end
          end
        else None
    | _ => None
    end
  else None.

(** A parser that behaves as dateutil does on the dates [numeric_date]
    covers. *)
Definition agrees_with_dateutil (P : DateParser) : Prop :=
  forall s dayfirst r,
    numeric_date s dayfirst = Some r -> date_parser_parse s dayfirst = r.

(** The embedded part alone, raising on everything else. *)
Definition numeric_only : DateParser :=
  {| date_parser_parse := fun s dayfirst =>
       match numeric_date s dayfirst with
       | Some r => r
       | None => Raise ParserError
       end |}.

End Dateutil.

(* ===================================================================== *)
(** * [invoice_qc/utils.py]                                               *)
(* ===================================================================== *)

Module Utils.
Import Py Datetime Dateutil.
Local Open Scope N_scope.

(** [try: body  except <caught>: handler] *)
Definition try_except {A : Type} (body : result A) (caught : exn -> bool)
  (handler : result A) : result A :=
  match body with
  | Ok a => Ok a
  | Raise e => if caught e then handler else Raise e
  end.

(** [except Exception]: every exception of the model is one. *)
Definition is_Exception (e : exn) : bool := true.

(** [except ValueError]: the class and its subclasses. *)
Definition is_ValueError (e : exn) : bool :=
  match e with
  | ValueError | ParserError | ValidationError => true
  | _ => false
  end.

Section Parsers.
Context {U : UnicodeData} {P : DateParser}.

Definition parse_date_maybe (value : str) : result (option date) :=
  let value := strip value in
  match value with
  | [] => Ok None
  | _ =>
      try_except
        (bind (date_parser_parse value true) (fun dt => Ok (Some (dt_date dt))))
        is_Exception
        (Ok None)
  end.

(** [re.sub(r"[^\d,.\-]", "", value)] *)
Definition keep_amount_chars (value : str) : str :=
  filter (fun c => isdecimal c || (c =? 44) || (c =? 46) || (c =? 45)) value.

Definition has (c : N) (s : str) : bool := existsb (N.eqb c) s.

(** The [if]/[elif] on the separators: with both [','] and ['.'] the commas
    are dropped, with commas alone they become points. *)
Definition normalize_separators (cleaned : str) : str :=
  if has 44 cleaned && has 46 cleaned then replace1 44 [] cleaned
  else if has 44 cleaned && negb (has 46 cleaned) then replace1 44 (u ".") cleaned
  else cleaned.

(** The argument is a [str]: the test [value is None] at the head of the
    function is never true. *)
Definition parse_amount_maybe (value : str) : result (option float) :=
  let cleaned := strip (keep_amount_chars value) in
  match cleaned with
  | [] => Ok None
  | _ =>
      let cleaned := normalize_separators cleaned in
      try_except
        (bind (py_float cleaned) (fun x => Ok (Some x)))
        is_ValueError
        (Ok None)
  end.

End Parsers.

End Utils.

(* ===================================================================== *)
(** * [invoice_qc/schema.py]                                              *)
(* ===================================================================== *)

Module Schema.
Import Py Datetime.

Record LineItem : Type := {
  description : str;
  quantity : float;
  unit_price : float;
  line_total : float
}.

Record Invoice : Type := {
  source_file : str;
  invoice_number : str;
  invoice_date : date;
  due_date : option date;
  seller_name : str;
  seller_tax_id : option str;
  buyer_name : str;
  buyer_tax_id : option str;
  currency : str;
  net_total : float;
  tax_amount : float;
  gross_total : float;
  payment_terms : option str;
  line_items : list LineItem
}.

End Schema.

(* ===================================================================== *)
(** * [re]: a backtracking matcher for the patterns of the extractor      *)
(* ===================================================================== *)

Module Re.
Import Py.
Local Open Scope N_scope.

(** The constructs that occur in the patterns; every repetition in them is
    over a set of characters. *)
Inductive regex : Type :=
| Chr (p : N -> bool)            (* one character of a set *)
| Star (p : N -> bool)           (* [p*], greedy *)
| Plus (p : N -> bool)           (* [p+], greedy *)
| Opt (r : regex)                (* [r?], greedy *)
| Seq (r1 r2 : regex)
| Alt (r1 r2 : regex)            (* [r1|r2], [r1] tried first *)
| Group (n : nat) (r : regex)    (* capturing group number [n] *)
| WordBoundary                   (* [\b] *)
| Eps.                           (* the empty pattern *)

(** Character sets *)

Definition ascii_lower (c : N) : N :=
  if (65 <=? c) && (c <=? 90) then c + 32 else c.

(** The characters that the ASCII pattern character [p] matches under
    [re.IGNORECASE]: both cases of a letter and, for [i], [s] and [k], the
    dotted and dotless i, the long s and the Kelvin sign. *)
Definition ci_eq (p c : N) : bool :=
  let lp := ascii_lower p in
  (ascii_lower c =? lp)
  || ((lp =? 105) && ((c =? 304) || (c =? 305)))
  || ((lp =? 115) && (c =? 383))
  || ((lp =? 107) && (c =? 8490)).

(** [[A-Za-z0-9]] under [re.IGNORECASE] *)
Definition alnum_ci (c : N) : bool :=
  ((48 <=? c) && (c <=? 57)) || ((65 <=? c) && (c <=? 90))
  || ((97 <=? c) && (c <=? 122))
  || (c =? 304) || (c =? 305) || (c =? 383) || (c =? 8490).

(** [\S] *)
Definition nonspace (c : N) : bool := negb (isspace c).

(** [.] (without [re.DOTALL]) *)
Definition dot (c : N) : bool := negb (c =? 10).

(** [[:\-]] *)
Definition colon_dash (c : N) : bool := (c =? 58) || (c =? 45).

(** Concatenation of patterns. *)
Fixpoint cat (rs : list regex) : regex :=
  match rs with
  | [] => Eps
  | [r] => r
  | r :: rs' => Seq r (cat rs')
  end.

(** [lit_i "text"]: the literal [text] under [re.IGNORECASE];
    [lit "text"]: the same, case-sensitive. *)
Definition lit_i (s : string) : regex := cat (map (fun c => Chr (ci_eq c)) (u s)).
Definition lit (s : string) : regex := cat (map (fun c => Chr (N.eqb c)) (u s)).
Arguments lit_i s%_string.
Arguments lit s%_string.

(** Spans of the groups that took part in a match. *)
Definition captures : Type := list (nat * (nat * nat)).

Fixpoint span_of (g : nat) (caps : captures) : option (nat * nat) :=
  match caps with
  | [] => None
  | (n, sp) :: caps' => if Nat.eqb n g then Some sp else span_of g caps'
  end.

Section Engine.
Context {U : UnicodeData}.
Variable text : str.

(** Number of characters of the set [p] in a row from the head of [s]. *)
Fixpoint run (p : N -> bool) (s : str) : nat :=
  match s with
  | c :: s' => if p c then S (run p s') else O
  | [] => O
  end.

(** [hi, hi-1, ..., lo] *)
Definition downto (lo hi : nat) : list nat := rev (seq lo (S hi - lo)).

Definition word_at (i : nat) : bool :=
  match nth_error text i with Some c => isword c | None => false end.

Definition at_boundary (i : nat) : bool :=
  xorb (match i with O => false | S j => word_at j end) (word_at i).

(** [rmatch r i caps]: the ways [r] matches from index [i], in the order
    the backtracking matcher tries them, each as the index after the match
    and the groups set so far. *)
Fixpoint rmatch (r : regex) (i : nat) (caps : captures) : list (nat * captures) :=
  match r with
  | Chr p =>
      match nth_error text i with
      | Some c => if p c then [(S i, caps)] else []
      | None => []
      end
  | Star p =>
      map (fun j => (j, caps)) (downto i (i + run p (skipn i text)))
  | Plus p =>
      map (fun j => (j, caps)) (downto (S i) (i + run p (skipn i text)))
  | Opt r1 => rmatch r1 i caps ++ [(i, caps)]
  | Seq r1 r2 =>
      flat_map (fun m => rmatch r2 (fst m) (snd m)) (rmatch r1 i caps)
  | Alt r1 r2 => rmatch r1 i caps ++ rmatch r2 i caps
  | Group n r1 =>
      map (fun m => (fst m, (n, (i, fst m)) :: snd m)) (rmatch r1 i caps)
  | WordBoundary => if at_boundary i then [(i, caps)] else []
  | Eps => [(i, caps)]
  end.

(** The first match starting at one of the indices [starts]. *)
Fixpoint first_match (r : regex) (starts : list nat) : option captures :=
  match starts with
  | [] => None
  | i :: starts' =>
      match rmatch r i [] with
      | m :: _ => Some (snd m)
      | [] => first_match r starts'
      end
  end.

(** [re.search(r, text)]: [None], or the groups of the leftmost match. *)
Definition search (r : regex) : option captures :=
  first_match r (seq 0 (S (length text))).

(** [m.group(g)]: [None] when group [g] took no part in the match. *)
Definition group (m : captures) (g : nat) : option str :=
  match span_of g m with
  | Some (a, b) => Some (firstn (b - a) (skipn a text))
  | None => None
  end.

End Engine.

End Re.

(* ===================================================================== *)
(** * [invoice_qc/extractor.py]                                           *)
(* ===================================================================== *)

Module Extractor.
Import Py Datetime Dateutil Utils Schema Re.
Local Open Scope N_scope.

Definition ws : regex := Star isspace.                       (* [\s*] *)

(** [[A-Za-z0-9/\-\. ]+] under [re.IGNORECASE] *)
Definition date_chars : regex :=
  Plus (fun c => alnum_ci c || (c =? 47) || (c =? 45) || (c =? 46) || (c =? 32)).

(** [Invoice\s*(No\.?|Number|#)\s*[:\-]\s*(\S+)] and
    [Inv\s*#\s*[:\-]\s*(\S+)] *)
Definition INVOICE_NO_PATTERNS : list regex :=
  [ cat [lit_i "Invoice"; ws;
         Group 1 (Alt (cat [lit_i "No"; Opt (lit_i ".")])
                      (Alt (lit_i "Number") (lit_i "#")));
         ws; Chr colon_dash; ws; Group 2 (Plus nonspace)];
    cat [lit_i "Inv"; ws; lit_i "#"; ws; Chr colon_dash; ws;
         Group 1 (Plus nonspace)] ].

(** [Invoice\s*Date\s*[:\-]\s*([A-Za-z0-9/\-\. ]+)] and
    [Date\s*[:\-]\s*([A-Za-z0-9/\-\. ]+)] *)
Definition INVOICE_DATE_PATTERNS : list regex :=
  [ cat [lit_i "Invoice"; ws; lit_i "Date"; ws; Chr colon_dash; ws;
         Group 1 date_chars];
    cat [lit_i "Date"; ws; Chr colon_dash; ws; Group 1 date_chars] ].

(** [Due\s*Date\s*[:\-]\s*([A-Za-z0-9/\-\. ]+)] *)
Definition DUE_DATE_PATTERNS : list regex :=
  [ cat [lit_i "Due"; ws; lit_i "Date"; ws; Chr colon_dash; ws;
         Group 1 date_chars] ].

(** [<label>\s*[:\-]\s*(.+)] *)
Definition labelled (label : string) : regex :=
  cat [lit_i label; ws; Chr colon_dash; ws; Group 1 (Plus dot)].
Arguments labelled label%_string.

Definition SELLER_PATTERNS : list regex := [labelled "Seller"; labelled "Supplier"].

Definition BUYER_PATTERNS : list regex := [labelled "Buyer"; labelled "Customer"].

(** [(GSTIN|VAT|Tax\s*ID)\s*[:\-]\s*([A-Za-z0-9\-]+)] *)
Definition TAX_ID_PATTERN : regex :=
  cat [Group 1 (Alt (lit_i "GSTIN")
                    (Alt (lit_i "VAT") (cat [lit_i "Tax"; ws; lit_i "ID"])));
       ws; Chr colon_dash; ws;
       Group 2 (Plus (fun c => alnum_ci c || (c =? 45)))].

(** [Payment\s*Terms\s*[:\-]\s*(.+)] *)
Definition PAYMENT_TERMS_PATTERN : regex :=
  cat [lit_i "Payment"; ws; lit_i "Terms"; ws; Chr colon_dash; ws;
       Group 1 (Plus dot)].

Definition CURRENCY_CODES : list string := ["INR"; "EUR"; "USD"; "GBP"]%string.

(** [rf"\b{code}\b"] *)
Definition currency_pattern (code : string) : regex :=
  cat [WordBoundary; lit code; WordBoundary].

(** [x or default] for an optional string [x]: [None] and the empty string
    are false. *)
Definition or_str (x : option str) (default : str) : str :=
  match x with
  | Some (c :: s) => c :: s
  | _ => default
  end.

Section Extraction.
Context {U : UnicodeData} {P : DateParser}.

(** [m.group(g).strip()]; a group that took no part in the match is [None],
    which has no [strip]. *)
Definition group_stripped (text : str) (m : captures) (g : nat) : result str :=
  match group text m g with
  | Some s => Ok (strip s)
  | None => Raise AttributeError
  end.

Fixpoint _search_first (patterns : list regex) (text : str) (g : nat)
  : result (option str) :=
  match patterns with
  | [] => Ok None
  | pat :: patterns' =>
      match search text pat with
      | Some m => bind (group_stripped text m g) (fun s => Ok (Some s))
      | None => _search_first patterns' text g
      end
  end.

Fixpoint guess_from (codes : list string) (text : str) : str :=
  match codes with
  | [] => u "INR"
  | code :: codes' =>
      match search text (currency_pattern code) with
      | Some _ => u code
      | None => guess_from codes' text
      end
  end.

Definition _guess_currency (text : str) : str := guess_from CURRENCY_CODES text.

(** The three kinds of totals line. *)
Definition is_net_line (lower : str) : bool :=
  (contains (u "net") lower && contains (u "total") lower)
  || contains (u "subtotal") lower.

Definition is_tax_line (lower : str) : bool :=
  contains (u "tax") lower || contains (u "vat") lower || contains (u "gst") lower.

Definition is_gross_line (lower : str) : bool :=
  (contains (u "total") lower || contains (u "grand total") lower)
  && negb (contains (u "net") lower).

Definition totals : Type := (float * float * float)%type.

(** The body of the loop over the lines. *)
Definition totals_line (st : totals) (line : str) : result totals :=
  let '(net, tax, gross) := st in
  let lower := lower line in
  if is_net_line lower then
    bind (parse_amount_maybe line) (fun amt =>
      match amt with
      | Some a => Ok (a, tax, gross)
      | None => Ok (net, tax, gross)
      end)
  else if is_tax_line lower then
    bind (parse_amount_maybe line) (fun amt =>
      match amt with
      | Some a => Ok (net, a, gross)
      | None => Ok (net, tax, gross)
      end)
  else if is_gross_line lower then
    bind (parse_amount_maybe line) (fun amt =>
      match amt with
      | Some a => Ok (net, tax, a)
      | None => Ok (net, tax, gross)
      end)
  else Ok (net, tax, gross).

(** [if gross == 0.0 and (net > 0 or tax > 0): gross = net + tax] *)
Definition gross_fallback (st : totals) : totals :=
  let '(net, tax, gross) := st in
  if PrimFloat.eqb gross zero && (PrimFloat.ltb zero net || PrimFloat.ltb zero tax)
  then (net, tax, PrimFloat.add net tax)
  else (net, tax, gross).

Definition _extract_totals (text : str) : result totals :=
  bind (for_each totals_line (splitlines text) (zero, zero, zero))
       (fun st => Ok (gross_fallback st)).

Definition _extract_line_items (text : str) : list LineItem := [].

Definition parse_invoice_from_text (text : str) (source_file : str)
  : result Invoice :=
  bind (_search_first INVOICE_NO_PATTERNS text 1) (fun found =>
  let invoice_number := or_str found (u "UNKNOWN") in
  bind (_search_first INVOICE_DATE_PATTERNS text 1) (fun found =>
  let raw_inv_date := or_str found [] in
  bind (parse_date_maybe raw_inv_date) (fun parsed =>
  bind (match parsed with
        | Some d => Ok (Some d)
        | None => parse_date_maybe (u "2000-01-01")
        end) (fun invoice_date =>
  bind (_search_first DUE_DATE_PATTERNS text 1) (fun found =>
  let raw_due_date := or_str found [] in
  bind (parse_date_maybe raw_due_date) (fun due_date =>
  bind (_search_first SELLER_PATTERNS text 1) (fun found =>
  let seller_name := or_str found (u "UNKNOWN_SELLER") in
  bind (_search_first BUYER_PATTERNS text 1) (fun found =>
  let buyer_name := or_str found (u "UNKNOWN_BUYER") in
  bind (match search text TAX_ID_PATTERN with
        | Some m => bind (group_stripped text m 2) (fun s => Ok (Some s))
        | None => Ok None
        end) (fun seller_tax_id =>
  let buyer_tax_id := None in
  let currency := _guess_currency text in
  bind (_extract_totals text) (fun '(net_total, tax_amount, gross_total) =>
  bind (match search text PAYMENT_TERMS_PATTERN with
        | Some m => bind (group_stripped text m 1) (fun s => Ok (Some s))
        | None => Ok None
        end) (fun payment_terms =>
  let line_items := _extract_line_items text in
  (* [Invoice(...)]: pydantic checks the fields against their types;
     [invoice_date] is required and has to be a date *)
  match invoice_date with
  | None => Raise ValidationError
  | Some invoice_date =>
      Ok {| source_file := source_file;
            invoice_number := invoice_number;
            invoice_date := invoice_date;
            due_date := due_date;
            seller_name := seller_name;
            seller_tax_id := seller_tax_id;
            buyer_name := buyer_name;
            buyer_tax_id := buyer_tax_id;
            currency := currency;
            net_total := net_total;
            tax_amount := tax_amount;
            gross_total := gross_total;
            payment_terms := payment_terms;
            line_items := line_items |}
  end))))))))))).

End Extraction.

Section Directory.
Context {U : UnicodeData} {P : DateParser}.

(** ["\n".join(parts)] *)
Definition join_lines (parts : list str) : str :=
  match parts with
  | [] => []
  | first :: others => first ++ flat_map (fun part => 10%N :: part) others
  end.

(** The pages of the document are given by what [page.extract_text()]
    returns for each of them, a string or [None]. *)
Definition _extract_text_from_pdf (pages : list (option str)) : str :=
  join_lines (map (fun page_text => or_str page_text []) pages).

(** A file found by [pdf_dir.glob("*.pdf")]: its name and its pages. *)
Definition pdf_file : Type := (str * list (option str))%type.

(** The body of the loop over the files. *)
Definition extract_file (invoices : list Invoice) (pdf : pdf_file)
  : result (list Invoice) :=
  let text := _extract_text_from_pdf (snd pdf) in
  bind (parse_invoice_from_text text (fst pdf)) (fun inv =>
  Ok (invoices ++ [inv])).

(** The files are given in the order in which [glob] yields them. *)
Definition extract_from_dir (files : list pdf_file) : result (list Invoice) :=
  for_each extract_file files [].

End Directory.

End Extractor.

(* ===================================================================== *)
(** * [invoice_qc/validator.py]                                           *)
(* ===================================================================== *)

Module Validator.
Import Py Datetime Schema.

Definition EPSILON : float := 0.05%float.

(** A set of strings; only membership is used. *)
Definition ALLOWED_CURRENCIES : list str := [u "INR"; u "EUR"; u "USD"; u "GBP"].

Definition str_in (s : str) (set : list str) : bool := existsb (str_eqb s) set.

(** [not s.strip()] *)
Definition blank (s : str) : bool :=
  match strip s with [] => true | _ => false end.

(** [if cond: errors.append(e)] *)
Definition when (cond : bool) (e : str) : list str := if cond then [e] else [].

Definition _check_completeness (invoice : Invoice) : list str :=
  when (blank (invoice_number invoice)) (u "missing_field: invoice_number")
  ++ when (blank (seller_name invoice)) (u "missing_field: seller_name")
  ++ when (blank (buyer_name invoice)) (u "missing_field: buyer_name")
  ++ when (negb (str_in (currency invoice) ALLOWED_CURRENCIES))
          (u "invalid_currency: " ++ currency invoice)
  ++ when (year (invoice_date invoice) <? 2000)%N
          (u "invalid_date: invoice_date_too_old")
  ++ when (match due_date invoice with
           | Some due => date_ltb due (invoice_date invoice)
           | None => false
           end)
          (u "business_rule_failed: due_date_before_invoice_date").

(** [sum(li.line_total for li in items)]: the additions from [0], left to
    right.  (CPython 3.12 and later compensate the rounding errors of the
    partial sums; nothing below depends on how the sum is rounded.) *)
Definition lines_sum (items : list LineItem) : float :=
  fold_left PrimFloat.add (map line_total items) zero.

Definition totals_mismatch (invoice : Invoice) : bool :=
  PrimFloat.ltb EPSILON
    (abs (PrimFloat.sub (PrimFloat.add (net_total invoice) (tax_amount invoice))
                        (gross_total invoice))).

Definition _check_business_rules (invoice : Invoice) : list str :=
  when (totals_mismatch invoice)
       (u "business_rule_failed: totals_mismatch_net_plus_tax_ne_gross")
  ++ when (PrimFloat.ltb (net_total invoice) zero
           || PrimFloat.ltb (tax_amount invoice) zero
           || PrimFloat.ltb (gross_total invoice) zero)
          (u "anomaly: negative_totals")
  ++ match line_items invoice with
     | [] => []
     | items =>
         when (PrimFloat.ltb EPSILON
                 (abs (PrimFloat.sub (lines_sum items) (net_total invoice))))
              (u "business_rule_failed: line_items_sum_ne_net_total")
     end.

(** [f"{inv.invoice_number}::{inv.seller_name}::{inv.invoice_date.isoformat()}"] *)
Definition duplicate_key (inv : Invoice) : str :=
  invoice_number inv ++ u "::" ++ seller_name inv ++ u "::"
  ++ isoformat (invoice_date inv).

(** A [dict] with string keys, in insertion order. *)
Definition dict (V : Type) : Type := list (str * V).

(** [d.setdefault(key, []).append(idx)] *)
Fixpoint setdefault_append (d : dict (list nat)) (key : str) (idx : nat)
  : dict (list nat) :=
  match d with
  | [] => [(key, [idx])]
  | (k, v) :: d' =>
      if str_eqb k key then (k, v ++ [idx]) :: d'
      else (k, v) :: setdefault_append d' key idx
  end.

Definition enumerate {A : Type} (l : list A) : list (nat * A) :=
  combine (seq 0 (length l)) l.

Definition key_to_indices (invoices : list Invoice) : dict (list nat) :=
  fold_left (fun d ie => setdefault_append d (duplicate_key (snd ie)) (fst ie))
            (enumerate invoices) [].

Definition _check_duplicates (invoices : list Invoice) : dict (list nat) :=
  filter (fun kv => (1 <? length (snd kv))%nat) (key_to_indices invoices).

(** One element of ["results"]. *)
Record ResultEntry : Type := {
  invoice_id : str;
  res_source_file : str;
  is_valid : bool;
  errors : list str
}.

Record Summary : Type := {
  total_invoices : Z;
  valid_invoices : Z;
  invalid_invoices : Z;
  error_counts : dict Z
}.

Record Report : Type := {
  summary : Summary;
  results : list ResultEntry
}.

(** [counter[e] += 1] on a [Counter] *)
Fixpoint counter_incr (counter : dict Z) (e : str) : dict Z :=
  match counter with
  | [] => [(e, 1%Z)]
  | (k, n) :: counter' =>
      if str_eqb k e then (k, (n + 1)%Z) :: counter'
      else (k, n) :: counter_incr counter' e
  end.

Definition validation_state : Type := (list ResultEntry * dict Z)%type.

(** The body of the loop over the invoices. *)
Definition check_invoice (st : validation_state) (inv : Invoice) : validation_state :=
  let '(results, error_counter) := st in
  let inv_errors := _check_completeness inv ++ _check_business_rules inv in
  let error_counter := fold_left counter_incr inv_errors error_counter in
  (results ++ [ {| invoice_id := invoice_number inv;
                   res_source_file := source_file inv;
                   is_valid := (length inv_errors =? 0)%nat;
                   errors := inv_errors |} ],
   error_counter).

Definition append_error (r : ResultEntry) (e : str) : ResultEntry :=
  {| invoice_id := invoice_id r;
     res_source_file := res_source_file r;
     is_valid := is_valid r;
     errors := errors r ++ [e] |}.

Fixpoint set_nth {A : Type} (l : list A) (i : nat) (x : A) : list A :=
  match l, i with
  | [], _ => []
  | _ :: l', O => x :: l'
  | y :: l', S i' => y :: set_nth l' i' x
  end.

(** The body of the loop over the indices of a duplicate group:
    [results[idx]["errors"].append(...)] mutates the list held by the
    result entry, and only that; an index out of range raises. *)
Definition mark_duplicate (st : validation_state) (idx : nat)
  : result validation_state :=
  let '(results, error_counter) := st in
  match nth_error results idx with
  | None => Raise IndexError
  | Some r =>
      Ok (set_nth results idx (append_error r (u "anomaly: duplicate_invoice")),
          counter_incr error_counter (u "anomaly: duplicate_invoice"))
  end.

Definition validate_invoices (invoices : list Invoice) : result Report :=
  let st := fold_left check_invoice invoices ([], []) in
  let duplicates := _check_duplicates invoices in
  bind (for_each (fun st group => for_each mark_duplicate (snd group) st)
                 duplicates st)
       (fun '(results, error_counter) =>
  let total_invoices := Z.of_nat (length invoices) in
  let invalid_invoices :=
    Z.of_nat (length (filter (fun r => negb (is_valid r)) results)) in
  let valid_invoices := (total_invoices - invalid_invoices)%Z in
  Ok {| summary := {| total_invoices := total_invoices;
                      valid_invoices := valid_invoices;
                      invalid_invoices := invalid_invoices;
                      error_counts := error_counter |};
        results := results |}).

End Validator.

(* ===================================================================== *)
(** * Specifications                                                      *)
(* ===================================================================== *)

(** What the operations are expected to compute, stated without loops and
    mutable state, and the sample data used below. *)

Module Spec.
Import Py Datetime Dateutil Utils Schema Re Extractor Validator.

(** ** Regular expressions *)

(** [sets g r]: group [g] takes part in every match of [r]. *)
Fixpoint sets (g : nat) (r : regex) : bool :=
  match r with
  | Group n r1 => Nat.eqb n g || sets g r1
  | Seq r1 r2 => sets g r1 || sets g r2
  | Alt r1 r2 => sets g r1 && sets g r2
  | _ => false
  end.

(** ** Totals extraction *)

Inductive kind : Type := Net | Tax | Gross.

Definition kind_eqb (a b : kind) : bool :=
  match a, b with
  | Net, Net | Tax, Tax | Gross, Gross => true
  | _, _ => false
  end.

Section Totals.
Context {U : UnicodeData}.

(** The branch of the [if]/[elif] chain that a line takes. *)
Definition category (line : str) : option kind :=
  let lower := lower line in
  if is_net_line lower then Some Net
  else if is_tax_line lower then Some Tax
  else if is_gross_line lower then Some Gross
  else None.

Definition in_category (k : kind) (line : str) : bool :=
  match category line with
  | Some k' => kind_eqb k k'
  | None => false
  end.

(** The amount on a line, [None] when there is none. *)
Definition amount_of (line : str) : option float :=
  match parse_amount_maybe line with
  | Ok amt => amt
  | Raise _ => None
  end.

(** The amounts of the lines of a category that carry one, in order. *)
Definition amounts_in (k : kind) (lines : list str) : list float :=
  flat_map (fun line => match amount_of line with
                        | Some a => [a]
                        | None => []
                        end)
           (filter (in_category k) lines).

Definition amounts (k : kind) (text : str) : list float :=
  amounts_in k (splitlines text).

(** The body of the loop of [_extract_totals], as a function. *)
Definition totals_update (st : totals) (line : str) : totals :=
  let '(net, tax, gross) := st in
  match category line, amount_of line with
  | Some Net, Some a => (a, tax, gross)
  | Some Tax, Some a => (net, a, gross)
  | Some Gross, Some a => (net, tax, a)
  | _, _ => (net, tax, gross)
  end.

(** The value of a category: the amount of the last line of the category
    that has one, and 0 when no line has. *)
Definition last_amount (k : kind) (text : str) : float :=
  last (amounts k text) zero.

(** The reading in which the last line of a category decides alone: its
    amount, and 0 when it has none or when the category has no line. *)
Definition last_line_amount (k : kind) (text : str) : float :=
  match rev (filter (in_category k) (splitlines text)) with
  | [] => zero
  | line :: _ => match amount_of line with
                 | Some a => a
                 | None => zero
                 end
  end.

Definition last_line_decides (text : str) : Prop :=
  _extract_totals text
  = Ok (gross_fallback (last_line_amount Net text, last_line_amount Tax text,
                        last_line_amount Gross text)).

End Totals.

(** ** Validation *)

Definition DUPLICATE : str := u "anomaly: duplicate_invoice".

Definition TOTALS_MISMATCH : str :=
  u "business_rule_failed: totals_mismatch_net_plus_tax_ne_gross".

(** The tags of the per-record checks. *)
Definition record_errors (inv : Invoice) : list str :=
  _check_completeness inv ++ _check_business_rules inv.

(** [is_duplicate invs inv]: the key of [inv] occurs more than once among
    the keys of [invs]. *)
Definition same_key (a b : Invoice) : bool :=
  str_eqb (duplicate_key b) (duplicate_key a).

Definition is_duplicate (invs : list Invoice) (inv : Invoice) : bool :=
  (1 <? length (filter (same_key inv) invs))%nat.

(** The result entry of an invoice of the batch [invs]: validity is that of
    the per-record checks; the duplicate tag comes last. *)
Definition entry_of (invs : list Invoice) (inv : Invoice) : ResultEntry :=
  {| invoice_id := invoice_number inv;
     res_source_file := source_file inv;
     is_valid := (length (record_errors inv) =? 0)%nat;
     errors := record_errors inv
               ++ (if is_duplicate invs inv then [DUPLICATE] else []) |}.

(** The entry as the loop over the invoices leaves it. *)
Definition base_entry (inv : Invoice) : ResultEntry :=
  {| invoice_id := invoice_number inv;
     res_source_file := source_file inv;
     is_valid := (length (record_errors inv) =? 0)%nat;
     errors := record_errors inv |}.

(** [n] duplicate tags appended to an entry. *)
Definition tagged (n : nat) (r : ResultEntry) : ResultEntry :=
  Nat.iter n (fun r => append_error r DUPLICATE) r.

(** The positions of the invoices of [invs] whose key is [k], ascending. *)
Definition has_key (invs : list Invoice) (k : str) (i : nat) : bool :=
  match nth_error invs i with
  | Some inv => str_eqb (duplicate_key inv) k
  | None => false
  end.

Definition positions (invs : list Invoice) (k : str) : list nat :=
  filter (has_key invs k) (seq 0 (length invs)).

(** The dictionary built by the first loop of [_check_duplicates]: its keys
    are distinct, every invoice has its key in it, and a key is bound to
    the positions of the invoices that have it. *)
Record grouped (invs : list Invoice) (d : dict (list nat)) : Prop := {
  grouped_keys : NoDup (map fst d);
  grouped_values : forall k v, In (k, v) d -> v = positions invs k;
  grouped_all : forall inv, In inv invs -> In (duplicate_key inv) (map fst d)
}.

(** The groups that [_check_duplicates] keeps. *)
Definition big (kv : str * list nat) : bool := (1 <? length (snd kv))%nat.

Definition with_totals (inv : Invoice) (net tax gross : float) : Invoice :=
  {| source_file := source_file inv;
     invoice_number := invoice_number inv;
     invoice_date := invoice_date inv;
     due_date := due_date inv;
     seller_name := seller_name inv;
     seller_tax_id := seller_tax_id inv;
     buyer_name := buyer_name inv;
     buyer_tax_id := buyer_tax_id inv;
     currency := currency inv;
     net_total := net;
     tax_amount := tax;
     gross_total := gross;
     payment_terms := payment_terms inv;
     line_items := line_items inv |}.

(** ** Sample data *)

Definition sample_invoice (source number seller : string) : Invoice :=
  {| source_file := u source;
     invoice_number := u number;
     invoice_date := {| year := 2024; month := 1; day := 10 |};
     due_date := None;
     seller_name := u seller;
     seller_tax_id := None;
     buyer_name := u "Bob";
     buyer_tax_id := None;
     currency := u "INR";
     net_total := 100%float;
     tax_amount := 18%float;
     gross_total := 118%float;
     payment_terms := None;
     line_items := [] |}.
Arguments sample_invoice (source number seller)%_string.

Definition newline : str := [10%N].

(** The text of a small invoice. *)
Definition sample_text : str :=
  u "Invoice Date: 10/01/2024" ++ newline
  ++ u "Seller: ACME Ltd" ++ newline
  ++ u "Buyer: Bob" ++ newline
  ++ u "Subtotal USD 100.00" ++ newline
  ++ u "GST 18.00" ++ newline
  ++ u "Total 118.00" ++ newline
  ++ u "Payment Terms: 30 days".

(** Two copies of one invoice, extracted from two files. *)
Definition twin_batch : list Invoice :=
  [sample_invoice "a.pdf" "INV-1" "ACME"; sample_invoice "b.pdf" "INV-1" "ACME"].

(** The same, and an invoice with another number. *)
Definition three_batch : list Invoice :=
  [sample_invoice "a.pdf" "INV-1" "ACME"; sample_invoice "b.pdf" "INV-1" "ACME";
   sample_invoice "c.pdf" "INV-2" "ACME"].

(** A pair of duplicates and an invoice with another number, whose number
    and seller name concatenate to the key of the pair. *)
Definition collision_batch : list Invoice :=
  [sample_invoice "a.pdf" "A" "B::C"; sample_invoice "b.pdf" "A" "B::C";
   sample_invoice "c.pdf" "A::B" "C"].

(** The reading in which a different invoice number is enough to stay clear
    of a pair of duplicates, on batches of three. *)
Definition third_invoice_unaffected : Prop :=
  forall (a b c : Invoice) (rep : Report),
    invoice_number a = invoice_number b ->
    seller_name a = seller_name b ->
    invoice_date a = invoice_date b ->
    source_file a <> source_file b ->
    invoice_number c <> invoice_number a ->
    validate_invoices [a; b; c] = Ok rep ->
    match results rep with
    | [ra; rb; rc] =>
        In DUPLICATE (errors ra) /\ In DUPLICATE (errors rb)
        /\ ~ In DUPLICATE (errors rc)
    | _ => False
    end.

End Spec.

(* ===================================================================== *)
(** * [invoice_qc/cli.py]                                                 *)
(* ===================================================================== *)

(** The commands [validate] and [full-run], for what they decide: the file
    system is reduced to what the input file holds and to the report
    written, and [typer.Exit(code)] ends a run with that exit code.
    Creating the folder of the report and writing the report are taken to
    succeed.  In [validate] the input comes from a file that may be
    missing or malformed, and the summary that [_print_summary] hands to
    [rich] carries tags made from the fields of the invoices: loading and
    printing may raise there, and both are part of the model.  In
    [full-run] the invoices come from the extractor. *)

Module Cli.
Import Py Datetime Dateutil Schema Extractor Validator.

Inductive outcome : Type :=
| Returned                (* the command returns: exit code 0 *)
| Exit (code : Z).        (* [raise typer.Exit(code=...)] *)

Record run : Type := {
  ended : outcome;
  report_written : option Report
}.

(** The end of both commands: the report is written, the summary printed,
    and the exit code is 2 when invalid invoices are counted. *)
Definition write_and_exit (result : Report) : run :=
  {| ended := if (0 <? invalid_invoices (summary result))%Z then Exit 2 else Returned;
     report_written := Some result |}.

(** The input file as [validate] finds it. *)
Inductive input_file : Type :=
| Absent                               (* [in_path.exists()] is false *)
| Malformed                            (* [read_text], [json.loads] or
                                          [Invoice.model_validate] raises *)
| Invoices (invoices : list Invoice).  (* the file holds these invoices *)

(** An exception that ends [validate]. *)
Inductive failure : Type :=
| LoadError                   (* raised while the input is read and parsed *)
| ValidatorError (e : exn)    (* raised by [validate_invoices] *)
| PrintError.                 (* raised by [_print_summary] *)

Record validate_run : Type := {
  validate_ended : outcome + failure;
  validate_report : option Report
}.

(** The console: whether [_print_summary] returns on a summary, which is
    up to [rich], a library that reads the strings it prints as markup. *)
Class Console : Type := {
  _print_summary_returns : Summary -> bool
}.

Section Validate.
Context {C : Console}.

Definition validate (input : input_file) : validate_run :=
  match input with
  | Absent =>
      {| validate_ended := inl (Exit 1); validate_report := None |}
  | Malformed =>
      {| validate_ended := inr LoadError; validate_report := None |}
  | Invoices invoices =>
      match validate_invoices invoices with
      | Raise e =>
          {| validate_ended := inr (ValidatorError e); validate_report := None |}
      | Ok result =>
          (* the report is written, then the summary is printed *)
          if _print_summary_returns (summary result) then
            {| validate_ended :=
                 inl (if (0 <? invalid_invoices (summary result))%Z
                      then Exit 2 else Returned);
               validate_report := Some result |}
          else
            {| validate_ended := inr PrintError;
               validate_report := Some result |}
      end
  end.

End Validate.

Section FullRun.
Context {U : UnicodeData} {P : DateParser}.

(** [full-run]: [files] are the PDF files of the folder. *)
Definition full_run (files : list pdf_file) : result run :=
  bind (extract_from_dir files) (fun invoices =>
  bind (validate_invoices invoices) (fun result =>
  Ok (write_and_exit result))).

End FullRun.

End Cli.

(* ===================================================================== *)
(** * [invoice_qc/validator.py] with the state that outlives a call       *)
(* ===================================================================== *)

(** What a call of [validate_invoices] could carry over to the next one:
    the module-level names of [validator.py] that its code reads,
    [EPSILON] and [ALLOWED_CURRENCIES] (a [set], which is mutable), and
    the list object that the caller passes, with the invoices in it.  In
    this module they are cells of a state that every function receives and
    hands on; a read of one of these names in the source is a load from
    its cell, an assignment to one of them or a mutation of the object it
    holds would be a store.  What a function creates while it runs
    ([errors], [results], [error_counter], [key_to_indices]) is local to
    the call, as in the source. *)

Module Session.
Import Py Datetime Schema Validator.

Record world : Type := {
  EPSILON_cell : float;                   (* [validator.EPSILON] *)
  ALLOWED_CURRENCIES_cell : list str;     (* [validator.ALLOWED_CURRENCIES] *)
  invoices_cell : list Invoice            (* the caller's list *)
}.

(** The module as the import leaves it, with the caller's list. *)
Definition loaded (invoices : list Invoice) : world :=
  {| EPSILON_cell := EPSILON;
     ALLOWED_CURRENCIES_cell := ALLOWED_CURRENCIES;
     invoices_cell := invoices |}.

(** A computation that may raise, in a state. *)
Definition M (A : Type) : Type := world -> result A * world.

Definition ret {A : Type} (a : A) : M A := fun w => (Ok a, w).

Definition bind {A B : Type} (m : M A) (k : A -> M B) : M B :=
  fun w =>
    match m w with
    | (Ok a, w') => k a w'
    | (Raise e, w') => (Raise e, w')
    end.

Definition lift {A : Type} (r : result A) : M A := fun w => (r, w).

Definition load_EPSILON : M float := fun w => (Ok (EPSILON_cell w), w).

Definition load_ALLOWED_CURRENCIES : M (list str) :=
  fun w => (Ok (ALLOWED_CURRENCIES_cell w), w).

Definition load_invoices : M (list Invoice) := fun w => (Ok (invoices_cell w), w).

(** A mutation of the caller's list, or of an invoice in it; nothing in
    [validator.py] does one. *)
Definition store_invoices (invoices : list Invoice) : M unit :=
  fun w => (Ok tt,
            {| EPSILON_cell := EPSILON_cell w;
               ALLOWED_CURRENCIES_cell := ALLOWED_CURRENCIES_cell w;
               invoices_cell := invoices |}).

Fixpoint for_each {A S : Type} (body : S -> A -> M S) (xs : list A) (s : S) : M S :=
  match xs with
  | [] => ret s
  | x :: xs' => bind (body s x) (for_each body xs')
  end.

Definition _check_completeness (invoice : Invoice) : M (list str) :=
  let errors :=
    when (blank (invoice_number invoice)) (u "missing_field: invoice_number")
    ++ when (blank (seller_name invoice)) (u "missing_field: seller_name")
    ++ when (blank (buyer_name invoice)) (u "missing_field: buyer_name") in
  bind load_ALLOWED_CURRENCIES (fun allowed =>
  ret (errors
       ++ when (negb (str_in (currency invoice) allowed))
               (u "invalid_currency: " ++ currency invoice)
       ++ when (year (invoice_date invoice) <? 2000)%N
               (u "invalid_date: invoice_date_too_old")
       ++ when (match due_date invoice with
                | Some due => date_ltb due (invoice_date invoice)
                | None => false
                end)
               (u "business_rule_failed: due_date_before_invoice_date"))).

Definition _check_business_rules (invoice : Invoice) : M (list str) :=
  bind load_EPSILON (fun epsilon =>
  let errors :=
    when (PrimFloat.ltb epsilon
            (abs (PrimFloat.sub
                    (PrimFloat.add (net_total invoice) (tax_amount invoice))
                    (gross_total invoice))))
         (u "business_rule_failed: totals_mismatch_net_plus_tax_ne_gross")
    ++ when (PrimFloat.ltb (net_total invoice) zero
             || PrimFloat.ltb (tax_amount invoice) zero
             || PrimFloat.ltb (gross_total invoice) zero)
            (u "anomaly: negative_totals") in
  match line_items invoice with
  | [] => ret errors
  | items =>
      bind load_EPSILON (fun epsilon =>
      ret (errors
           ++ when (PrimFloat.ltb epsilon
                      (abs (PrimFloat.sub (lines_sum items) (net_total invoice))))
                   (u "business_rule_failed: line_items_sum_ne_net_total")))
  end).

(** The function reads the list it is given and no module-level name. *)
Definition _check_duplicates : M (dict (list nat)) :=
  bind load_invoices (fun invoices =>
  ret (filter (fun kv => (1 <? length (snd kv))%nat) (key_to_indices invoices))).

(** The body of the loop over the invoices. *)
Definition check_invoice (st : validation_state) (inv : Invoice) : M validation_state :=
  let '(results, error_counter) := st in
  bind (_check_completeness inv) (fun completeness =>
  bind (_check_business_rules inv) (fun business =>
  let inv_errors := completeness ++ business in
  let error_counter := fold_left counter_incr inv_errors error_counter in
  ret (results ++ [ {| invoice_id := invoice_number inv;
                       res_source_file := source_file inv;
                       is_valid := (length inv_errors =? 0)%nat;
                       errors := inv_errors |} ],
       error_counter))).

(** [validate_invoices(invoices)], [invoices] being the caller's list. *)
Definition validate_invoices : M Report :=
  bind load_invoices (fun invoices =>
  bind (for_each check_invoice invoices ([], [])) (fun st =>
  bind _check_duplicates (fun duplicates =>
  bind (lift (Py.for_each (fun st group => Py.for_each mark_duplicate (snd group) st)
                          duplicates st))
       (fun '(results, error_counter) =>
  bind load_invoices (fun invoices =>
  let total_invoices := Z.of_nat (length invoices) in
  let invalid_invoices :=
    Z.of_nat (length (filter (fun r => negb (is_valid r)) results)) in
  let valid_invoices := (total_invoices - invalid_invoices)%Z in
  ret {| summary := {| total_invoices := total_invoices;
                       valid_invoices := valid_invoices;
                       invalid_invoices := invalid_invoices;
                       error_counts := error_counter |};
         results := results |}))))).

(** Two calls in a row on the caller's list. *)
Definition twice {A : Type} (call : M A) : M (A * A) :=
  bind call (fun first => bind call (fun second => ret (first, second))).

(** A function that is not in the source, for comparison: it counts the
    invoices of the list and empties the list. *)
Definition drain : M nat :=
  bind load_invoices (fun invoices =>
  bind (store_invoices []) (fun _ => ret (length invoices))).

End Session.

(* ===================================================================== *)
(** * Further specifications                                              *)
(* ===================================================================== *)

Module Spec2.
Import Py Datetime Dateutil Utils Schema Re Extractor Validator Spec.

(** ** Strings *)

(** A string of white space. *)
Definition blanks (w : str) : Prop := forall c, In c w -> isspace c = true.

(** [s] starts with characters taken, in order, from the sets [ps]. *)
Fixpoint starts_with (ps : list (N -> bool)) (s : str) : bool :=
  match ps, s with
  | [], _ => true
  | p :: ps', c :: s' => p c && starts_with ps' s'
  | _ :: _, [] => false
  end.

(** [s] is [label] up to the case of the letters, as [re.IGNORECASE]
    compares them. *)
Definition same_ci (label s : str) : bool :=
  (length s =? length label)%nat && starts_with (map ci_eq label) s.

(** The words that the first group of the first invoice-number pattern
    matches: [No\.?], [Number] and [#]. *)
Definition NUMBER_LABELS : list str := [u "No."; u "No"; u "Number"; u "#"].

(** ** Patterns that cannot start *)

(** [r] has to start with a character, and does not take [c]. *)
Fixpoint stuck_on (c : N) (r : regex) : bool :=
  match r with
  | Chr p | Plus p => negb (p c)
  | Seq r1 _ => stuck_on c r1
  | Alt r1 r2 => stuck_on c r1 && stuck_on c r2
  | Group _ r1 => stuck_on c r1
  | Star _ | Opt _ | WordBoundary | Eps => false
  end.

(** ** Invoices *)

(** The invoice [inv] under another file name. *)
Definition with_source (inv : Invoice) (source : str) : Invoice :=
  {| source_file := source;
     invoice_number := invoice_number inv;
     invoice_date := invoice_date inv;
     due_date := due_date inv;
     seller_name := seller_name inv;
     seller_tax_id := seller_tax_id inv;
     buyer_name := buyer_name inv;
     buyer_tax_id := buyer_tax_id inv;
     currency := currency inv;
     net_total := net_total inv;
     tax_amount := tax_amount inv;
     gross_total := gross_total inv;
     payment_terms := payment_terms inv;
     line_items := line_items inv |}.

(** What extraction makes of a document without any text. *)
Definition placeholder_invoice (source : str) : Invoice :=
  {| source_file := source;
     invoice_number := u "UNKNOWN";
     invoice_date := {| year := 2000; month := 1; day := 1 |};
     due_date := None;
     seller_name := u "UNKNOWN_SELLER";
     seller_tax_id := None;
     buyer_name := u "UNKNOWN_BUYER";
     buyer_tax_id := None;
     currency := u "INR";
     net_total := zero;
     tax_amount := zero;
     gross_total := zero;
     payment_terms := None;
     line_items := [] |}.

(** ** Tags *)

(** The tags of the per-record checks, in the order in which they are
    appended; the currency tag carries the currency of the invoice. *)
Definition record_tags (inv : Invoice) : list str :=
  [u "missing_field: invoice_number";
   u "missing_field: seller_name";
   u "missing_field: buyer_name";
   u "invalid_currency: " ++ currency inv;
   u "invalid_date: invoice_date_too_old";
   u "business_rule_failed: due_date_before_invoice_date";
   TOTALS_MISMATCH;
   u "anomaly: negative_totals";
   u "business_rule_failed: line_items_sum_ne_net_total"].

(** The invoice passes the per-record checks. *)
Definition passes (inv : Invoice) : bool :=
  match record_errors inv with [] => true | _ :: _ => false end.

(** The conditions of the per-record checks, in the order of the tags. *)
Definition record_mask (inv : Invoice) : list bool :=
  [blank (invoice_number inv);
   blank (seller_name inv);
   blank (buyer_name inv);
   negb (str_in (currency inv) ALLOWED_CURRENCIES);
   (year (invoice_date inv) <? 2000)%N;
   match due_date inv with
   | Some due => date_ltb due (invoice_date inv)
   | None => false
   end;
   totals_mismatch inv;
   PrimFloat.ltb (net_total inv) zero || PrimFloat.ltb (tax_amount inv) zero
   || PrimFloat.ltb (gross_total inv) zero;
   match line_items inv with
   | [] => false
   | items => PrimFloat.ltb EPSILON
                (abs (PrimFloat.sub (lines_sum items) (net_total inv)))
   end].

(** The elements of [l] whose flag in [mask] is set. *)
Fixpoint select {A : Type} (mask : list bool) (l : list A) : list A :=
  match mask, l with
  | b :: mask', x :: l' => if b then x :: select mask' l' else select mask' l'
  | _, _ => []
  end.

(** ** Counters *)

(** [counter.get(e, 0)] *)
Fixpoint lookup (counter : dict Z) (e : str) : Z :=
  match counter with
  | [] => 0%Z
  | (k, n) :: counter' => if str_eqb k e then n else lookup counter' e
  end.

Definition positive_counts (c : dict Z) : Prop :=
  forall k n, In (k, n) c -> (1 <= n)%Z.

(** The number of times [e] occurs in a list of tags. *)
Definition occurrences (e : str) (tags : list str) : nat :=
  length (filter (str_eqb e) tags).

Definition all_errors (rep : Report) : list str := concat (map errors (results rep)).

(** ** Currency codes as words *)

Section Words.
Context {U : UnicodeData}.

(** [code] stands at index [i] of [text], with no word character right
    before it and none right after it. *)
Definition stands_alone (code text : str) (i : nat) : bool :=
  prefixb code (skipn i text)
  && negb (match i with O => false | S j => word_at text j end)
  && negb (word_at text (i + length code)).

Definition occurs_as_word (code text : str) : bool :=
  existsb (stands_alone code text) (seq 0 (S (length text))).

End Words.

End Spec2.

(* ===================================================================== *)
(** * Facts about the Python values                                       *)
(* ===================================================================== *)

Module PyFacts.
Import Py.

Lemma str_eqb_eq (a b : str) : str_eqb a b = true <-> a = b.
Proof.
  revert b; induction a as [|x a IH]; intros [|y b]; simpl; split;
    try discriminate; try reflexivity.
  - intros H. apply andb_true_iff in H as [Hx Hab].
    apply N.eqb_eq in Hx. apply IH in Hab. now subst.
  - intros H. injection H as -> ->. rewrite N.eqb_refl. now apply IH.
Qed.

Lemma str_eqb_refl (a : str) : str_eqb a a = true.
Proof. now apply str_eqb_eq. Qed.

Lemma str_eqb_neq (a b : str) : str_eqb a b = false <-> a <> b.
Proof.
  split.
  - intros H E. apply str_eqb_eq in E. congruence.
  - intros H. destruct (str_eqb a b) eqn:E; [|reflexivity].
    apply str_eqb_eq in E. contradiction.
Qed.

Lemma str_eqb_sym (a b : str) : str_eqb a b = str_eqb b a.
Proof.
  destruct (str_eqb a b) eqn:E.
  - apply str_eqb_eq in E. subst. now rewrite str_eqb_refl.
  - symmetry. apply str_eqb_neq. apply str_eqb_neq in E. congruence.
Qed.

Lemma prefixb_app (p s : str) : prefixb p (p ++ s) = true.
Proof. induction p as [|x p IH]; simpl; [reflexivity|]. now rewrite N.eqb_refl. Qed.

(** Loops *)

Lemma for_each_app {A S : Type} (body : S -> A -> result S) (xs ys : list A) (s : S) :
  for_each body (xs ++ ys) s = bind (for_each body xs s) (for_each body ys).
Proof.
  revert s; induction xs as [|x xs IH]; intros s; simpl; [reflexivity|].
  destruct (body s x); simpl; [apply IH | reflexivity].
Qed.

(** A loop whose body never raises is a fold. *)
Lemma for_each_pure {A S : Type} (body : S -> A -> result S) (f : S -> A -> S) :
  (forall s x, body s x = Ok (f s x)) ->
  forall xs s, for_each body xs s = Ok (fold_left f xs s).
Proof.
  intros Hbody xs; induction xs as [|x xs IH]; intros s; simpl; [reflexivity|].
  rewrite Hbody. simpl. apply IH.
Qed.

(** A loop over the groups of a list of lists is a loop over their
    concatenation. *)
Lemma for_each_concat {A K S : Type} (body : S -> A -> result S)
  (groups : list (K * list A)) (s : S) :
  for_each (fun st g => for_each body (snd g) st) groups s
  = for_each body (concat (map snd groups)) s.
Proof.
  revert s; induction groups as [|g groups IH]; intros s; simpl; [reflexivity|].
  rewrite for_each_app. destruct (for_each body (snd g) s); simpl; [apply IH | reflexivity].
Qed.

Section Float.
Context {U : UnicodeData}.

(** [float] rejects a string with [ValueError] and nothing else. *)
Lemma py_float_raises (s : str) (e : exn) : py_float s = Raise e -> e = ValueError.
Proof.
  unfold py_float.
  repeat match goal with
         | |- context [let (_, _) := ?x in _] => destruct x
         | |- context [match ?x with _ => _ end] => destruct x
         end;
    intros H; try discriminate H; now injection H.
Qed.

End Float.

End PyFacts.

(* ===================================================================== *)
(** * Facts about validation                                              *)
(* ===================================================================== *)

Module ValidatorFacts.
Import Py Datetime Schema Validator Spec PyFacts.

(** ** The loop over the invoices *)

Lemma check_loop (invs : list Invoice) (st : validation_state) :
  fst (fold_left check_invoice invs st) = fst st ++ map base_entry invs.
Proof.
  revert st; induction invs as [|inv invs IH]; intros [rs c]; simpl.
  - now rewrite app_nil_r.
  - rewrite IH. simpl. now rewrite <- app_assoc.
Qed.

(** ** The loop over the duplicate indices *)

Lemma set_nth_length {A : Type} (l : list A) (i : nat) (x : A) :
  length (set_nth l i x) = length l.
Proof. revert i; induction l as [|y l IH]; intros [|i]; simpl; auto. Qed.

Lemma nth_error_set_nth_eq {A : Type} (l : list A) (i : nat) (x : A) :
  i < length l -> nth_error (set_nth l i x) i = Some x.
Proof.
  revert i; induction l as [|y l IH]; intros [|i]; simpl; intros H;
    try lia; [reflexivity|]. apply IH. lia.
Qed.

Lemma nth_error_set_nth_neq {A : Type} (l : list A) (i j : nat) (x : A) :
  i <> j -> nth_error (set_nth l i x) j = nth_error l j.
Proof.
  revert i j; induction l as [|y l IH]; intros [|i] [|j]; simpl; intros H;
    try reflexivity; try lia. apply IH. lia.
Qed.

Lemma tagged_append (n : nat) (r : ResultEntry) :
  tagged n (append_error r DUPLICATE) = append_error (tagged n r) DUPLICATE.
Proof.
  unfold tagged. induction n as [|n IH]; [reflexivity|].
  rewrite !Nat.iter_succ. now rewrite IH.
Qed.

Lemma mark_loop (idxs : list nat) :
  forall (rs : list ResultEntry) (c : dict Z),
    (forall i, In i idxs -> i < length rs) ->
    exists rs' c',
      for_each mark_duplicate idxs (rs, c) = Ok (rs', c')
      /\ length rs' = length rs
      /\ forall i r, nth_error rs i = Some r ->
           nth_error rs' i = Some (tagged (count_occ Nat.eq_dec idxs i) r).
Proof.
  induction idxs as [|idx idxs IH]; intros rs c Hin.
  - exists rs, c. simpl. auto.
  - simpl for_each. unfold mark_duplicate at 1.
    destruct (nth_error rs idx) as [r0|] eqn:Hr0.
    2:{ apply nth_error_None in Hr0. specialize (Hin idx (or_introl eq_refl)). lia. }
    simpl bind.
    destruct (IH (set_nth rs idx (append_error r0 DUPLICATE))
                 (counter_incr c DUPLICATE)) as (rs' & c' & Hrun & Hlen & Hnth).
    { intros i Hi. rewrite set_nth_length. apply Hin. now right. }
    exists rs', c'. split; [exact Hrun|]. split.
    { now rewrite Hlen, set_nth_length. }
    intros i r Hr. simpl count_occ.
    destruct (Nat.eq_dec idx i) as [->|Hne].
    + rewrite Hr in Hr0. injection Hr0 as <-.
      rewrite (Hnth i (append_error r DUPLICATE)).
      * now rewrite tagged_append.
      * apply nth_error_set_nth_eq. apply nth_error_Some. congruence.
    + apply Hnth. now rewrite nth_error_set_nth_neq.
Qed.

(** ** The grouping by key *)

Lemma combine_seq_snoc {A : Type} (l : list A) (x : A) (o : nat) :
  combine (seq o (length (l ++ [x]))) (l ++ [x])
  = combine (seq o (length l)) l ++ [(o + length l, x)].
Proof.
  revert o; induction l as [|y l IH]; intros o; simpl.
  - now rewrite Nat.add_0_r.
  - rewrite IH. now rewrite Nat.add_succ_r.
Qed.

Lemma enumerate_snoc {A : Type} (l : list A) (x : A) :
  enumerate (l ++ [x]) = enumerate l ++ [(length l, x)].
Proof. unfold enumerate. now rewrite combine_seq_snoc. Qed.

Lemma key_to_indices_snoc (invs : list Invoice) (inv : Invoice) :
  key_to_indices (invs ++ [inv])
  = setdefault_append (key_to_indices invs) (duplicate_key inv) (length invs).
Proof.
  unfold key_to_indices. rewrite enumerate_snoc, fold_left_app. reflexivity.
Qed.

Lemma has_key_snoc_old (invs : list Invoice) (inv : Invoice) (k : str) (i : nat) :
  i < length invs -> has_key (invs ++ [inv]) k i = has_key invs k i.
Proof. intros H. unfold has_key. now rewrite nth_error_app1. Qed.

Lemma has_key_snoc_new (invs : list Invoice) (inv : Invoice) (k : str) :
  has_key (invs ++ [inv]) k (length invs) = str_eqb (duplicate_key inv) k.
Proof.
  unfold has_key. rewrite nth_error_app2 by lia. now rewrite Nat.sub_diag.
Qed.

Lemma positions_snoc (invs : list Invoice) (inv : Invoice) (k : str) :
  positions (invs ++ [inv]) k
  = positions invs k
    ++ (if str_eqb (duplicate_key inv) k then [length invs] else []).
Proof.
  unfold positions. rewrite length_app. simpl length.
  rewrite Nat.add_1_r, seq_S, filter_app. simpl.
  rewrite has_key_snoc_new. f_equal.
  apply filter_ext_in. intros i Hi. apply in_seq in Hi.
  apply has_key_snoc_old. lia.
Qed.

Lemma positions_lt (invs : list Invoice) (k : str) (i : nat) :
  In i (positions invs k) -> i < length invs.
Proof. unfold positions. intros H. apply filter_In in H as [H _]. apply in_seq in H. lia. Qed.

Lemma positions_NoDup (invs : list Invoice) (k : str) : NoDup (positions invs k).
Proof. apply NoDup_filter, seq_NoDup. Qed.

Lemma positions_In (invs : list Invoice) (k : str) (i : nat) (inv : Invoice) :
  nth_error invs i = Some inv ->
  (In i (positions invs k) <-> duplicate_key inv = k).
Proof.
  intros Hi. unfold positions. rewrite filter_In, in_seq. unfold has_key. rewrite Hi.
  rewrite str_eqb_eq. split; [tauto|]. intros ->. split; [|reflexivity].
  assert (i < length invs) by (apply nth_error_Some; congruence). lia.
Qed.

(** The number of positions of a key is the number of invoices with it. *)
Lemma positions_length (invs : list Invoice) (k : str) :
  length (positions invs k)
  = length (filter (fun inv => str_eqb (duplicate_key inv) k) invs).
Proof.
  induction invs as [|inv invs IH] using rev_ind; [reflexivity|].
  rewrite positions_snoc, filter_app, !length_app, IH. simpl.
  now destruct (str_eqb (duplicate_key inv) k).
Qed.

Lemma setdefault_append_keys (d : dict (list nat)) (key : str) (idx : nat) (k : str) :
  In k (map fst (setdefault_append d key idx)) <-> In k (map fst d) \/ k = key.
Proof.
  induction d as [|[k0 v0] d IH]; simpl.
  - intuition.
  - destruct (str_eqb k0 key) eqn:E; simpl.
    + apply str_eqb_eq in E. subst. intuition.
    + rewrite IH. intuition.
Qed.

Lemma setdefault_append_NoDup (d : dict (list nat)) (key : str) (idx : nat) :
  NoDup (map fst d) -> NoDup (map fst (setdefault_append d key idx)).
Proof.
  induction d as [|[k0 v0] d IH]; simpl; intros Hd.
  - constructor; [intros []|constructor].
  - inversion Hd as [|? ? Hk0 Hd']; subst.
    destruct (str_eqb k0 key) eqn:E; simpl.
    + now constructor.
    + constructor; [|now apply IH].
      rewrite setdefault_append_keys. intros [H|H]; [contradiction|].
      apply str_eqb_neq in E. congruence.
Qed.

Lemma setdefault_append_In (d : dict (list nat)) (key : str) (idx : nat) (k : str)
  (v : list nat) :
  NoDup (map fst d) ->
  In (k, v) (setdefault_append d key idx) ->
  (k <> key /\ In (k, v) d)
  \/ (k = key /\ exists v0, v = v0 ++ [idx] /\ (In (k, v0) d \/ (v0 = [] /\ ~ In k (map fst d)))).
Proof.
  induction d as [|[k0 v0] d IH]; simpl; intros Hd H.
  - destruct H as [H|[]]. injection H as <- <-. right. split; [reflexivity|].
    exists []. split; [reflexivity|]. right. split; [reflexivity|]. intros [].
  - inversion Hd as [|? ? Hk0 Hd']; subst.
    destruct (str_eqb k0 key) eqn:E.
    + apply str_eqb_eq in E. subst k0.
      destruct H as [H|H].
      * injection H as <- <-. right. split; [reflexivity|].
        exists v0. split; [reflexivity|]. left. now left.
      * left. split; [|now right]. intros ->. apply Hk0.
        change key with (fst (key, v)). now apply in_map.
    + apply str_eqb_neq in E. destruct H as [H|H].
      * injection H as <- <-. left. split; [exact E|now left].
      * destruct (IH Hd' H) as [[Hne Hin]|[-> (v1 & -> & Hv1)]].
        -- left. split; [exact Hne|now right].
        -- right. split; [reflexivity|]. exists v1. split; [reflexivity|].
           destruct Hv1 as [Hv1|[-> Hv1]].
           ++ left. now right.
           ++ right. split; [reflexivity|]. intros [Hk|Hk]; [congruence|contradiction].
Qed.

Lemma key_to_indices_grouped (invs : list Invoice) : grouped invs (key_to_indices invs).
Proof.
  induction invs as [|inv invs IH] using rev_ind.
  - split; simpl; [constructor | intros k v [] | intros inv []].
  - rewrite key_to_indices_snoc. destruct IH as [Hkeys Hvals Hall]. split.
    + now apply setdefault_append_NoDup.
    + intros k v Hin. rewrite positions_snoc.
      apply setdefault_append_In in Hin; [|exact Hkeys].
      destruct Hin as [[Hne Hin]|[-> (v0 & -> & Hv0)]].
      * rewrite (Hvals k v Hin).
        assert (str_eqb (duplicate_key inv) k = false) as ->
            by (apply str_eqb_neq; congruence).
        now rewrite app_nil_r.
      * rewrite str_eqb_refl. f_equal.
        destruct Hv0 as [Hv0|[-> Hv0]]; [now apply Hvals|].
        (* a key that was not bound has no position so far *)
        unfold positions. symmetry.
        destruct (filter _ _) as [|i l] eqn:Hf; [reflexivity|]. exfalso.
        assert (In i (filter (has_key invs (duplicate_key inv)) (seq 0 (length invs))))
          as Hi by (rewrite Hf; now left).
        apply filter_In in Hi as [_ Hi]. unfold has_key in Hi.
        destruct (nth_error invs i) as [b|] eqn:Hb; [|discriminate].
        apply str_eqb_eq in Hi. apply Hv0. rewrite <- Hi.
        apply Hall. eapply nth_error_In; eassumption.
    + intros b Hb. apply setdefault_append_keys.
      apply in_app_or in Hb as [Hb|[<-|[]]]; [left; now apply Hall | now right].
Qed.

(** ** The indices marked as duplicates *)

Lemma count_occ_positions (invs : list Invoice) (k : str) (i : nat) (inv : Invoice) :
  nth_error invs i = Some inv ->
  count_occ Nat.eq_dec (positions invs k) i
  = if str_eqb (duplicate_key inv) k then 1 else 0.
Proof.
  intros Hi. destruct (str_eqb (duplicate_key inv) k) eqn:E.
  - apply str_eqb_eq in E.
    apply NoDup_count_occ'; [apply positions_NoDup|].
    now apply (positions_In invs k i inv Hi).
  - apply str_eqb_neq in E. apply count_occ_not_In.
    now rewrite (positions_In invs k i inv Hi).
Qed.

Lemma count_occ_groups (invs : list Invoice) (i : nat) (inv : Invoice)
  (d : dict (list nat)) :
  nth_error invs i = Some inv ->
  NoDup (map fst d) ->
  (forall k v, In (k, v) d -> v = positions invs k) ->
  count_occ Nat.eq_dec (concat (map snd (filter big d))) i
  = if existsb (str_eqb (duplicate_key inv)) (map fst d)
       && (1 <? length (positions invs (duplicate_key inv)))%nat
    then 1 else 0.
Proof.
  intros Hi. induction d as [|[k v] d IH]; intros Hd Hv; [reflexivity|].
  inversion Hd as [|? ? Hk Hd']; subst.
  assert (v = positions invs k) as -> by (apply Hv; now left).
  assert (IHd := IH Hd' (fun k v H => Hv k v (or_intror H))). clear IH.
  simpl map. simpl existsb. simpl filter. unfold big at 1. simpl snd.
  destruct (str_eqb (duplicate_key inv) k) eqn:E.
  - apply str_eqb_eq in E. subst k. simpl orb.
    assert (existsb (str_eqb (duplicate_key inv)) (map fst d) = false) as Hnot.
    { destruct (existsb _ _) eqn:Hex; [|reflexivity]. exfalso.
      apply existsb_exists in Hex as (k' & Hk' & Heq).
      apply str_eqb_eq in Heq. subst. contradiction. }
    rewrite Hnot in IHd. simpl in IHd.
    destruct (1 <? length (positions invs (duplicate_key inv)))%nat.
    + simpl. rewrite count_occ_app, IHd, (count_occ_positions invs _ i inv Hi).
      now rewrite str_eqb_refl.
    + exact IHd.
  - simpl orb. destruct (1 <? length (positions invs k))%nat.
    + simpl. rewrite count_occ_app, IHd, (count_occ_positions invs _ i inv Hi).
      now rewrite E.
    + exact IHd.
Qed.

Lemma is_duplicate_positions (invs : list Invoice) (inv : Invoice) :
  is_duplicate invs inv = (1 <? length (positions invs (duplicate_key inv)))%nat.
Proof. unfold is_duplicate, same_key. now rewrite positions_length. Qed.

Lemma count_occ_duplicates (invs : list Invoice) (i : nat) (inv : Invoice) :
  nth_error invs i = Some inv ->
  count_occ Nat.eq_dec (concat (map snd (_check_duplicates invs))) i
  = if is_duplicate invs inv then 1 else 0.
Proof.
  intros Hi. destruct (key_to_indices_grouped invs) as [Hkeys Hvals Hall].
  unfold _check_duplicates. fold big.
  rewrite (count_occ_groups invs i inv _ Hi Hkeys Hvals).
  rewrite is_duplicate_positions.
  assert (existsb (str_eqb (duplicate_key inv)) (map fst (key_to_indices invs)) = true) as ->.
  { apply existsb_exists. exists (duplicate_key inv). split; [|apply str_eqb_refl].
    apply Hall. eapply nth_error_In; eassumption. }
  reflexivity.
Qed.

Lemma duplicates_in_range (invs : list Invoice) (i : nat) :
  In i (concat (map snd (_check_duplicates invs))) -> i < length invs.
Proof.
  intros H. apply in_concat in H as (v & Hv & Hi).
  apply in_map_iff in Hv as ([k v'] & <- & Hkv). simpl in Hi.
  unfold _check_duplicates in Hkv. apply filter_In in Hkv as [Hkv _].
  destruct (key_to_indices_grouped invs) as [_ Hvals _].
  rewrite (Hvals k v' Hkv) in Hi. eapply positions_lt; eassumption.
Qed.

(** ** The report *)

Lemma tagged_entry (invs : list Invoice) (inv : Invoice) :
  tagged (if is_duplicate invs inv then 1 else 0) (base_entry inv) = entry_of invs inv.
Proof.
  unfold entry_of, base_entry, tagged. destruct (is_duplicate invs inv); simpl.
  - reflexivity.
  - now rewrite app_nil_r.
Qed.

Lemma is_valid_tagged (n : nat) (r : ResultEntry) : is_valid (tagged n r) = is_valid r.
Proof. unfold tagged. induction n as [|n IH]; [reflexivity|]. now rewrite Nat.iter_succ. Qed.

(** The results of [validate_invoices] are the entries of the invoices, in
    order; the counts of the summary are taken from the validity flags. *)
Lemma validate_invoices_report (invs : list Invoice) :
  exists rep,
    validate_invoices invs = Ok rep
    /\ results rep = map (entry_of invs) invs
    /\ total_invoices (summary rep) = Z.of_nat (length invs)
    /\ invalid_invoices (summary rep)
       = Z.of_nat (length (filter (fun r => negb (is_valid r)) (results rep)))
    /\ valid_invoices (summary rep)
       = (total_invoices (summary rep) - invalid_invoices (summary rep))%Z.
Proof.
  unfold validate_invoices. rewrite for_each_concat.
  assert (Hrs := check_loop invs ([], [])). simpl in Hrs.
  destruct (fold_left check_invoice invs ([], [])) as [rs c]. simpl in Hrs. subst rs.
  destruct (mark_loop (concat (map snd (_check_duplicates invs)))
                      (map base_entry invs) c) as (rs' & c' & Hrun & Hlen & Hnth).
  { intros i Hi. rewrite length_map. now apply duplicates_in_range. }
  rewrite Hrun. simpl. eexists. split; [reflexivity|]. simpl.
  repeat split.
  apply nth_error_ext. intros n.
  destruct (nth_error invs n) as [inv|] eqn:Hinv.
  - rewrite (Hnth n (base_entry inv)) by (now apply map_nth_error).
    rewrite (count_occ_duplicates invs n inv Hinv), tagged_entry.
    symmetry. now apply map_nth_error.
  - apply nth_error_None in Hinv.
    transitivity (@None ResultEntry); [|symmetry];
      apply nth_error_None; rewrite ?Hlen, length_map; exact Hinv.
Qed.

(** No per-record check produces the duplicate tag. *)
Lemma record_errors_tags (inv : Invoice) (e : str) :
  In e (record_errors inv) ->
  In e [u "missing_field: invoice_number"; u "missing_field: seller_name";
        u "missing_field: buyer_name"; u "invalid_date: invoice_date_too_old";
        u "business_rule_failed: due_date_before_invoice_date";
        TOTALS_MISMATCH; u "anomaly: negative_totals";
        u "business_rule_failed: line_items_sum_ne_net_total"]
  \/ (e = u "invalid_currency: " ++ currency inv
      /\ str_in (currency inv) ALLOWED_CURRENCIES = false).
Proof.
  unfold record_errors, _check_completeness, _check_business_rules, when.
  rewrite !in_app_iff.
  intros H.
  repeat match type of H with
         | _ \/ _ => destruct H as [H|H]
         end;
  repeat match type of H with
         | In _ (if ?b then _ else _) => destruct b eqn:?
         | In _ (match ?l with [] => _ | _ => _ end) => destruct l
         | In _ [_] => destruct H as [<-|[]]
         | In _ [] => destruct H
         end;
  try (left; simpl; tauto).
  right. split; [reflexivity|]. now apply negb_true_iff.
Qed.

Lemma record_errors_not_duplicate (inv : Invoice) : ~ In DUPLICATE (record_errors inv).
Proof.
  intros H. apply record_errors_tags in H as [H|[H _]].
  - simpl in H. repeat (destruct H as [H|H]; [discriminate H|]). exact H.
  - discriminate H.
Qed.

Lemma two_distinct_members (l : list nat) (i j : nat) :
  NoDup l -> In i l -> In j l -> i <> j -> 2 <= length l.
Proof.
  destruct l as [|x [|y l]]; simpl; intros Hd Hi Hj Hne; lia.
Qed.

Lemma single_member (l : list nat) (k : nat) :
  NoDup l -> (forall i, In i l -> i = k) -> length l <= 1.
Proof.
  destruct l as [|x [|y l]]; simpl; intros Hd Hall; try lia.
  exfalso. assert (x = k) by (apply Hall; auto). assert (y = k) by (apply Hall; auto).
  subst. inversion Hd as [|? ? Hx _]; subst. apply Hx. now left.
Qed.

Lemma is_duplicate_of_pair (invs : list Invoice) (i j : nat) (a b : Invoice) :
  i <> j -> nth_error invs i = Some a -> nth_error invs j = Some b ->
  duplicate_key a = duplicate_key b ->
  is_duplicate invs a = true.
Proof.
  intros Hne Ha Hb Hkey. rewrite is_duplicate_positions. apply Nat.ltb_lt.
  apply (two_distinct_members _ i j); [apply positions_NoDup | | | exact Hne].
  - now apply (positions_In invs _ i a Ha).
  - apply (positions_In invs _ j b Hb). now symmetry.
Qed.

Lemma is_duplicate_of_unique (invs : list Invoice) (k : nat) (c : Invoice) :
  nth_error invs k = Some c ->
  (forall j b, j <> k -> nth_error invs j = Some b -> duplicate_key b <> duplicate_key c) ->
  is_duplicate invs c = false.
Proof.
  intros Hc Hothers. rewrite is_duplicate_positions. apply Nat.ltb_ge.
  apply (single_member _ k); [apply positions_NoDup|].
  intros i Hi. destruct (Nat.eq_dec i k) as [->|Hne]; [reflexivity|]. exfalso.
  assert (Hlt := positions_lt _ _ _ Hi).
  destruct (nth_error invs i) as [b|] eqn:Hb; [|apply nth_error_None in Hb; lia].
  apply (positions_In invs _ i b Hb) in Hi. exact (Hothers i b Hne Hb Hi).
Qed.

Lemma entry_at (invs : list Invoice) (rep : Report) (i : nat) (inv : Invoice) :
  results rep = map (entry_of invs) invs ->
  nth_error invs i = Some inv ->
  nth_error (results rep) i = Some (entry_of invs inv).
Proof. intros -> H. now apply map_nth_error. Qed.

(** An invoice that passes the per-record checks and is a duplicate ends up
    with the duplicate tag and the validity flag set. *)
Lemma duplicate_only_entry (invs : list Invoice) (rep : Report) (i : nat)
  (inv : Invoice) :
  validate_invoices invs = Ok rep ->
  nth_error invs i = Some inv ->
  record_errors inv = [] ->
  is_duplicate invs inv = true ->
  exists r, nth_error (results rep) i = Some r
            /\ is_valid r = true /\ errors r = [DUPLICATE].
Proof.
  intros Hrun Hinv Hclean Hdup.
  destruct (validate_invoices_report invs) as (rep' & Hrun' & Hres & _).
  rewrite Hrun in Hrun'. injection Hrun' as <-.
  exists (entry_of invs inv). split; [now apply entry_at|].
  unfold entry_of. simpl. now rewrite Hclean, Hdup.
Qed.

(** ** Keys and invoice numbers *)

Lemma app_separator_inj (x : N) (l1 l2 r1 r2 : str) :
  ~ In x l1 -> ~ In x l2 -> l1 ++ x :: r1 = l2 ++ x :: r2 -> l1 = l2.
Proof.
  revert l2; induction l1 as [|a l1 IH]; intros [|b l2] H1 H2 E; simpl in *.
  - reflexivity.
  - injection E as -> _. exfalso. apply H2. now left.
  - injection E as -> _. exfalso. apply H1. now left.
  - injection E as -> E. f_equal. apply IH; [tauto|tauto|exact E].
Qed.

(** Invoice numbers without a colon decide the key: two invoices with
    different such numbers have different keys. *)
Lemma different_number_different_key (a b : Invoice) :
  ~ In 58%N (invoice_number a) -> ~ In 58%N (invoice_number b) ->
  invoice_number a <> invoice_number b ->
  duplicate_key a <> duplicate_key b.
Proof.
  intros Ha Hb Hne E. apply Hne. unfold duplicate_key in E.
  change (u "::") with [58%N; 58%N] in E. simpl app in E.
  exact (app_separator_inj 58%N _ _ _ _ Ha Hb E).
Qed.

End ValidatorFacts.

(* ===================================================================== *)
(** * Facts about the parsers and extraction                              *)
(* ===================================================================== *)

Module UtilsFacts.
Import Py Datetime Dateutil Utils Spec PyFacts.

(** ** [strip] keeps a part of the string *)

Lemma lstrip_In (s : str) (c : N) : In c (lstrip s) -> In c s.
Proof.
  induction s as [|x s IH]; simpl; [auto|].
  destruct (isspace x); [right; now apply IH | auto].
Qed.

Lemma strip_In (s : str) (c : N) : In c (strip s) -> In c s.
Proof.
  unfold strip, rstrip. intros H. apply in_rev in H. apply lstrip_In in H.
  apply in_rev in H. now apply lstrip_In.
Qed.

Section Amount.
Context {U : UnicodeData}.

Lemma has_false (c : N) (s : str) : has c s = false -> ~ In c s.
Proof.
  unfold has. intros H Hin.
  assert (existsb (N.eqb c) s = true) as E
      by (apply existsb_exists; exists c; split; [exact Hin|apply N.eqb_refl]).
  congruence.
Qed.

Lemma replace1_In (old : N) (new s : str) (c : N) :
  In c (replace1 old new s) -> (In c s /\ c <> old) \/ In c new.
Proof.
  unfold replace1. intros H. apply in_flat_map in H as (x & Hx & Hc).
  destruct (N.eqb_spec x old) as [->|Hne].
  - now right.
  - destruct Hc as [<-|[]]. left. now split.
Qed.

(** What reaches [float]: decimal digits, points and minus signs. *)
Lemma cleaned_alphabet (value : str) (c : N) :
  In c (normalize_separators (strip (keep_amount_chars value))) ->
  isdecimal c = true \/ c = 46%N \/ c = 45%N.
Proof.
  set (cleaned := strip (keep_amount_chars value)).
  assert (forall x, In x cleaned ->
                    isdecimal x = true \/ x = 44%N \/ x = 46%N \/ x = 45%N) as Hkept.
  { intros x Hx. apply strip_In in Hx. unfold keep_amount_chars in Hx.
    apply filter_In in Hx as [_ Hx].
    repeat (apply orb_true_iff in Hx as [Hx|Hx]); rewrite ?N.eqb_eq in Hx; auto. }
  unfold normalize_separators.
  destruct (has 44 cleaned) eqn:Hcomma; destruct (has 46 cleaned) eqn:Hpoint; simpl.
  - intros H. apply replace1_In in H as [[H Hne]|[]].
    destruct (Hkept c H) as [?|[?|[?|?]]]; auto; contradiction.
  - intros H. apply replace1_In in H as [[H Hne]|[<-|[]]]; [|auto].
    destruct (Hkept c H) as [?|[?|[?|?]]]; auto; contradiction.
  - intros H. destruct (Hkept c H) as [?|[->|[?|?]]]; auto.
    exfalso. now apply (has_false _ _ Hcomma).
  - intros H. destruct (Hkept c H) as [?|[->|[?|?]]]; auto.
    exfalso. now apply (has_false _ _ Hcomma).
Qed.

(** [parse_amount_maybe] never raises: it returns the amount, or [None]
    when nothing is left after cleaning or [float] rejects what is left. *)
Lemma parse_amount_maybe_result (value : str) :
  parse_amount_maybe value
  = Ok (match strip (keep_amount_chars value) with
        | [] => None
        | cleaned =>
            match py_float (normalize_separators cleaned) with
            | Ok x => Some x
            | Raise _ => None
            end
        end).
Proof.
  unfold parse_amount_maybe. destruct (strip (keep_amount_chars value)) as [|c s];
    [reflexivity|].
  destruct (py_float _) as [x|e] eqn:E; simpl; [reflexivity|].
  apply py_float_raises in E. now subst.
Qed.

Lemma parse_amount_maybe_amount_of (line : str) :
  parse_amount_maybe line = Ok (amount_of line).
Proof. unfold amount_of. now rewrite parse_amount_maybe_result. Qed.

End Amount.

Section Date.
Context {P : DateParser}.

(** [parse_date_maybe] never raises: it returns the date, or [None] when
    the string is blank or the parser raises. *)
Lemma parse_date_maybe_result (value : str) :
  parse_date_maybe value
  = Ok (match strip value with
        | [] => None
        | stripped =>
            match date_parser_parse stripped true with
            | Ok dt => Some (dt_date dt)
            | Raise _ => None
            end
        end).
Proof.
  unfold parse_date_maybe. destruct (strip value) as [|c s]; [reflexivity|].
  now destruct (date_parser_parse _ _).
Qed.

End Date.

Lemma numeric_only_agrees : agrees_with_dateutil numeric_only.
Proof.
  intros s dayfirst r H.
  change (match numeric_date s dayfirst with
          | Some r' => r'
          | None => Raise ParserError
          end = r).
  now rewrite H.
Qed.

End UtilsFacts.

Module ExtractorFacts.
Import Py Datetime Dateutil Utils Schema Re Extractor Validator Spec.
Import PyFacts ValidatorFacts UtilsFacts.

Lemma last_cons {A : Type} (a d : A) (l : list A) : last (a :: l) d = last l a.
Proof.
  revert a d; induction l as [|b l IH]; intros a d; [reflexivity|].
  change (last (a :: b :: l) d) with (last (b :: l) d). now rewrite !IH.
Qed.

Section Totals.
Context {U : UnicodeData}.

Lemma totals_line_update (st : totals) (line : str) :
  totals_line st line = Ok (totals_update st line).
Proof.
  destruct st as [[net tax] gross]. unfold totals_line, totals_update, category.
  destruct (is_net_line (lower line));
    [|destruct (is_tax_line (lower line)); [|destruct (is_gross_line (lower line))]];
    rewrite ?parse_amount_maybe_amount_of; simpl; try reflexivity;
    now destruct (amount_of line).
Qed.

Lemma amounts_in_cons (k : kind) (line : str) (lines : list str) :
  amounts_in k (line :: lines)
  = (if in_category k line
     then match amount_of line with Some a => [a] | None => [] end
     else [])
    ++ amounts_in k lines.
Proof. unfold amounts_in. simpl. now destruct (in_category k line). Qed.

Lemma totals_loop (lines : list str) (net tax gross : float) :
  fold_left totals_update lines (net, tax, gross)
  = (last (amounts_in Net lines) net, last (amounts_in Tax lines) tax,
     last (amounts_in Gross lines) gross).
Proof.
  revert net tax gross; induction lines as [|line lines IH]; intros net tax gross;
    [reflexivity|].
  rewrite !amounts_in_cons. simpl fold_left.
  unfold in_category, totals_update.
  destruct (category line) as [[| |]|]; destruct (amount_of line) as [a|];
    cbn [kind_eqb app]; rewrite IH, ?last_cons; reflexivity.
Qed.

Lemma _extract_totals_result (text : str) :
  _extract_totals text
  = Ok (gross_fallback (last_amount Net text, last_amount Tax text,
                        last_amount Gross text)).
Proof.
  unfold _extract_totals.
  rewrite (for_each_pure totals_line totals_update totals_line_update).
  simpl bind. now rewrite totals_loop.
Qed.

End Totals.

(** ** Groups of a match *)

Section Matching.
Context {U : UnicodeData}.
Variable text : str.

(** Matching never forgets a group. *)
Lemma rmatch_keeps (g : nat) (r : regex) :
  forall i caps j caps',
    In (j, caps') (rmatch text r i caps) ->
    span_of g caps <> None -> span_of g caps' <> None.
Proof.
  induction r as [p|p|p|r1 IH1|r1 IH1 r2 IH2|r1 IH1 r2 IH2|n r1 IH1| |];
    intros i caps j caps' Hin Hset; simpl in Hin.
  - destruct (nth_error text i) as [c|]; [|destruct Hin].
    destruct (p c); [|destruct Hin]. destruct Hin as [E|[]]. now injection E as _ <-.
  - apply in_map_iff in Hin as (x & E & _). now injection E as _ <-.
  - apply in_map_iff in Hin as (x & E & _). now injection E as _ <-.
  - apply in_app_or in Hin as [Hin|[E|[]]]; [now apply (IH1 _ _ _ _ Hin)|].
    now injection E as _ <-.
  - apply in_flat_map in Hin as ([k capsk] & H1 & H2). simpl in H2.
    apply (IH2 _ _ _ _ H2). now apply (IH1 _ _ _ _ H1).
  - apply in_app_or in Hin as [Hin|Hin]; [now apply (IH1 _ _ _ _ Hin)|now apply (IH2 _ _ _ _ Hin)].
  - apply in_map_iff in Hin as ([k capsk] & E & H1). simpl in E. injection E as _ <-.
    simpl. destruct (Nat.eqb n g); [discriminate|]. now apply (IH1 _ _ _ _ H1).
  - destruct (at_boundary text i); [|destruct Hin]. destruct Hin as [E|[]].
    now injection E as _ <-.
  - destruct Hin as [E|[]]. now injection E as _ <-.
Qed.

(** A group that takes part in every match of the pattern is set by every
    match. *)
Lemma rmatch_sets (g : nat) (r : regex) :
  sets g r = true ->
  forall i caps j caps',
    In (j, caps') (rmatch text r i caps) -> span_of g caps' <> None.
Proof.
  induction r as [p|p|p|r1 IH1|r1 IH1 r2 IH2|r1 IH1 r2 IH2|n r1 IH1| |];
    simpl; intros Hsets i caps j caps' Hin; try discriminate.
  - apply in_flat_map in Hin as ([k capsk] & H1 & H2). simpl in H2.
    apply orb_true_iff in Hsets as [Hsets|Hsets].
    + apply (rmatch_keeps g r2 _ _ _ _ H2). now apply (IH1 Hsets _ _ _ _ H1).
    + now apply (IH2 Hsets _ _ _ _ H2).
  - apply andb_true_iff in Hsets as [Hs1 Hs2].
    apply in_app_or in Hin as [Hin|Hin];
      [now apply (IH1 Hs1 _ _ _ _ Hin)|now apply (IH2 Hs2 _ _ _ _ Hin)].
  - apply in_map_iff in Hin as ([k capsk] & E & H1). simpl in E. injection E as _ <-.
    simpl. destruct (Nat.eqb n g) eqn:En; [discriminate|].
    simpl in Hsets. now apply (IH1 Hsets _ _ _ _ H1).
Qed.

Lemma search_sets (g : nat) (r : regex) (m : captures) :
  sets g r = true -> search text r = Some m ->
  exists s, group text m g = Some s.
Proof.
  intros Hsets. unfold search. generalize (seq 0 (S (length text))) as starts.
  induction starts as [|i starts IH]; simpl; [discriminate|].
  destruct (rmatch text r i []) as [|[j caps] rest] eqn:E; [exact IH|].
  intros H. injection H as <-. simpl.
  assert (span_of g caps <> None) as Hset.
  { apply (rmatch_sets g r Hsets i [] j caps). rewrite E. now left. }
  unfold group. destruct (span_of g caps) as [[a b]|]; [eauto|contradiction].
Qed.

(** [_search_first] does not raise on patterns whose group is always set. *)
Lemma _search_first_total (patterns : list regex) (g : nat) :
  forallb (sets g) patterns = true ->
  exists found, _search_first patterns text g = Ok found.
Proof.
  induction patterns as [|pat patterns IH]; simpl; intros Hsets; [eauto|].
  apply andb_true_iff in Hsets as [Hpat Hrest].
  destruct (search text pat) as [m|] eqn:E; [|now apply IH].
  destruct (search_sets g pat m Hpat E) as [s Hs].
  unfold group_stripped. rewrite Hs. simpl. eauto.
Qed.

Lemma _search_first_none (patterns : list regex) (g : nat) :
  (forall pat, In pat patterns -> search text pat = None) ->
  _search_first patterns text g = Ok None.
Proof.
  induction patterns as [|pat patterns IH]; simpl; intros Hnone; [reflexivity|].
  rewrite (Hnone pat (or_introl eq_refl)). apply IH. intros p Hp. apply Hnone. now right.
Qed.

Lemma optional_group_total (r : regex) (g : nat) :
  sets g r = true ->
  exists found,
    match search text r with
    | Some m => bind (group_stripped text m g) (fun s => Ok (Some s))
    | None => Ok None
    end = Ok found.
Proof.
  intros Hsets. destruct (search text r) as [m|] eqn:E; [|eauto].
  destruct (search_sets g r m Hsets E) as [s Hs].
  unfold group_stripped. rewrite Hs. simpl. eauto.
Qed.

(** The currency is one of the codes. *)
Lemma guess_from_In (codes : list string) :
  In (guess_from codes text) (u "INR" :: map u codes).
Proof.
  induction codes as [|code codes IH]; simpl; [now left|].
  destruct (search text (currency_pattern code)); [right; now left|].
  destruct IH as [IH|IH]; [now left|right; now right].
Qed.

End Matching.

(** ** Extraction *)

Section Extraction.
Context {U : UnicodeData} {P : DateParser}.

(** An invoice is produced for every text as soon as the parser reads the
    default date; its fields are the matches found, or their defaults. *)
Lemma parse_invoice_from_text_result (text source : str) (d0 : date) :
  parse_date_maybe (u "2000-01-01") = Ok (Some d0) ->
  exists number seller buyer inv,
    _search_first INVOICE_NO_PATTERNS text 1 = Ok number
    /\ _search_first SELLER_PATTERNS text 1 = Ok seller
    /\ _search_first BUYER_PATTERNS text 1 = Ok buyer
    /\ parse_invoice_from_text text source = Ok inv
    /\ source_file inv = source
    /\ invoice_number inv = or_str number (u "UNKNOWN")
    /\ seller_name inv = or_str seller (u "UNKNOWN_SELLER")
    /\ buyer_name inv = or_str buyer (u "UNKNOWN_BUYER")
    /\ currency inv = _guess_currency text
    /\ line_items inv = [].
Proof.
  intros Hdefault. unfold parse_invoice_from_text.
  destruct (_search_first_total text INVOICE_NO_PATTERNS 1 eq_refl) as [number Hnumber].
  destruct (_search_first_total text INVOICE_DATE_PATTERNS 1 eq_refl) as [rawdate Hrawdate].
  destruct (_search_first_total text DUE_DATE_PATTERNS 1 eq_refl) as [rawdue Hrawdue].
  destruct (_search_first_total text SELLER_PATTERNS 1 eq_refl) as [seller Hseller].
  destruct (_search_first_total text BUYER_PATTERNS 1 eq_refl) as [buyer Hbuyer].
  destruct (optional_group_total text TAX_ID_PATTERN 2 eq_refl) as [taxid Htaxid].
  destruct (optional_group_total text PAYMENT_TERMS_PATTERN 1 eq_refl) as [terms Hterms].
  exists number, seller, buyer.
  rewrite Hnumber, Hrawdate, Hrawdue, Hseller, Hbuyer, Htaxid, Hterms.
  rewrite _extract_totals_result. cbn [bind]. rewrite Hdefault.
  rewrite (parse_date_maybe_result (or_str rawdate [])).
  rewrite (parse_date_maybe_result (or_str rawdue [])).
  cbn [bind].
  match goal with
  | |- context [bind (match ?parsed with Some d => Ok (Some d) | None => _ end) _] =>
      destruct parsed as [d1|]
  end; cbn [bind]; destruct (gross_fallback _) as [[net tax] gross];
  eexists; repeat split.
Qed.

(** Every field of an extracted invoice comes from the text: in
    particular its currency is the guessed one. *)
Lemma parse_invoice_from_text_currency (text source : str) (inv : Invoice) :
  parse_invoice_from_text text source = Ok inv -> currency inv = _guess_currency text.
Proof.
  unfold parse_invoice_from_text.
  repeat match goal with
         | |- bind ?m _ = Ok _ -> _ => destruct m; cbn [bind]; [|discriminate]
         | |- context [let '(_, _) := ?t in _] => destruct t as [[? ?] ?]
         end.
  match goal with |- match ?d with _ => _ end = _ -> _ => destruct d end;
    [|discriminate].
  intros H. injection H as <-. reflexivity.
Qed.

End Extraction.

(** ** Extracted invoices under the per-record checks *)

Lemma default_date {P : DateParser} :
  agrees_with_dateutil P ->
  parse_date_maybe (u "2000-01-01")
  = Ok (Some {| year := 2000; month := 1; day := 1 |}).
Proof.
  intros Hagrees. rewrite parse_date_maybe_result.
  change (strip (u "2000-01-01")) with (u "2000-01-01").
  cbv beta iota delta [u list_ascii_of_string map].
  erewrite Hagrees by (vm_compute; reflexivity). reflexivity.
Qed.

Lemma no_invalid_currency (inv : Invoice) (e : str) :
  str_in (currency inv) ALLOWED_CURRENCIES = true ->
  In e (record_errors inv) -> prefixb (u "invalid_currency") e = false.
Proof.
  intros Hallowed He. apply record_errors_tags in He as [He|[_ He]]; [|congruence].
  simpl in He. repeat (destruct He as [<-|He]; [reflexivity|]). destruct He.
Qed.

Lemma no_missing_field (inv : Invoice) (e : str) :
  blank (invoice_number inv) = false ->
  blank (seller_name inv) = false ->
  blank (buyer_name inv) = false ->
  In e (record_errors inv) -> prefixb (u "missing_field") e = false.
Proof.
  intros Hnumber Hseller Hbuyer.
  unfold record_errors, _check_completeness, _check_business_rules, when.
  rewrite Hnumber, Hseller, Hbuyer. rewrite !in_app_iff.
  intros H.
  repeat match type of H with
         | _ \/ _ => destruct H as [H|H]
         end;
  repeat match type of H with
         | In _ (if ?b then _ else _) => destruct b eqn:?
         | In _ (match ?l with [] => _ | _ => _ end) => destruct l
         | In _ [_] => destruct H as [<-|[]]
         | In _ [] => destruct H
         end;
  reflexivity.
Qed.

End ExtractorFacts.

(* ===================================================================== *)
(** * Facts about validation in a state                                   *)
(* ===================================================================== *)

Module SessionFacts.
Import Py PyFacts Datetime Schema Validator Spec ValidatorFacts.

(** The checks load and do not store. *)
Lemma _check_completeness_frame (inv : Invoice) (w : Session.world) :
  exists errors, Session._check_completeness inv w = (Ok errors, w).
Proof.
  unfold Session._check_completeness, Session.bind, Session.load_ALLOWED_CURRENCIES,
    Session.ret.
  eexists. reflexivity.
Qed.

Lemma _check_business_rules_frame (inv : Invoice) (w : Session.world) :
  exists errors, Session._check_business_rules inv w = (Ok errors, w).
Proof.
  unfold Session._check_business_rules, Session.bind, Session.load_EPSILON,
    Session.ret.
  destruct (line_items inv); eexists; reflexivity.
Qed.

Lemma check_invoice_frame (st : validation_state) (inv : Invoice) (w : Session.world) :
  exists st',
    Session.check_invoice st inv w = (Ok st', w)
    /\ length (fst st') = S (length (fst st)).
Proof.
  destruct st as [rs c]. unfold Session.check_invoice.
  destruct (_check_completeness_frame inv w) as [e1 H1].
  destruct (_check_business_rules_frame inv w) as [e2 H2].
  unfold Session.bind at 1. rewrite H1.
  unfold Session.bind at 1. rewrite H2.
  eexists. split; [reflexivity |].
  cbn [fst]. rewrite length_app. simpl. lia.
Qed.

Lemma check_loop_frame (invs : list Invoice) :
  forall (st : validation_state) (w : Session.world),
  exists st',
    Session.for_each Session.check_invoice invs st w = (Ok st', w)
    /\ length (fst st') = length (fst st) + length invs.
Proof.
  induction invs as [|inv invs IH]; intros st w.
  - exists st. split; [reflexivity | simpl; lia].
  - destruct (check_invoice_frame st inv w) as (st1 & H1 & L1).
    destruct (IH st1 w) as (st2 & H2 & L2).
    exists st2. split.
    + cbn [Session.for_each]. unfold Session.bind. now rewrite H1.
    + rewrite L2, L1. simpl. lia.
Qed.

(** A call returns a report and leaves the state as it found it. *)
Lemma validate_invoices_frame (w : Session.world) :
  exists rep, Session.validate_invoices w = (Ok rep, w).
Proof.
  destruct (check_loop_frame (Session.invoices_cell w) ([], []) w)
    as ([rs c] & Hloop & Hlen).
  cbn [fst length Nat.add] in Hlen.
  destruct (mark_loop
              (concat (map snd (_check_duplicates (Session.invoices_cell w)))) rs c)
    as (rs' & c' & Hmark & _).
  { intros i Hi. rewrite Hlen. now apply duplicates_in_range. }
  rewrite <- for_each_concat in Hmark.
  unfold Session.validate_invoices.
  unfold Session.bind at 1. unfold Session.load_invoices at 1. cbv beta iota.
  unfold Session.bind at 1. rewrite Hloop.
  unfold Session.bind at 1. unfold Session._check_duplicates, Session.bind at 1.
  unfold Session.load_invoices at 1. cbv beta iota.
  unfold Session.ret at 1.
  unfold Session.bind at 1, Session.lift.
  change (filter (fun kv : str * list nat => (1 <? length (snd kv))%nat)
            (key_to_indices (Session.invoices_cell w)))
    with (_check_duplicates (Session.invoices_cell w)).
  rewrite Hmark.
  eexists. reflexivity.
Qed.

(** With the module as the import leaves it, the checks are those of
    module [Validator]. *)
Lemma _check_completeness_loaded (inv : Invoice) (invs : list Invoice) :
  Session._check_completeness inv (Session.loaded invs)
  = (Ok (_check_completeness inv), Session.loaded invs).
Proof.
  unfold Session._check_completeness, Session.bind, Session.load_ALLOWED_CURRENCIES,
    Session.ret, _check_completeness.
  cbn [Session.loaded Session.ALLOWED_CURRENCIES_cell].
  now rewrite <- !app_assoc.
Qed.

Lemma _check_business_rules_loaded (inv : Invoice) (invs : list Invoice) :
  Session._check_business_rules inv (Session.loaded invs)
  = (Ok (_check_business_rules inv), Session.loaded invs).
Proof.
  unfold Session._check_business_rules, Session.bind, Session.load_EPSILON,
    Session.ret, _check_business_rules, totals_mismatch.
  cbn [Session.loaded Session.EPSILON_cell].
  destruct (line_items inv).
  - now rewrite app_nil_r.
  - now rewrite <- !app_assoc.
Qed.

Lemma check_loop_loaded (batch invs : list Invoice) (st : validation_state) :
  Session.for_each Session.check_invoice invs st (Session.loaded batch)
  = (Ok (fold_left check_invoice invs st), Session.loaded batch).
Proof.
  revert st. induction invs as [|inv invs IH]; intros [rs c]; [reflexivity |].
  cbn [Session.for_each fold_left]. unfold Session.bind at 1.
  unfold Session.check_invoice.
  unfold Session.bind at 1. rewrite _check_completeness_loaded.
  unfold Session.bind at 1. rewrite _check_business_rules_loaded.
  unfold Session.ret at 1. apply IH.
Qed.

Lemma validate_invoices_loaded (invs : list Invoice) :
  Session.validate_invoices (Session.loaded invs)
  = (validate_invoices invs, Session.loaded invs).
Proof.
  unfold Session.validate_invoices, validate_invoices.
  unfold Session.bind at 1. unfold Session.load_invoices at 1. cbv beta iota.
  cbn [Session.loaded Session.invoices_cell].
  change {| Session.EPSILON_cell := EPSILON;
            Session.ALLOWED_CURRENCIES_cell := ALLOWED_CURRENCIES;
            Session.invoices_cell := invs |} with (Session.loaded invs).
  unfold Session.bind at 1. rewrite check_loop_loaded.
  unfold Session.bind at 1. unfold Session._check_duplicates, Session.bind at 1.
  unfold Session.load_invoices at 1. cbv beta iota.
  unfold Session.ret at 1.
  unfold Session.bind at 1, Session.lift.
  cbn [Session.loaded Session.invoices_cell].
  change (filter (fun kv : str * list nat => (1 <? length (snd kv))%nat)
            (key_to_indices invs))
    with (_check_duplicates invs).
  destruct (for_each _ (_check_duplicates invs) (fold_left check_invoice invs ([], [])))
    as [[rs c]|e]; reflexivity.
Qed.

(** Not every function in a state is like that: one that empties the list
    it is given tells two invoices at the first call and none at the
    second. *)
Example drain_carries_state :
  Session.twice Session.drain (Session.loaded twin_batch)
  = (Ok (2, 0), Session.loaded []).
Proof. reflexivity. Qed.

End SessionFacts.

(* ===================================================================== *)
(** * The embedding at work                                               *)
(* ===================================================================== *)

Module Examples.
Import Py Datetime Dateutil Utils Schema Re Extractor Validator Spec.

Example amounts_read {U : UnicodeData} :
  map parse_amount_maybe [u "1,234.50"; u "1 234,50"; u "Total: 118.00"; u "n/a"]
  = [Ok (Some 1234.5%float); Ok (Some 1234.5%float); Ok (Some 118%float); Ok None].
Proof. vm_compute. reflexivity. Qed.

Example dates_read :
  map (@parse_date_maybe numeric_only) [u "10/01/2024"; u " 31.12.1999 "; u "2000-01-01"]
  = [Ok (Some {| year := 2024; month := 1; day := 10 |});
     Ok (Some {| year := 1999; month := 12; day := 31 |});
     Ok (Some {| year := 2000; month := 1; day := 1 |})].
Proof. vm_compute. reflexivity. Qed.

Example key_of_sample :
  duplicate_key (sample_invoice "a.pdf" "INV-1" "ACME") = u "INV-1::ACME::2024-01-10".
Proof. vm_compute. reflexivity. Qed.

Example sample_extracted :
  @parse_invoice_from_text ascii_only numeric_only sample_text (u "a.pdf")
  = Ok {| source_file := u "a.pdf";
          invoice_number := u "UNKNOWN";
          invoice_date := {| year := 2024; month := 1; day := 10 |};
          due_date := None;
          seller_name := u "ACME Ltd";
          seller_tax_id := None;
          buyer_name := u "Bob";
          buyer_tax_id := None;
          currency := u "USD";
          net_total := 100%float;
          tax_amount := 18%float;
          gross_total := 118%float;
          payment_terms := Some (u "30 days");
          line_items := [] |}.
Proof. vm_compute. reflexivity. Qed.

(** [_search_first] returns group 1 of the pattern that matches; in the
    first invoice-number pattern group 1 is the alternative after
    ["Invoice"], the number itself being group 2. *)
Example invoice_number_group :
  @_search_first ascii_only INVOICE_NO_PATTERNS (u "Invoice No: A-17") 1
  = Ok (Some (u "No"))
  /\ @_search_first ascii_only INVOICE_NO_PATTERNS (u "Inv #: A-17") 1
     = Ok (Some (u "A-17")).
Proof. split; vm_compute; reflexivity. Qed.

Example three_validated :
  exists rep,
    validate_invoices three_batch = Ok rep
    /\ map errors (results rep) = [[DUPLICATE]; [DUPLICATE]; []]
    /\ total_invoices (summary rep) = 3%Z
    /\ error_counts (summary rep) = [(DUPLICATE, 2%Z)].
Proof. vm_compute. eexists. repeat split. Qed.

(** Keys are compared as they are: a seller name in another case is
    another key. *)
Example case_matters :
  exists rep,
    validate_invoices [sample_invoice "a.pdf" "INV-1" "ACME";
                       sample_invoice "b.pdf" "INV-1" "Acme"] = Ok rep
    /\ map errors (results rep) = [[]; []].
Proof. vm_compute. eexists. repeat split. Qed.

Example empty_batch :
  validate_invoices []
  = Ok {| summary := {| total_invoices := 0; valid_invoices := 0;
                        invalid_invoices := 0; error_counts := [] |};
          results := [] |}.
Proof. reflexivity. Qed.

End Examples.

(* ===================================================================== *)
(** * Properties of the scalar parsers, the extractor and the validator   *)
(* ===================================================================== *)

Module Properties.
Import Py Datetime Dateutil Utils Schema Re Extractor Validator Spec.
Import PyFacts ValidatorFacts UtilsFacts ExtractorFacts.

(** ** Scalar parsers and extraction *)

(** C2. [parse_amount_maybe] on ["1.234,50"]: both separators are present,
    the commas are dropped and [float("1.23450")] is returned, that is
    1.2345 and not 1234.50. *)
Theorem parse_amount_point_grouped {U : UnicodeData} :
  parse_amount_maybe (u "1.234,50") = Ok (Some 1.2345%float)
  /\ PrimFloat.eqb 1.2345 1234.5 = false.
Proof. split; vm_compute; reflexivity. Qed.

(** The two other amounts of the same sentence are read as expected, the
    rupee sign not being a decimal digit. *)
Lemma parse_amount_rupee {U : UnicodeData} :
  ucd_decimal 8377%N = None ->
  parse_amount_maybe (8377%N :: u " 1,234.50") = Ok (Some 1234.5%float).
Proof.
  intros Hrupee.
  assert (keep_amount_chars (8377%N :: u " 1,234.50") = u "1,234.50") as Hkept.
  { unfold keep_amount_chars.
    change (filter ?f (8377%N :: ?s))
      with (if f 8377%N then 8377%N :: filter f s else filter f s).
    cbv beta. unfold isdecimal at 1, decimal at 1.
    change (8377 <? 128)%N with false. cbv iota. rewrite Hrupee.
    vm_compute. reflexivity. }
  unfold parse_amount_maybe. rewrite Hkept. vm_compute. reflexivity.
Qed.

Lemma parse_amount_empty {U : UnicodeData} : parse_amount_maybe (u "") = Ok None.
Proof. reflexivity. Qed.

(** C3, as stated, fails. In the text of the two lines ["Subtotal 100"] and
    ["Subtotal"], both lines are net lines and the last one has no amount;
    net is 100, the amount of the first line, and not 0.  (The text is
    ASCII: the Unicode tables play no part.) *)
Lemma earlier_amount_survives :
  @_extract_totals ascii_only (u "Subtotal 100" ++ newline ++ u "Subtotal")
  = Ok (100, 0, 100)%float
  /\ map (@category ascii_only) [u "Subtotal 100"; u "Subtotal"]
     = [Some Net; Some Net]
  /\ @parse_amount_maybe ascii_only (u "Subtotal") = Ok None
  /\ @last_line_amount ascii_only Net (u "Subtotal 100" ++ newline ++ u "Subtotal")
     = 0%float
  /\ ~ (forall (U : UnicodeData) (text : str), last_line_decides text).
Proof.
  repeat (split; [vm_compute; reflexivity|]).
  intros H.
  specialize (H ascii_only (u "Subtotal 100" ++ newline ++ u "Subtotal")).
  unfold last_line_decides in H.
  apply (f_equal (fun r => match r with
                           | Ok (net, _, _) => PrimFloat.eqb net 100
                           | Raise _ => false
                           end)) in H.
  vm_compute in H. discriminate H.
Qed.

(** C3, amended. For every text, [_extract_totals] returns the totals in
    which net and tax are each the amount of the last line of their
    category that has an amount (0 when none has: a line without an amount
    leaves the value as it was), and gross is obtained in the same way
    and then replaced by net + tax when it is 0 while net or tax is
    positive. *)
Theorem extract_totals_last_amount {U : UnicodeData} (text : str) :
  _extract_totals text
  = Ok (gross_fallback (last_amount Net text, last_amount Tax text,
                        last_amount Gross text)).
Proof.
  unfold _extract_totals.
  (* the body of the loop never raises: the loop is a fold *)
  rewrite (for_each_pure totals_line totals_update totals_line_update).
  simpl bind.
  (* the fold keeps, per category, the last amount read *)
  rewrite totals_loop. reflexivity.
Qed.

(** C4. With [dayfirst=True], ["10/01/2024"] is the 10th of January 2024,
    for every parser that agrees with dateutil on numeric dates. *)
Theorem parse_date_day_first {P : DateParser} :
  agrees_with_dateutil P ->
  parse_date_maybe (u "10/01/2024")
  = Ok (Some {| year := 2024; month := 1; day := 10 |})
  /\ parse_date_maybe (u "10/01/2024")
     <> Ok (Some {| year := 2024; month := 10; day := 1 |}).
Proof.
  intros Hagrees.
  assert (parse_date_maybe (u "10/01/2024")
          = Ok (Some {| year := 2024; month := 1; day := 10 |})) as E.
  { rewrite parse_date_maybe_result.
    change (strip (u "10/01/2024")) with (u "10/01/2024").
    cbv beta iota delta [u list_ascii_of_string map].
    erewrite Hagrees by (vm_compute; reflexivity). reflexivity. }
  split; [exact E|]. rewrite E. discriminate.
Qed.

(** The embedded part of dateutil, taken as the parser. *)
Lemma parse_date_day_first_witness :
  agrees_with_dateutil numeric_only
  /\ @parse_date_maybe numeric_only (u "10/01/2024")
     = Ok (Some {| year := 2024; month := 1; day := 10 |}).
Proof.
  assert (agrees_with_dateutil numeric_only) as Hagrees.
  { intros s dayfirst r H.
    change (match numeric_date s dayfirst with
            | Some r' => r'
            | None => Raise ParserError
            end = r).
    rewrite H. reflexivity. }
  split; [exact Hagrees|].
  exact (proj1 (@parse_date_day_first numeric_only Hagrees)).
Defined.

(** C9. The scalar parsers never raise.  [parse_date_maybe] returns [None]
    for a blank string and when the parser raises, whatever it raises, and
    the date otherwise; [parse_amount_maybe] returns [None] when nothing is
    left after cleaning and when [float] rejects what is left, and the
    amount otherwise. *)
Theorem scalar_parsers_total {U : UnicodeData} {P : DateParser} (value : str) :
  parse_date_maybe value
  = Ok (match strip value with
        | [] => None
        | stripped =>
            match date_parser_parse stripped true with
            | Ok dt => Some (dt_date dt)
            | Raise _ => None
            end
        end)
  /\ parse_amount_maybe value
     = Ok (match strip (keep_amount_chars value) with
           | [] => None
           | cleaned =>
               match py_float (normalize_separators cleaned) with
               | Ok x => Some x
               | Raise _ => None
               end
           end)
  /\ parse_date_maybe (u "") = Ok None
  /\ parse_amount_maybe (u "") = Ok None.
Proof.
  split; [|split; [|split; reflexivity]].
  - (* [except Exception] catches whatever the parser raises *)
    unfold parse_date_maybe. destruct (strip value) as [|c s]; [reflexivity|].
    destruct (date_parser_parse (c :: s) true) as [dt|e]; reflexivity.
  - (* [float] raises [ValueError] only, which is caught *)
    unfold parse_amount_maybe.
    destruct (strip (keep_amount_chars value)) as [|c s]; [reflexivity|].
    destruct (py_float (normalize_separators (c :: s))) as [x|e] eqn:E;
      [reflexivity|].
    apply py_float_raises in E. subst e. reflexivity.
Qed.

(** C7. When none of the patterns for the invoice number, the seller and
    the buyer matches the text, extraction returns an invoice with the
    three placeholders, and validating it gives no [missing_field] tag. *)
Theorem unmatched_fields_get_placeholders {U : UnicodeData} {P : DateParser}
  (text source : str) :
  agrees_with_dateutil P ->
  (forall pat,
      In pat (INVOICE_NO_PATTERNS ++ SELLER_PATTERNS ++ BUYER_PATTERNS) ->
      search text pat = None) ->
  exists inv rep,
    parse_invoice_from_text text source = Ok inv
    /\ invoice_number inv = u "UNKNOWN"
    /\ seller_name inv = u "UNKNOWN_SELLER"
    /\ buyer_name inv = u "UNKNOWN_BUYER"
    /\ (forall e, In e (_check_completeness inv) -> prefixb (u "missing_field") e = false)
    /\ validate_invoices [inv] = Ok rep
    /\ (forall r e, In r (results rep) -> In e (errors r) ->
                    prefixb (u "missing_field") e = false).
Proof.
  intros Hagrees Hnone.
  destruct (parse_invoice_from_text_result text source _ (default_date Hagrees))
    as (number & seller & buyer & inv & Hnumber & Hseller & Hbuyer & Hinv
        & _ & Einv & Eseller & Ebuyer & _).
  rewrite _search_first_none in Hnumber
    by (intros pat Hpat; apply Hnone; apply in_or_app; now left).
  rewrite _search_first_none in Hseller
    by (intros pat Hpat; apply Hnone; apply in_or_app; right; apply in_or_app; now left).
  rewrite _search_first_none in Hbuyer
    by (intros pat Hpat; apply Hnone; apply in_or_app; right; apply in_or_app; now right).
  injection Hnumber as <-. injection Hseller as <-. injection Hbuyer as <-.
  simpl or_str in Einv, Eseller, Ebuyer.
  destruct (validate_invoices_report [inv]) as (rep & Hrun & Hres & _).
  assert (forall e, In e (record_errors inv) -> prefixb (u "missing_field") e = false)
    as Hrecord.
  { intros e. apply no_missing_field;
      [rewrite Einv|rewrite Eseller|rewrite Ebuyer]; reflexivity. }
  exists inv, rep. repeat (split; [assumption|]). split; [|split; [assumption|]].
  - intros e He. apply Hrecord. unfold record_errors. apply in_or_app. now left.
  - intros r e Hr He. rewrite Hres in Hr. destruct Hr as [<-|[]]. simpl in He.
    apply in_app_or in He as [He|He]; [now apply Hrecord|].
    destruct (is_duplicate [inv] inv); [|destruct He].
    destruct He as [<-|[]]. reflexivity.
Qed.

(** A text without any of the labels. *)
Lemma unmatched_fields_get_placeholders_witness :
  exists inv,
    @parse_invoice_from_text ascii_only numeric_only (u "hello world") (u "a.pdf")
    = Ok inv
    /\ invoice_number inv = u "UNKNOWN"
    /\ seller_name inv = u "UNKNOWN_SELLER"
    /\ buyer_name inv = u "UNKNOWN_BUYER"
    /\ forall e, In e (_check_completeness inv) -> prefixb (u "missing_field") e = false.
Proof.
  assert (agrees_with_dateutil numeric_only) as Hagrees.
  { intros s dayfirst r H.
    change (match numeric_date s dayfirst with
            | Some r' => r'
            | None => Raise ParserError
            end = r).
    rewrite H. reflexivity. }
  destruct (@unmatched_fields_get_placeholders ascii_only numeric_only
              (u "hello world") (u "a.pdf") Hagrees)
    as (inv & rep & Hinv & Hnumber & Hseller & Hbuyer & Hcheck & _).
  - intros pat Hpat. simpl in Hpat.
    repeat (destruct Hpat as [<-|Hpat]; [vm_compute; reflexivity|]). destruct Hpat.
  - exists inv. repeat (split; [assumption|]). exact Hcheck.
Defined.

(** C10. For every text the guessed currency is one of INR, EUR, USD and
    GBP, the allowed currencies; an invoice returned by the extractor
    therefore gets no [invalid_currency] tag from the per-record checks;
    and the extractor returns an invoice for every text as soon as the
    date parser agrees with dateutil on numeric dates. *)
Theorem extracted_currency_allowed {U : UnicodeData} {P : DateParser}
  (text source : str) :
  In (_guess_currency text) [u "INR"; u "EUR"; u "USD"; u "GBP"]
  /\ str_in (_guess_currency text) ALLOWED_CURRENCIES = true
  /\ (forall inv,
        parse_invoice_from_text text source = Ok inv ->
        currency inv = _guess_currency text
        /\ forall e, In e (record_errors inv) ->
                     prefixb (u "invalid_currency") e = false)
  /\ (agrees_with_dateutil P ->
      exists inv, parse_invoice_from_text text source = Ok inv).
Proof.
  assert (In (_guess_currency text) [u "INR"; u "EUR"; u "USD"; u "GBP"]) as Hin.
  { destruct (guess_from_In text CURRENCY_CODES) as [H|H]; [left; exact H|exact H]. }
  assert (str_in (_guess_currency text) ALLOWED_CURRENCIES = true) as Hallowed.
  { simpl in Hin. repeat (destruct Hin as [<-|Hin]; [reflexivity|]). destruct Hin. }
  split; [exact Hin|]. split; [exact Hallowed|]. split.
  - intros inv Hinv. apply parse_invoice_from_text_currency in Hinv.
    split; [exact Hinv|]. intros e. apply no_invalid_currency. now rewrite Hinv.
  - intros Hagrees.
    destruct (parse_invoice_from_text_result text source _ (default_date Hagrees))
      as (_ & _ & _ & inv & _ & _ & _ & Hinv & _). now exists inv.
Qed.

(** A text that names a currency. *)
Lemma extracted_currency_allowed_witness :
  exists inv,
    @parse_invoice_from_text ascii_only numeric_only
       (u "Invoice No: 7 Total USD 118.00") (u "a.pdf") = Ok inv
    /\ currency inv = u "USD"
    /\ forall e, In e (record_errors inv) -> prefixb (u "invalid_currency") e = false.
Proof.
  assert (agrees_with_dateutil numeric_only) as Hagrees.
  { intros s dayfirst r H.
    change (match numeric_date s dayfirst with
            | Some r' => r'
            | None => Raise ParserError
            end = r).
    rewrite H. reflexivity. }
  destruct (@extracted_currency_allowed ascii_only numeric_only
              (u "Invoice No: 7 Total USD 118.00") (u "a.pdf"))
    as (_ & _ & Hchecked & Hreturns).
  destruct (Hreturns Hagrees) as [inv Hinv].
  destruct (Hchecked inv Hinv) as [Hcurrency Hnone].
  exists inv. split; [exact Hinv|]. split; [|exact Hnone].
  rewrite Hcurrency. vm_compute. reflexivity.
Defined.

(** ** Validation *)

(** C1. [validate_invoices] on two copies of an otherwise clean invoice:
    both entries receive the duplicate tag, so their error lists are not
    empty, and both keep [is_valid = true]; the summary counts them as
    valid.  The flag is computed before the duplicate tags are appended and
    is not updated afterwards. *)
Theorem duplicate_only_entries_stay_valid :
  exists rep,
    validate_invoices twin_batch = Ok rep
    /\ map is_valid (results rep) = [true; true]
    /\ map errors (results rep) = [[DUPLICATE]; [DUPLICATE]]
    /\ valid_invoices (summary rep) = 2%Z
    /\ invalid_invoices (summary rep) = 0%Z.
Proof. vm_compute. eexists. repeat split. Qed.

(** C5. The totals check with net 100 and tax 18: no mismatch tag for a
    gross total of 118.03; for 118.10 the mismatch tag, first and once, and
    nothing else but possibly the line-items tag.  In general the tag is
    emitted exactly when [abs ((net + tax) - gross) > EPSILON] in binary64
    arithmetic, [EPSILON] being 0.05. *)
Theorem totals_mismatch_tolerance :
  (forall inv,
      ~ In TOTALS_MISMATCH
           (_check_business_rules (with_totals inv 100 18 118.03)))
  /\ (forall inv,
        exists rest,
          _check_business_rules (with_totals inv 100 18 118.10)
          = TOTALS_MISMATCH :: rest
          /\ (rest = []
              \/ rest = [u "business_rule_failed: line_items_sum_ne_net_total"]))
  /\ (forall inv,
        In TOTALS_MISMATCH (_check_business_rules inv)
        <-> PrimFloat.ltb 0.05
              (abs (PrimFloat.sub (PrimFloat.add (net_total inv) (tax_amount inv))
                                  (gross_total inv))) = true).
Proof.
  split; [|split].
  - intros inv. unfold _check_business_rules, when.
    replace (totals_mismatch (with_totals inv 100 18 118.03)) with false
      by (vm_compute; reflexivity).
    cbn [with_totals net_total tax_amount gross_total line_items].
    replace (PrimFloat.ltb 100 zero || PrimFloat.ltb 18 zero || PrimFloat.ltb 118.03 zero)
      with false by (vm_compute; reflexivity).
    simpl app.
    destruct (line_items inv); [intros []|].
    destruct (PrimFloat.ltb _ _); [|intros []].
    intros [H|[]]. discriminate H.
  - intros inv. unfold _check_business_rules, when.
    replace (totals_mismatch (with_totals inv 100 18 118.10)) with true
      by (vm_compute; reflexivity).
    cbn [with_totals net_total tax_amount gross_total line_items].
    replace (PrimFloat.ltb 100 zero || PrimFloat.ltb 18 zero || PrimFloat.ltb 118.10 zero)
      with false by (vm_compute; reflexivity).
    simpl app. eexists. split; [reflexivity|].
    destruct (line_items inv); [now left|].
    destruct (PrimFloat.ltb _ _); [now right|now left].
  - intros inv. unfold _check_business_rules, when.
    change (PrimFloat.ltb 0.05 (abs (PrimFloat.sub (PrimFloat.add (net_total inv) (tax_amount inv)) (gross_total inv))))
      with (totals_mismatch inv).
    rewrite !in_app_iff. split.
    + intros [H|[H|H]].
      * destruct (totals_mismatch inv); [reflexivity|destruct H].
      * destruct (_ || _); [destruct H as [H|[]]; discriminate H|destruct H].
      * destruct (line_items inv); [destruct H|].
        destruct (PrimFloat.ltb _ _); [destruct H as [H|[]]; discriminate H|destruct H].
    + intros ->. left. now left.
Qed.

(** The two totals on a sample invoice. *)
Lemma totals_mismatch_tolerance_witness :
  ~ In TOTALS_MISMATCH
       (_check_business_rules
          (with_totals (sample_invoice "a.pdf" "INV-1" "ACME") 100 18 118.03))
  /\ In TOTALS_MISMATCH
        (_check_business_rules
           (with_totals (sample_invoice "a.pdf" "INV-1" "ACME") 100 18 118.10)).
Proof.
  destruct totals_mismatch_tolerance as (Hwithin & _ & Hiff).
  split; [apply Hwithin|]. apply Hiff. vm_compute. reflexivity.
Defined.

(** C6, as stated, fails. In [collision_batch] the first two invoices have
    the same number, seller and date and different source files, the third
    has another invoice number, and all three are tagged as duplicates:
    number ["A::B"] with seller ["C"] gives the same key as number ["A"]
    with seller ["B::C"]. *)
Lemma third_invoice_tagged_on_key_collision :
  map invoice_number collision_batch = [u "A"; u "A"; u "A::B"]
  /\ map seller_name collision_batch = [u "B::C"; u "B::C"; u "C"]
  /\ map source_file collision_batch = [u "a.pdf"; u "b.pdf"; u "c.pdf"]
  /\ map duplicate_key collision_batch
     = [u "A::B::C::2024-01-10"; u "A::B::C::2024-01-10"; u "A::B::C::2024-01-10"]
  /\ (exists rep,
        validate_invoices collision_batch = Ok rep
        /\ map errors (results rep) = [[DUPLICATE]; [DUPLICATE]; [DUPLICATE]])
  /\ ~ third_invoice_unaffected.
Proof.
  repeat (split; [vm_compute; reflexivity|]).
  split; [vm_compute; eexists; split; reflexivity|].
  intros H.
  epose proof (H (sample_invoice "a.pdf" "A" "B::C")
                 (sample_invoice "b.pdf" "A" "B::C")
                 (sample_invoice "c.pdf" "A::B" "C") _
                 eq_refl eq_refl eq_refl _ _ eq_refl) as H'.
  vm_compute in H'. destruct H' as (_ & _ & H'). apply H'. now left.
  Unshelve. all: vm_compute; discriminate.
Qed.

(** C6, amended. For every batch, [validate_invoices] returns a report in
    which two invoices at different positions with the same invoice number,
    seller name and invoice date (whatever their source files) both have
    the duplicate tag appended to their per-record errors, and an invoice
    whose key [invoice_number::seller_name::ISO date] differs, as a string,
    from the key of every other invoice has its per-record errors alone,
    which never contain the duplicate tag.  A different invoice number is
    enough for that when no invoice number of the batch contains a colon. *)
Theorem duplicates_tagged_by_key (invs : list Invoice) :
  exists rep,
    validate_invoices invs = Ok rep
    /\ (forall i j a b,
          i <> j -> nth_error invs i = Some a -> nth_error invs j = Some b ->
          invoice_number a = invoice_number b ->
          seller_name a = seller_name b ->
          invoice_date a = invoice_date b ->
          option_map errors (nth_error (results rep) i)
          = Some (record_errors a ++ [DUPLICATE])
          /\ option_map errors (nth_error (results rep) j)
             = Some (record_errors b ++ [DUPLICATE]))
    /\ (forall k c,
          nth_error invs k = Some c ->
          (forall j b, j <> k -> nth_error invs j = Some b ->
                       duplicate_key b <> duplicate_key c) ->
          option_map errors (nth_error (results rep) k) = Some (record_errors c)
          /\ ~ In DUPLICATE (record_errors c))
    /\ (forall k c,
          nth_error invs k = Some c ->
          (forall b, In b invs -> ~ In 58%N (invoice_number b)) ->
          (forall j b, j <> k -> nth_error invs j = Some b ->
                       invoice_number b <> invoice_number c) ->
          option_map errors (nth_error (results rep) k) = Some (record_errors c)
          /\ ~ In DUPLICATE (record_errors c)).
Proof.
  destruct (validate_invoices_report invs) as (rep & Hrun & Hres & _).
  assert (forall k c,
             nth_error invs k = Some c ->
             (forall j b, j <> k -> nth_error invs j = Some b ->
                          duplicate_key b <> duplicate_key c) ->
             option_map errors (nth_error (results rep) k) = Some (record_errors c)
             /\ ~ In DUPLICATE (record_errors c)) as Hunique.
  { intros k c Hc Hothers.
    rewrite (entry_at invs rep k c Hres Hc). simpl.
    rewrite (is_duplicate_of_unique invs k c Hc Hothers), app_nil_r.
    split; [reflexivity | apply record_errors_not_duplicate]. }
  exists rep. split; [exact Hrun|]. split; [|split; [exact Hunique|]].
  - intros i j a b Hne Ha Hb Hnum Hseller Hdate.
    assert (duplicate_key a = duplicate_key b) as Hkey
        by (unfold duplicate_key; now rewrite Hnum, Hseller, Hdate).
    rewrite (entry_at invs rep i a Hres Ha), (entry_at invs rep j b Hres Hb). simpl.
    rewrite (is_duplicate_of_pair invs i j a b Hne Ha Hb Hkey).
    rewrite (is_duplicate_of_pair invs j i b a (not_eq_sym Hne) Hb Ha (eq_sym Hkey)).
    split; reflexivity.
  - intros k c Hc Hcolon Hnumbers. apply Hunique; [exact Hc|].
    intros j b Hne Hb. apply different_number_different_key.
    + apply Hcolon. eapply nth_error_In; eassumption.
    + apply Hcolon. eapply nth_error_In; eassumption.
    + now apply (Hnumbers j b).
Qed.

(** Two copies of an invoice and one with another number. *)
Lemma duplicates_tagged_by_key_witness :
  exists rep,
    validate_invoices three_batch = Ok rep
    /\ option_map errors (nth_error (results rep) 0) = Some [DUPLICATE]
    /\ option_map errors (nth_error (results rep) 1) = Some [DUPLICATE]
    /\ option_map errors (nth_error (results rep) 2) = Some [].
Proof.
  destruct (duplicates_tagged_by_key three_batch) as (rep & Hrun & Hpair & Hone & _).
  exists rep. split; [exact Hrun|].
  destruct (Hpair 0 1 (sample_invoice "a.pdf" "INV-1" "ACME")
                  (sample_invoice "b.pdf" "INV-1" "ACME"))
    as [H0 H1]; try reflexivity; [lia|].
  destruct (Hone 2 (sample_invoice "c.pdf" "INV-2" "ACME")) as [H2 _];
    [reflexivity| |].
  - intros [|[|[|j]]] b Hj Hb; try lia; simpl in Hb.
    + injection Hb as <-. vm_compute. discriminate.
    + injection Hb as <-. vm_compute. discriminate.
    + destruct j; discriminate Hb.
  - split; [exact H0|]. split; [exact H1|exact H2].
Defined.

(** C8. [validate_invoices] carries no state from one call to the next:
    whatever the module-level names [EPSILON] and [ALLOWED_CURRENCIES]
    hold and whatever the batch, a call returns a report and leaves the two
    names and the caller's list as it found them, so that two calls in a
    row on the same list return the same report, summary and results
    alike; with the module as the import leaves it, this report is the one
    of [Validator.validate_invoices]. *)
Theorem validate_invoices_stateless (w : Session.world) :
  exists rep,
    Session.validate_invoices w = (Ok rep, w)
    /\ Session.twice Session.validate_invoices w = (Ok (rep, rep), w)
    /\ (forall invs, w = Session.loaded invs -> validate_invoices invs = Ok rep).
Proof.
  destruct (SessionFacts.validate_invoices_frame w) as [rep Hrep].
  exists rep. split; [exact Hrep |]. split.
  - unfold Session.twice.
    unfold Session.bind at 1. rewrite Hrep.
    unfold Session.bind at 1. rewrite Hrep.
    reflexivity.
  - intros invs ->. rewrite SessionFacts.validate_invoices_loaded in Hrep.
    now apply (f_equal fst) in Hrep.
Qed.

End Properties.

(* ===================================================================== *)
(** * Further facts: strings, counters, reports and tags               *)
(* ===================================================================== *)

Module StripFacts.
Import Py PyFacts Spec2.

Lemma blanks_app (a b : str) : blanks a -> blanks b -> blanks (a ++ b).
Proof.
  intros Ha Hb c Hc. apply in_app_or in Hc. destruct Hc; auto.
Qed.

Lemma blanks_rev (a : str) : blanks a -> blanks (rev a).
Proof.
  intros Ha c Hc. apply Ha. now apply in_rev.
Qed.

Lemma lstrip_split (s : str) : exists w, s = w ++ lstrip s /\ blanks w.
Proof.
  induction s as [|c s IH]; simpl.
  - exists []. split; [reflexivity | intros c []].
  - destruct (isspace c) eqn:Hc.
    + destruct IH as (w & Hw & Hb). exists (c :: w). split.
      * simpl. now rewrite <- Hw.
      * intros x [<- | Hx]; auto.
    + exists []. split; [reflexivity | intros x []].
Qed.

Lemma lstrip_head (s : str) (c : N) (t : str) :
  lstrip s = c :: t -> isspace c = false.
Proof.
  induction s as [|x s IH]; simpl; [discriminate |].
  destruct (isspace x) eqn:Hx; [exact IH |].
  intros H. injection H as <- _. exact Hx.
Qed.

Lemma lstrip_blanks (w s : str) : blanks w -> lstrip (w ++ s) = lstrip s.
Proof.
  induction w as [|c w IH]; simpl; intros Hw; [reflexivity |].
  rewrite (Hw c (or_introl eq_refl)). apply IH. intros x Hx. apply Hw. now right.
Qed.

Lemma lstrip_all_blanks (w : str) : blanks w -> lstrip w = [].
Proof.
  intros Hw. rewrite <- (app_nil_r w). now rewrite lstrip_blanks.
Qed.

Lemma lstrip_nil_blanks (s : str) : lstrip s = [] -> blanks s.
Proof.
  intros H. destruct (lstrip_split s) as (w & Hw & Hb).
  rewrite H, app_nil_r in Hw. now subst.
Qed.

Lemma lstrip_idem (s : str) : lstrip (lstrip s) = lstrip s.
Proof.
  destruct (lstrip s) as [|c t] eqn:E; [reflexivity |].
  simpl. now rewrite (lstrip_head _ _ _ E).
Qed.

Lemma rstrip_split (s : str) : exists w, s = rstrip s ++ w /\ blanks w.
Proof.
  unfold rstrip. destruct (lstrip_split (rev s)) as (w & Hw & Hb).
  exists (rev w). split; [| now apply blanks_rev].
  rewrite <- rev_app_distr, <- Hw. now rewrite rev_involutive.
Qed.

Lemma rstrip_blanks (s w : str) : blanks w -> rstrip (s ++ w) = rstrip s.
Proof.
  intros Hw. unfold rstrip. rewrite rev_app_distr.
  rewrite lstrip_blanks; [reflexivity | now apply blanks_rev].
Qed.

Lemma rstrip_idem (s : str) : rstrip (rstrip s) = rstrip s.
Proof.
  unfold rstrip. now rewrite rev_involutive, lstrip_idem.
Qed.

(** After [lstrip], [rstrip] leaves a string that [lstrip] keeps. *)
Lemma lstrip_rstrip_lstrip (s : str) : lstrip (rstrip (lstrip s)) = rstrip (lstrip s).
Proof.
  destruct (rstrip_split (lstrip s)) as (w & Hw & _).
  destruct (rstrip (lstrip s)) as [|c r] eqn:E; [reflexivity |].
  simpl in Hw. simpl. now rewrite (lstrip_head _ _ _ Hw).
Qed.

Lemma strip_idem (s : str) : strip (strip s) = strip s.
Proof.
  unfold strip. now rewrite lstrip_rstrip_lstrip, rstrip_idem.
Qed.

Lemma strip_blanks (a s b : str) :
  blanks a -> blanks b -> strip (a ++ s ++ b) = strip s.
Proof.
  intros Ha Hb. unfold strip. rewrite lstrip_blanks by exact Ha.
  destruct (lstrip s) as [|c t] eqn:E.
  - rewrite lstrip_all_blanks; [reflexivity |].
    apply blanks_app; [now apply lstrip_nil_blanks | exact Hb].
  - destruct (lstrip_split s) as (w & Hw & Hbw). rewrite E in Hw.
    rewrite Hw, <- app_assoc, lstrip_blanks by exact Hbw.
    replace (lstrip ((c :: t) ++ b)) with ((c :: t) ++ b)
      by (simpl; now rewrite (lstrip_head _ _ _ E)).
    now apply rstrip_blanks.
Qed.

Lemma strip_all_blanks (w : str) : blanks w -> strip w = [].
Proof.
  intros Hw. unfold strip. now rewrite lstrip_all_blanks.
Qed.

(** A stripped string that is not empty is not blank. *)
Lemma strip_fixed_nonempty (s : str) : strip s = s -> s <> [] -> strip s <> [].
Proof. intros -> H. exact H. Qed.

Lemma count_occ_lstrip (s : str) (c : N) :
  isspace c = false -> count_occ N.eq_dec (lstrip s) c = count_occ N.eq_dec s c.
Proof.
  intros Hc. induction s as [|x s IH]; [reflexivity |].
  simpl lstrip. destruct (isspace x) eqn:Hx; [| reflexivity].
  rewrite IH. rewrite count_occ_cons_neq; [reflexivity |].
  intros ->. congruence.
Qed.

Lemma count_occ_rev {A : Type} (dec : forall x y : A, {x = y} + {x <> y})
  (l : list A) (x : A) : count_occ dec (rev l) x = count_occ dec l x.
Proof.
  induction l as [|y l IH]; [reflexivity |].
  simpl rev. rewrite count_occ_app, IH. simpl.
  destruct (dec y x); lia.
Qed.

Lemma count_occ_strip (s : str) (c : N) :
  isspace c = false -> count_occ N.eq_dec (strip s) c = count_occ N.eq_dec s c.
Proof.
  intros Hc. unfold strip, rstrip.
  now rewrite count_occ_rev, count_occ_lstrip, count_occ_rev, count_occ_lstrip.
Qed.

Lemma strip_nonspace (s : str) :
  (forall c, In c s -> isspace c = false) -> strip s = s.
Proof.
  intros H.
  assert (Hl : forall t : str, (forall c, In c t -> isspace c = false) -> lstrip t = t).
  { intros [|c t] Ht; [reflexivity |]. simpl.
    now rewrite (Ht c (or_introl eq_refl)). }
  unfold strip, rstrip. rewrite (Hl s H), Hl, rev_involutive; [reflexivity |].
  intros c Hc. apply H. now apply in_rev.
Qed.

End StripFacts.

Module CounterFacts.
Import Py PyFacts Datetime Schema Validator Spec Spec2 ValidatorFacts.

Lemma lookup_counter_incr (c : dict Z) (e' e : str) :
  lookup (counter_incr c e') e
  = (lookup c e + if str_eqb e' e then 1 else 0)%Z.
Proof.
  induction c as [|[k n] c IH]; simpl.
  - destruct (str_eqb e' e); reflexivity.
  - destruct (str_eqb k e') eqn:Hk; simpl.
    + apply str_eqb_eq in Hk. subst k. destruct (str_eqb e' e); lia.
    + destruct (str_eqb k e) eqn:Hke; [| exact IH].
      apply str_eqb_eq in Hke. subst k.
      rewrite str_eqb_sym, Hk. lia.
Qed.

Lemma occurrences_cons (e x : str) (l : list str) :
  occurrences e (x :: l) = (if str_eqb e x then 1 else 0) + occurrences e l.
Proof.
  unfold occurrences. simpl. destruct (str_eqb e x); reflexivity.
Qed.

Lemma occurrences_app (e : str) (a b : list str) :
  occurrences e (a ++ b) = occurrences e a + occurrences e b.
Proof.
  unfold occurrences. now rewrite filter_app, length_app.
Qed.

Lemma occurrences_repeat (e x : str) (n : nat) :
  occurrences e (repeat x n) = n * occurrences e [x].
Proof.
  induction n as [|n IH]; [reflexivity |].
  change (repeat x (S n)) with ([x] ++ repeat x n).
  rewrite occurrences_app, IH. lia.
Qed.

Lemma occurrences_In (e : str) (l : list str) : 0 < occurrences e l <-> In e l.
Proof.
  unfold occurrences. split.
  - intros H. destruct (filter (str_eqb e) l) as [|x r] eqn:E; [simpl in H; lia |].
    assert (Hx : In x (filter (str_eqb e) l)) by (rewrite E; now left).
    apply filter_In in Hx. destruct Hx as [Hx Heq].
    apply str_eqb_eq in Heq. now subst.
  - intros H.
    assert (Hx : In e (filter (str_eqb e) l))
      by (apply filter_In; split; [exact H | apply str_eqb_refl]).
    destruct (filter (str_eqb e) l); [destruct Hx | simpl; lia].
Qed.

Lemma lookup_fold (l : list str) (c : dict Z) (e : str) :
  lookup (fold_left counter_incr l c) e
  = (lookup c e + Z.of_nat (occurrences e l))%Z.
Proof.
  revert c. induction l as [|x l IH]; intros c; simpl.
  - unfold occurrences. simpl. lia.
  - rewrite IH, lookup_counter_incr, occurrences_cons, (str_eqb_sym x e).
    destruct (str_eqb e x); lia.
Qed.

Lemma counter_incr_keys (c : dict Z) (e k : str) :
  In k (map fst (counter_incr c e)) <-> In k (map fst c) \/ k = e.
Proof.
  induction c as [|[k0 n] c IH]; simpl.
  - intuition.
  - destruct (str_eqb k0 e) eqn:Hk; simpl.
    + apply str_eqb_eq in Hk. subst k0. intuition.
    + rewrite IH. intuition.
Qed.

Lemma counter_incr_NoDup (c : dict Z) (e : str) :
  NoDup (map fst c) -> NoDup (map fst (counter_incr c e)).
Proof.
  induction c as [|[k0 n] c IH]; simpl; intros H.
  - constructor; [intros [] | constructor].
  - inversion_clear H as [|? ? Hn Hd].
    destruct (str_eqb k0 e) eqn:Hk; simpl.
    + now constructor.
    + constructor; [| now apply IH].
      rewrite counter_incr_keys. intros [Hin | ->]; [now apply Hn |].
      rewrite str_eqb_refl in Hk. discriminate.
Qed.

Lemma counter_incr_positive (c : dict Z) (e : str) :
  positive_counts c -> positive_counts (counter_incr c e).
Proof.
  unfold positive_counts.
  induction c as [|[k0 n0] c IH]; simpl; intros H k n Hin.
  - destruct Hin as [Hin | []]. injection Hin as _ <-. lia.
  - destruct (str_eqb k0 e).
    + destruct Hin as [Hin | Hin].
      * injection Hin as _ <-.
        specialize (H k0 n0 (or_introl eq_refl)). lia.
      * apply (H k n). now right.
    + destruct Hin as [Hin | Hin].
      * apply (H k n). now left.
      * apply (IH (fun k n Hc => H k n (or_intror Hc)) k n Hin).
Qed.

Lemma fold_counter_invariants (l : list str) (c : dict Z) :
  NoDup (map fst c) -> positive_counts c ->
  NoDup (map fst (fold_left counter_incr l c))
  /\ positive_counts (fold_left counter_incr l c).
Proof.
  revert c. induction l as [|x l IH]; intros c Hn Hp; simpl; [now split |].
  apply IH; [now apply counter_incr_NoDup | now apply counter_incr_positive].
Qed.

(** The counter after the loop over the invoices. *)
Lemma check_loop_counter (invs : list Invoice) (st : validation_state) :
  snd (fold_left check_invoice invs st)
  = fold_left counter_incr (concat (map record_errors invs)) (snd st).
Proof.
  revert st. induction invs as [|inv invs IH]; intros [rs c]; [reflexivity |].
  change (fold_left check_invoice (inv :: invs) (rs, c))
    with (fold_left check_invoice invs (check_invoice (rs, c) inv)).
  rewrite IH.
  change (snd (check_invoice (rs, c) inv))
    with (fold_left counter_incr (record_errors inv) c).
  cbn [map concat snd]. now rewrite fold_left_app.
Qed.

(** The counter after the loop over the indices of the duplicates. *)
Lemma mark_loop_counter (idxs : list nat) :
  forall (rs rs' : list ResultEntry) (c c' : dict Z),
    for_each mark_duplicate idxs (rs, c) = Ok (rs', c') ->
    c' = fold_left counter_incr (repeat DUPLICATE (length idxs)) c.
Proof.
  induction idxs as [|i idxs IH]; intros rs rs' c c' H.
  - simpl in H. injection H as _ <-. reflexivity.
  - cbn [for_each] in H. unfold mark_duplicate at 1 in H.
    destruct (nth_error rs i) as [r|]; [| discriminate H].
    cbn [bind] in H. apply IH in H. exact H.
Qed.

Lemma validate_invoices_counter (invs : list Invoice) (rep : Report) :
  validate_invoices invs = Ok rep ->
  error_counts (summary rep)
  = fold_left counter_incr
      (concat (map record_errors invs)
       ++ repeat DUPLICATE (length (concat (map snd (_check_duplicates invs)))))
      [].
Proof.
  unfold validate_invoices. rewrite for_each_concat.
  pose proof (check_loop_counter invs ([], [])) as Hc.
  destruct (fold_left check_invoice invs ([], [])) as [rs c].
  simpl in Hc.
  destruct (for_each mark_duplicate _ (rs, c)) as [[rs' c']|e] eqn:F;
    simpl; [| discriminate].
  intros H. injection H as <-. simpl.
  apply mark_loop_counter in F. now rewrite F, Hc, fold_left_app.
Qed.

(** Counting through the positions. *)
Lemma filter_positions_length {A : Type} (f : A -> bool) (l : list A) :
  length (filter (fun i => match nth_error l i with
                           | Some x => f x
                           | None => false
                           end) (seq 0 (length l)))
  = length (filter f l).
Proof.
  induction l as [|x l IH] using rev_ind; [reflexivity |].
  rewrite length_app, Nat.add_1_r, seq_S, !filter_app, !length_app. simpl.
  rewrite nth_error_app2, Nat.sub_diag by lia. simpl.
  rewrite <- IH. f_equal; [| now destruct (f x)].
  f_equal. apply filter_ext_in. intros i Hi. apply in_seq in Hi.
  now rewrite nth_error_app1 by lia.
Qed.

Lemma duplicates_length (invs : list Invoice) :
  length (concat (map snd (_check_duplicates invs)))
  = length (filter (is_duplicate invs) invs).
Proof.
  rewrite <- filter_positions_length.
  set (L := concat (map snd (_check_duplicates invs))).
  set (dup_at := fun i => match nth_error invs i with
                          | Some x => is_duplicate invs x
                          | None => false
                          end).
  assert (Hcount : forall i, count_occ Nat.eq_dec L i = if dup_at i then 1 else 0).
  { intros i. unfold dup_at. destruct (nth_error invs i) as [inv|] eqn:E.
    - now apply count_occ_duplicates.
    - apply count_occ_not_In. intros Hin. apply duplicates_in_range in Hin.
      apply nth_error_None in E. lia. }
  assert (HL : NoDup L).
  { apply NoDup_count_occ with (decA := Nat.eq_dec). intros i.
    rewrite Hcount. destruct (dup_at i); lia. }
  assert (HF : NoDup (filter dup_at (seq 0 (length invs))))
    by (apply NoDup_filter, seq_NoDup).
  assert (Hin : forall i, In i L <-> In i (filter dup_at (seq 0 (length invs)))).
  { intros i. rewrite (count_occ_In Nat.eq_dec), Hcount, filter_In, in_seq.
    split.
    - destruct (dup_at i) eqn:E; [| lia]. intros _. split; [| reflexivity].
      unfold dup_at in E. destruct (nth_error invs i) eqn:E'; [| discriminate].
      assert (i < length invs) by (apply nth_error_Some; congruence). lia.
    - intros [_ ->]. lia. }
  apply Nat.le_antisymm; apply NoDup_incl_length; try assumption;
    intros i Hi; now apply Hin.
Qed.

(** The tags of a batch of entries, counted. *)
Lemma occurrences_entries (invs l : list Invoice) (e : str) :
  occurrences e (concat (map errors (map (entry_of invs) l)))
  = occurrences e (concat (map record_errors l))
    + length (filter (is_duplicate invs) l) * occurrences e [DUPLICATE].
Proof.
  induction l as [|inv l IH]; [reflexivity |].
  cbn [map concat filter].
  change (errors (entry_of invs inv))
    with (record_errors inv ++ (if is_duplicate invs inv then [DUPLICATE] else [])).
  rewrite !occurrences_app, IH.
  destruct (is_duplicate invs inv); cbn [length];
    change (occurrences e []) with 0; lia.
Qed.

End CounterFacts.

Module ReportFacts.
Import Py PyFacts Datetime Schema Validator Spec Spec2 ValidatorFacts CounterFacts.

Lemma is_valid_entry_of (invs : list Invoice) (inv : Invoice) :
  is_valid (entry_of invs inv) = passes inv.
Proof.
  unfold passes. cbn [entry_of is_valid]. now destruct (record_errors inv).
Qed.

Lemma invalid_entries (invs l : list Invoice) :
  length (filter (fun r => negb (is_valid r)) (map (entry_of invs) l))
  = length (filter (fun inv => negb (passes inv)) l).
Proof.
  induction l as [|inv l IH]; [reflexivity |].
  cbn [map filter]. rewrite is_valid_entry_of.
  destruct (passes inv); cbn [negb length]; now rewrite IH.
Qed.

Lemma filter_nonempty {A : Type} (f : A -> bool) (l : list A) :
  0 < length (filter f l) <-> exists x, In x l /\ f x = true.
Proof.
  split.
  - destruct (filter f l) as [|x r] eqn:E; [simpl; lia |]. intros _.
    exists x. apply filter_In. rewrite E. now left.
  - intros (x & Hx & Hf).
    assert (H : In x (filter f l)) by now apply filter_In.
    destruct (filter f l); [destruct H | simpl; lia].
Qed.

Lemma lookup_In (c : dict Z) (e : str) (n : Z) :
  NoDup (map fst c) -> In (e, n) c -> lookup c e = n.
Proof.
  induction c as [|[k n0] c IH]; simpl; intros Hd Hin; [destruct Hin |].
  inversion_clear Hd as [|? ? Hn Hd'].
  destruct Hin as [Hin | Hin].
  - injection Hin as -> ->. now rewrite str_eqb_refl.
  - destruct (str_eqb k e) eqn:Hk; [| now apply IH].
    apply str_eqb_eq in Hk. subst k. exfalso. apply Hn.
    apply in_map_iff. now exists (e, n).
Qed.

Lemma NoDup_keys_filter {V : Type} (f : str * V -> bool) (d : dict V) :
  NoDup (map fst d) -> NoDup (map fst (filter f d)).
Proof.
  induction d as [|kv d IH]; simpl; intros H; [constructor |].
  inversion_clear H as [|? ? Hn Hd].
  destruct (f kv); simpl; [| now apply IH].
  constructor; [| now apply IH].
  intros Hin. apply Hn. apply in_map_iff in Hin. destruct Hin as (x & Hx & Hin).
  apply filter_In in Hin. apply in_map_iff. exists x. tauto.
Qed.

Lemma positions_member (invs : list Invoice) (k : str) (i : nat) :
  In i (positions invs k)
  <-> exists inv, nth_error invs i = Some inv /\ duplicate_key inv = k.
Proof.
  split.
  - intros Hin. pose proof (positions_lt _ _ _ Hin) as Hlt.
    destruct (nth_error invs i) as [inv|] eqn:E.
    + exists inv. split; [reflexivity |]. now apply (positions_In invs k i inv E).
    + apply nth_error_None in E. lia.
  - intros (inv & E & Hk). now apply (positions_In invs k i inv E).
Qed.

End ReportFacts.

Module TagFacts.
Import Py PyFacts Datetime Schema Validator Spec Spec2 ValidatorFacts.

Lemma when_select {A : Type} (c : bool) (t : str) (mask : list bool) (l : list str) :
  when c t ++ select mask l = select (c :: mask) (t :: l).
Proof. now destruct c. Qed.

Lemma select_In {A : Type} (mask : list bool) (l : list A) (x : A) :
  In x (select mask l) -> In x l.
Proof.
  revert l. induction mask as [|b mask IH]; intros [|y l]; simpl; try tauto.
  destruct b; simpl; intros H; [destruct H as [H | H]; auto | auto].
Qed.

Lemma select_NoDup {A : Type} (mask : list bool) (l : list A) :
  NoDup l -> NoDup (select mask l).
Proof.
  revert l. induction mask as [|b mask IH]; intros [|y l] H; simpl;
    try constructor.
  inversion_clear H as [|? ? Hn Hd].
  destruct b; [| now apply IH].
  constructor; [| now apply IH]. intros Hin. apply Hn. now apply select_In in Hin.
Qed.

Lemma select_length {A : Type} (mask : list bool) (l : list A) :
  length (select mask l) <= length l.
Proof.
  revert l. induction mask as [|b mask IH]; intros [|y l]; simpl; try lia.
  specialize (IH l). destruct b; simpl; lia.
Qed.

Lemma select_app {A : Type} (m1 m2 : list bool) (l1 l2 : list A) :
  length m1 = length l1 ->
  select (m1 ++ m2) (l1 ++ l2) = select m1 l1 ++ select m2 l2.
Proof.
  revert l1. induction m1 as [|b m1 IH]; intros [|y l1]; simpl; try discriminate.
  - reflexivity.
  - intros H. injection H as H. rewrite IH by exact H. now destruct b.
Qed.

Lemma record_errors_select (inv : Invoice) :
  record_errors inv = select (record_mask inv) (record_tags inv).
Proof.
  unfold record_errors, _check_completeness, _check_business_rules,
    record_mask, record_tags, TOTALS_MISMATCH.
  rewrite <- !app_assoc.
  repeat match goal with
         | |- when ?c ?t ++ _ = select (?c :: _) (?t :: _) =>
             rewrite <- (when_select (A := str)); f_equal
         end.
  destruct (line_items inv) as [|li items]; [reflexivity |].
  now destruct (PrimFloat.ltb _ _).
Qed.

Lemma all_tags_NoDup (inv : Invoice) : NoDup (record_tags inv ++ [DUPLICATE]).
Proof.
  unfold record_tags, TOTALS_MISMATCH, DUPLICATE. cbn [app].
  repeat (constructor;
          [cbn [In]; intros H;
           repeat (destruct H as [H | H];
                   [vm_compute in H; discriminate H |]);
           exact H |]).
  constructor.
Qed.

End TagFacts.

(* ===================================================================== *)
(** * Further properties of the validator                              *)
(* ===================================================================== *)

Module ValidatorBehaviour.
Import Py PyFacts Datetime Schema Validator Spec Spec2 ValidatorFacts.
Import CounterFacts ReportFacts TagFacts.

(** X1. The counts of the summary: [total_invoices] is the size of the
    batch, [invalid_invoices] the number of invoices with at least one tag
    from the per-record checks, [valid_invoices] the number of the others,
    whether they are duplicates or not; the two add up to the total. *)
Theorem summary_counts (invs : list Invoice) :
  exists rep,
    validate_invoices invs = Ok rep
    /\ total_invoices (summary rep) = Z.of_nat (length invs)
    /\ valid_invoices (summary rep) = Z.of_nat (length (filter passes invs))
    /\ invalid_invoices (summary rep)
       = Z.of_nat (length (filter (fun inv => negb (passes inv)) invs))
    /\ (valid_invoices (summary rep) + invalid_invoices (summary rep)
        = total_invoices (summary rep))%Z
    /\ (0 <= valid_invoices (summary rep) <= total_invoices (summary rep))%Z.
Proof.
  destruct (validate_invoices_report invs) as (rep & Hrep & Hres & Htot & Hinv & Hval).
  exists rep. split; [exact Hrep |].
  rewrite Hres, invalid_entries in Hinv.
  pose proof (filter_length passes invs) as Hlen.
  assert (Hvalid : valid_invoices (summary rep)
                   = Z.of_nat (length (filter passes invs))).
  { rewrite Hval, Htot, Hinv, <- Hlen. lia. }
  repeat split; try assumption; rewrite ?Hvalid, ?Hinv, ?Htot; lia.
Qed.

(** X2. The error counts of the summary agree with the results: the count
    of a tag is the number of times the tag occurs in the error lists of
    the results (0 for a tag that is not listed), no tag is listed twice,
    and every listed tag has a count of at least 1 and occurs in the
    errors of some result. *)
Theorem error_counts_agree (invs : list Invoice) :
  exists rep,
    validate_invoices invs = Ok rep
    /\ (forall e, lookup (error_counts (summary rep)) e
                  = Z.of_nat (occurrences e (all_errors rep)))
    /\ NoDup (map fst (error_counts (summary rep)))
    /\ (forall e n, In (e, n) (error_counts (summary rep)) ->
                    (1 <= n)%Z
                    /\ exists r, In r (results rep) /\ In e (errors r)).
Proof.
  destruct (validate_invoices_report invs) as (rep & Hrep & Hres & _).
  exists rep. split; [exact Hrep |].
  pose proof (validate_invoices_counter invs rep Hrep) as Hc.
  assert (Hlookup : forall e, lookup (error_counts (summary rep)) e
                              = Z.of_nat (occurrences e (all_errors rep))).
  { intros e. unfold all_errors.
    rewrite Hc, lookup_fold, Hres, occurrences_entries, occurrences_app,
      occurrences_repeat, duplicates_length.
    simpl lookup. lia. }
  destruct (fold_counter_invariants
              (concat (map record_errors invs)
               ++ repeat DUPLICATE
                    (length (concat (map snd (_check_duplicates invs)))))
              []) as [Hnd Hpos].
  { constructor. }
  { intros k n []. }
  rewrite <- Hc in Hnd, Hpos.
  split; [exact Hlookup |]. split; [exact Hnd |].
  intros e n Hin. pose proof (Hpos e n Hin) as Hn. split; [exact Hn |].
  apply (lookup_In _ _ _ Hnd) in Hin. rewrite Hlookup in Hin.
  assert (Hocc : 0 < occurrences e (all_errors rep)) by lia.
  apply occurrences_In in Hocc. unfold all_errors in Hocc.
  apply in_concat in Hocc. destruct Hocc as (l & Hl & He).
  apply in_map_iff in Hl. destruct Hl as (r & <- & Hr).
  now exists r.
Qed.

(** X3. The dictionary returned by [_check_duplicates]: no key twice; a
    key is bound to a list exactly when the list holds, in ascending
    order, the positions of the invoices with that key and there are at
    least two of them; so a position is in the list of a key exactly when
    the invoice at that position has the key. *)
Theorem check_duplicates_groups (invs : list Invoice) :
  NoDup (map fst (_check_duplicates invs))
  /\ (forall k v,
        In (k, v) (_check_duplicates invs)
        <-> v = positions invs k /\ 2 <= length v)
  /\ (forall k v i,
        In (k, v) (_check_duplicates invs) ->
        (In i v <-> exists inv, nth_error invs i = Some inv
                                /\ duplicate_key inv = k)).
Proof.
  destruct (key_to_indices_grouped invs) as [Hkeys Hvalues Hall].
  assert (Hgroups : forall k v,
             In (k, v) (_check_duplicates invs)
             <-> v = positions invs k /\ 2 <= length v).
  { intros k v. unfold _check_duplicates. rewrite filter_In. cbn [snd].
    rewrite Nat.ltb_lt. split.
    - intros [Hin Hlen]. split; [now apply Hvalues | lia].
    - intros [-> Hlen]. split; [| lia].
      destruct (positions invs k) as [|i rest] eqn:E; [simpl in Hlen; lia |].
      assert (Hi : In i (positions invs k)) by (rewrite E; now left).
      apply positions_member in Hi. destruct Hi as (inv & Hnth & Hk).
      apply nth_error_In in Hnth. apply Hall in Hnth. rewrite Hk in Hnth.
      apply in_map_iff in Hnth. destruct Hnth as ([k' v'] & Hfst & Hin).
      simpl in Hfst. subst k'.
      rewrite <- E, <- (Hvalues k v' Hin). exact Hin. }
  split; [now apply NoDup_keys_filter |]. split; [exact Hgroups |].
  intros k v i Hin. apply Hgroups in Hin. destruct Hin as [-> _].
  apply positions_member.
Qed.

(** X4. The error list of every result is taken, in order, from the nine
    tags of the per-record checks followed by the duplicate tag: the tags
    come in that order, none comes twice, and there are at most ten. *)
Theorem errors_ordered_distinct (invs : list Invoice) :
  exists rep,
    validate_invoices invs = Ok rep
    /\ length (results rep) = length invs
    /\ forall i inv r,
         nth_error invs i = Some inv ->
         nth_error (results rep) i = Some r ->
         errors r = select (record_mask inv ++ [is_duplicate invs inv])
                           (record_tags inv ++ [DUPLICATE])
         /\ NoDup (errors r)
         /\ length (errors r) <= 10.
Proof.
  destruct (validate_invoices_report invs) as (rep & Hrep & Hres & _).
  exists rep. split; [exact Hrep |].
  split; [now rewrite Hres, length_map |].
  intros i inv r Hinv Hr.
  rewrite (entry_at invs rep i inv Hres Hinv) in Hr. injection Hr as <-.
  assert (Herr : errors (entry_of invs inv)
                 = select (record_mask inv ++ [is_duplicate invs inv])
                          (record_tags inv ++ [DUPLICATE])).
  { rewrite select_app by reflexivity.
    rewrite <- record_errors_select. cbn [entry_of errors].
    now destruct (is_duplicate invs inv). }
  rewrite Herr. split; [reflexivity |]. split.
  - apply select_NoDup, all_tags_NoDup.
  - etransitivity; [apply select_length |].
    unfold record_tags. simpl. lia.
Qed.

End ValidatorBehaviour.

(* ===================================================================== *)
(** * Not-a-number totals                                              *)
(* ===================================================================== *)

Module FloatFacts.
Import Py PyFacts Datetime Schema Validator Spec Spec2.

Lemma SFeqb_refl_not_nan (s : spec_float) : SFeqb s s = false -> s = S754_nan.
Proof.
  unfold SFeqb. destruct s as [z|i| |sg m e]; simpl; try discriminate; try reflexivity.
  - destruct i; discriminate.
  - rewrite Z.compare_refl, Pos.compare_cont_refl. destruct sg; discriminate.
Qed.

Lemma is_nan_spec (x : float) : is_nan x = true -> Prim2SF x = S754_nan.
Proof.
  unfold is_nan. rewrite eqb_spec. intros H.
  apply SFeqb_refl_not_nan. now destruct (SFeqb _ _).
Qed.

Lemma SFadd_nan_r (s : spec_float) : SFadd prec emax s S754_nan = S754_nan.
Proof. now destruct s. Qed.

Lemma SFsub_nan_r (s : spec_float) : SFsub prec emax s S754_nan = S754_nan.
Proof. now destruct s. Qed.

Lemma SFltb_nan_r (s : spec_float) : SFltb s S754_nan = false.
Proof. now destruct s. Qed.

(** A comparison with a NaN is false. *)
Lemma ltb_nan_l (x y : float) : is_nan x = true -> PrimFloat.ltb x y = false.
Proof.
  intros H. rewrite ltb_spec, (is_nan_spec x H). reflexivity.
Qed.

Lemma ltb_nan_r (x y : float) : is_nan y = true -> PrimFloat.ltb x y = false.
Proof.
  intros H. rewrite ltb_spec, (is_nan_spec y H). apply SFltb_nan_r.
Qed.

Lemma is_nan_of_spec (x : float) : Prim2SF x = S754_nan -> is_nan x = true.
Proof.
  intros H. unfold is_nan. rewrite eqb_spec, H. reflexivity.
Qed.

Lemma add_nan (x y : float) :
  is_nan x || is_nan y = true -> is_nan (PrimFloat.add x y) = true.
Proof.
  intros H. apply is_nan_of_spec. rewrite add_spec. unfold SF64add.
  apply orb_true_iff in H. destruct H as [H | H]; rewrite (is_nan_spec _ H).
  - reflexivity.
  - apply SFadd_nan_r.
Qed.

Lemma sub_nan (x y : float) :
  is_nan x || is_nan y = true -> is_nan (PrimFloat.sub x y) = true.
Proof.
  intros H. apply is_nan_of_spec. rewrite sub_spec. unfold SF64sub.
  apply orb_true_iff in H. destruct H as [H | H]; rewrite (is_nan_spec _ H).
  - reflexivity.
  - apply SFsub_nan_r.
Qed.

Lemma abs_nan (x : float) : is_nan x = true -> is_nan (abs x) = true.
Proof.
  intros H. apply is_nan_of_spec. rewrite abs_spec, (is_nan_spec _ H). reflexivity.
Qed.

(** [x - x] is [+0], or NaN when [x] is infinite or NaN. *)
Lemma sub_diag_spec (x : float) :
  Prim2SF (PrimFloat.sub x x) = S754_zero false
  \/ Prim2SF (PrimFloat.sub x x) = S754_nan.
Proof.
  rewrite sub_spec. unfold SF64sub, SFsub.
  destruct (Prim2SF x) as [z|i| |sg m e].
  - left. now destruct z.
  - right. now destruct i.
  - now right.
  - left. cbv zeta. rewrite Z.sub_diag. reflexivity.
Qed.

Lemma within_tolerance_diag (x : float) :
  PrimFloat.ltb EPSILON (abs (PrimFloat.sub x x)) = false.
Proof.
  rewrite ltb_spec, abs_spec.
  destruct (sub_diag_spec x) as [H | H]; rewrite H.
  - vm_compute. reflexivity.
  - apply SFltb_nan_r.
Qed.

Lemma when_In (c : bool) (t e : str) : In e (when c t) -> e = t /\ c = true.
Proof.
  destruct c; simpl; [| tauto]. intros [H | []]. now split.
Qed.

(** Where the three tags of [_check_business_rules] come from. *)
Lemma business_rules_tags (inv : Invoice) (e : str) :
  In e (_check_business_rules inv) ->
  (e = TOTALS_MISMATCH /\ totals_mismatch inv = true)
  \/ (e = u "anomaly: negative_totals"
      /\ PrimFloat.ltb (net_total inv) zero || PrimFloat.ltb (tax_amount inv) zero
         || PrimFloat.ltb (gross_total inv) zero = true)
  \/ (e = u "business_rule_failed: line_items_sum_ne_net_total"
      /\ line_items inv <> []
      /\ PrimFloat.ltb EPSILON
           (abs (PrimFloat.sub (lines_sum (line_items inv)) (net_total inv)))
         = true).
Proof.
  unfold _check_business_rules. intros H.
  apply in_app_or in H. destruct H as [H | H].
  { left. now apply when_In in H. }
  apply in_app_or in H. destruct H as [H | H].
  { right. left. now apply when_In in H. }
  right. right. destruct (line_items inv) as [|li items]; [destruct H |].
  apply when_In in H. destruct H as [-> H]. now repeat split.
Qed.

Lemma mismatch_tag (inv : Invoice) :
  In TOTALS_MISMATCH (_check_business_rules inv) -> totals_mismatch inv = true.
Proof.
  intros H. apply business_rules_tags in H.
  destruct H as [[_ H] | [[H _] | [H _]]]; [exact H | |];
    vm_compute in H; discriminate H.
Qed.

End FloatFacts.

Module NumericBehaviour.
Import Py PyFacts Datetime Schema Validator Spec Spec2 FloatFacts.

(** X5. A NaN among the totals silences the checks that read it: the
    comparisons with NaN are false, so the totals-mismatch tag is not
    emitted when one of the three totals is NaN, nor the line-items tag
    when the net total is NaN, and an invoice whose three totals are NaN
    gets no tag at all from [_check_business_rules]. *)
Theorem nan_totals_unchecked (inv : Invoice) :
  (is_nan (net_total inv) || is_nan (tax_amount inv) || is_nan (gross_total inv)
   = true ->
   ~ In TOTALS_MISMATCH (_check_business_rules inv))
  /\ (is_nan (net_total inv) = true ->
      ~ In (u "business_rule_failed: line_items_sum_ne_net_total")
           (_check_business_rules inv))
  /\ (is_nan (net_total inv) = true ->
      is_nan (tax_amount inv) = true ->
      is_nan (gross_total inv) = true ->
      _check_business_rules inv = []).
Proof.
  assert (Hmis : is_nan (net_total inv) || is_nan (tax_amount inv)
                 || is_nan (gross_total inv) = true ->
                 totals_mismatch inv = false).
  { intros H. unfold totals_mismatch. apply ltb_nan_r, abs_nan, sub_nan.
    apply orb_true_iff in H. destruct H as [H | H].
    - rewrite (add_nan _ _ H). reflexivity.
    - rewrite H. apply orb_true_r. }
  assert (Hlines : is_nan (net_total inv) = true ->
                   forall items,
                     PrimFloat.ltb EPSILON
                       (abs (PrimFloat.sub (lines_sum items) (net_total inv)))
                     = false).
  { intros H items. apply ltb_nan_r, abs_nan, sub_nan.
    rewrite H. apply orb_true_r. }
  split; [| split].
  - intros H Hin. apply mismatch_tag in Hin. rewrite (Hmis H) in Hin. discriminate.
  - intros H Hin. apply business_rules_tags in Hin.
    destruct Hin as [[Hin _] | [[Hin _] | [_ [_ Hin]]]];
      [vm_compute in Hin; discriminate Hin
      | vm_compute in Hin; discriminate Hin |].
    rewrite (Hlines H) in Hin. discriminate Hin.
  - intros Hn Ht Hg. unfold _check_business_rules.
    rewrite Hmis by (rewrite Hn; reflexivity).
    rewrite (ltb_nan_l _ _ Hn), (ltb_nan_l _ _ Ht), (ltb_nan_l _ _ Hg).
    cbn [when orb app].
    destruct (line_items inv) as [|li items]; [reflexivity |].
    now rewrite (Hlines Hn).
Qed.

(** An invoice with three NaN totals. *)
Lemma nan_totals_unchecked_witness :
  _check_business_rules
    (with_totals (sample_invoice "a.pdf" "INV-1" "ACME") nan nan nan) = [].
Proof.
  apply (nan_totals_unchecked
           (with_totals (sample_invoice "a.pdf" "INV-1" "ACME") nan nan nan));
    reflexivity.
Defined.

End NumericBehaviour.

(* ===================================================================== *)
(** * Further properties of the extractor                              *)
(* ===================================================================== *)

Module ExtractionFacts.
Import Py PyFacts Datetime Dateutil Utils Schema Re Extractor Validator Spec Spec2.
Import UtilsFacts ExtractorFacts StripFacts TagFacts FloatFacts.

Section Extraction.
Context {U : UnicodeData} {P : DateParser}.

(** What [_search_first] returns has been stripped. *)
Lemma _search_first_stripped (patterns : list regex) (text : str) (g : nat) (s : str) :
  _search_first patterns text g = Ok (Some s) -> strip s = s.
Proof.
  induction patterns as [|pat patterns IH]; simpl; [discriminate |].
  destruct (search text pat) as [m|]; [| exact IH].
  unfold group_stripped. destruct (group text m g) as [s0|]; simpl; [| discriminate].
  intros H. injection H as <-. apply strip_idem.
Qed.

(** [found or default] is not blank when [found] is stripped and [default]
    is not blank. *)
Lemma or_str_not_blank (found : option str) (default : str) :
  (forall s, found = Some s -> strip s = s) ->
  blank default = false ->
  blank (or_str found default) = false.
Proof.
  intros Hs Hd. destruct found as [[|c s]|]; simpl; try exact Hd.
  unfold blank. now rewrite (Hs (c :: s) eq_refl).
Qed.

(** The fields of an extracted invoice. *)
Lemma parse_invoice_from_text_fields (text source : str) (inv : Invoice) :
  parse_invoice_from_text text source = Ok inv ->
  source_file inv = source
  /\ (exists found, _search_first INVOICE_NO_PATTERNS text 1 = Ok found
                    /\ invoice_number inv = or_str found (u "UNKNOWN"))
  /\ (exists found, _search_first SELLER_PATTERNS text 1 = Ok found
                    /\ seller_name inv = or_str found (u "UNKNOWN_SELLER"))
  /\ (exists found, _search_first BUYER_PATTERNS text 1 = Ok found
                    /\ buyer_name inv = or_str found (u "UNKNOWN_BUYER"))
  /\ (exists found, _search_first DUE_DATE_PATTERNS text 1 = Ok found
                    /\ parse_date_maybe (or_str found []) = Ok (due_date inv))
  /\ buyer_tax_id inv = None
  /\ currency inv = _guess_currency text
  /\ _extract_totals text = Ok (net_total inv, tax_amount inv, gross_total inv)
  /\ line_items inv = [].
Proof.
  unfold parse_invoice_from_text.
  repeat match goal with
         | |- bind ?m _ = Ok _ -> _ => destruct m eqn:?; cbn [bind]; [|discriminate]
         | |- context [let '(_, _) := ?t in _] => destruct t as [[? ?] ?]
         end.
  match goal with |- match ?d with _ => _ end = _ -> _ => destruct d end;
    [|discriminate].
  intros H. injection H as <-. cbn.
  repeat split; eauto.
Qed.

(** The three names of an extracted invoice are not blank, and its currency
    is an allowed one. *)
Lemma extracted_names (text source : str) (inv : Invoice) :
  parse_invoice_from_text text source = Ok inv ->
  blank (invoice_number inv) = false
  /\ blank (seller_name inv) = false
  /\ blank (buyer_name inv) = false
  /\ str_in (currency inv) ALLOWED_CURRENCIES = true.
Proof.
  intros Hinv.
  destruct (parse_invoice_from_text_fields text source inv Hinv)
    as (_ & (number & Hnumber & Hn) & (seller & Hseller & Hs)
        & (buyer & Hbuyer & Hb) & _ & _ & Hcurrency & _).
  rewrite Hn, Hs, Hb. repeat split.
  - apply or_str_not_blank; [| reflexivity].
    intros s ->. now apply _search_first_stripped in Hnumber.
  - apply or_str_not_blank; [| reflexivity].
    intros s ->. now apply _search_first_stripped in Hseller.
  - apply or_str_not_blank; [| reflexivity].
    intros s ->. now apply _search_first_stripped in Hbuyer.
  - assert (Hin : In (_guess_currency text) [u "INR"; u "EUR"; u "USD"; u "GBP"]).
    { destruct (guess_from_In text CURRENCY_CODES) as [H | H];
        [left; exact H | exact H]. }
    rewrite Hcurrency. simpl in Hin.
    repeat (destruct Hin as [<- | Hin]; [reflexivity |]). destruct Hin.
Qed.

(** The tags that the per-record checks can give to an extracted invoice. *)
Lemma extracted_tags (text source : str) (inv : Invoice) (e : str) :
  parse_invoice_from_text text source = Ok inv ->
  In e (record_errors inv) ->
  In e [u "invalid_date: invoice_date_too_old";
        u "business_rule_failed: due_date_before_invoice_date";
        TOTALS_MISMATCH;
        u "anomaly: negative_totals"].
Proof.
  intros Hinv.
  destruct (extracted_names text source inv Hinv) as (Hbn & Hbs & Hbb & Hallowed).
  destruct (parse_invoice_from_text_fields text source inv Hinv)
    as (_ & _ & _ & _ & _ & _ & _ & _ & Hitems).
  rewrite record_errors_select. unfold record_mask, record_tags.
  rewrite Hbn, Hbs, Hbb, Hallowed, Hitems. cbn [select negb].
  unfold TOTALS_MISMATCH.
  repeat match goal with
         | |- context [if ?b then _ else _] => destruct b
         end; cbn [In]; tauto.
Qed.

End Extraction.

End ExtractionFacts.

Module ExtractorBehaviour.
Import Py PyFacts Datetime Dateutil Utils Schema Re Extractor Validator Spec Spec2.
Import UtilsFacts ExtractorFacts StripFacts TagFacts FloatFacts ExtractionFacts.

(** X6. [_search_first]: a string that it returns has no white space at
    either end (stripping it again changes nothing), and it returns [None]
    exactly when none of the patterns matches the text. *)
Theorem search_first_result {U : UnicodeData} (patterns : list regex)
  (text : str) (g : nat) :
  (forall s, _search_first patterns text g = Ok (Some s) -> strip s = s)
  /\ (_search_first patterns text g = Ok None
      <-> forall pat, In pat patterns -> search text pat = None).
Proof.
  split.
  - intros s. induction patterns as [|pat patterns IH]; simpl; [discriminate |].
    destruct (search text pat) as [m|]; [| exact IH].
    unfold group_stripped. destruct (group text m g) as [s0|]; simpl; [| discriminate].
    intros H. injection H as <-. apply strip_idem.
  - split.
    + induction patterns as [|pat patterns IH]; simpl; intros H p Hp; [destruct Hp |].
      destruct (search text pat) as [m|] eqn:E.
      * unfold group_stripped in H. destruct (group text m g); discriminate H.
      * destruct Hp as [<- | Hp]; [exact E | now apply IH].
    + induction patterns as [|pat patterns IH]; simpl; intros H; [reflexivity |].
      rewrite (H pat (or_introl eq_refl)). apply IH. intros p Hp. apply H. now right.
Qed.

(** X7. For every text, when the date parser agrees with dateutil on
    numeric dates, extraction returns an invoice with the given source
    file, no line items and no buyer tax id, whose invoice number, seller
    name and buyer name are not blank; the per-record checks can give it
    the two date tags, the totals-mismatch tag and the negative-totals tag,
    and no other. *)
Theorem extracted_invoice_checks {U : UnicodeData} {P : DateParser}
  (text source : str) :
  agrees_with_dateutil P ->
  exists inv,
    parse_invoice_from_text text source = Ok inv
    /\ source_file inv = source
    /\ line_items inv = []
    /\ buyer_tax_id inv = None
    /\ blank (invoice_number inv) = false
    /\ blank (seller_name inv) = false
    /\ blank (buyer_name inv) = false
    /\ forall e,
         In e (record_errors inv) ->
         In e [u "invalid_date: invoice_date_too_old";
               u "business_rule_failed: due_date_before_invoice_date";
               TOTALS_MISMATCH;
               u "anomaly: negative_totals"].
Proof.
  intros Hagrees.
  destruct (parse_invoice_from_text_result text source _ (default_date Hagrees))
    as (_ & _ & _ & inv & _ & _ & _ & Hinv & _).
  exists inv. split; [exact Hinv |].
  destruct (parse_invoice_from_text_fields text source inv Hinv)
    as (Hsource & _ & _ & _ & _ & Htaxid & _ & _ & Hitems).
  destruct (extracted_names text source inv Hinv) as (Hbn & Hbs & Hbb & _).
  repeat (split; [assumption |]).
  intros e. now apply (extracted_tags text source).
Qed.

(** The embedded part of dateutil as the parser, on a text with a seller. *)
Lemma extracted_invoice_checks_witness :
  exists inv,
    @parse_invoice_from_text ascii_only numeric_only
       (u "Seller: ACME Ltd") (u "a.pdf") = Ok inv
    /\ source_file inv = u "a.pdf"
    /\ line_items inv = []
    /\ blank (seller_name inv) = false.
Proof.
  destruct (@extracted_invoice_checks ascii_only numeric_only
              (u "Seller: ACME Ltd") (u "a.pdf") numeric_only_agrees)
    as (inv & Hinv & Hsource & Hitems & _ & _ & Hseller & _).
  exists inv. repeat split; assumption.
Defined.

(** X8. The fallback for the gross total: when the text gives no gross
    amount other than 0 and a positive net or tax amount, the gross total
    of the extracted invoice is the sum of its net total and its tax
    amount, and the invoice does not get the totals-mismatch tag. *)
Theorem fallback_totals_consistent {U : UnicodeData} {P : DateParser}
  (text source : str) (inv : Invoice) :
  parse_invoice_from_text text source = Ok inv ->
  PrimFloat.eqb (last_amount Gross text) zero = true ->
  PrimFloat.ltb zero (last_amount Net text)
  || PrimFloat.ltb zero (last_amount Tax text) = true ->
  net_total inv = last_amount Net text
  /\ tax_amount inv = last_amount Tax text
  /\ gross_total inv = PrimFloat.add (net_total inv) (tax_amount inv)
  /\ ~ In TOTALS_MISMATCH (record_errors inv).
Proof.
  intros Hinv Hgross Hpos.
  destruct (parse_invoice_from_text_fields text source inv Hinv)
    as (_ & _ & _ & _ & _ & _ & _ & Htotals & _).
  rewrite _extract_totals_result in Htotals. unfold gross_fallback in Htotals.
  rewrite Hgross, Hpos in Htotals. cbn [andb] in Htotals.
  pose proof (f_equal (fun r => match r with
                                | Ok (net, _, _) => net
                                | Raise _ => zero
                                end) Htotals) as Hnet.
  pose proof (f_equal (fun r => match r with
                                | Ok (_, tax, _) => tax
                                | Raise _ => zero
                                end) Htotals) as Htax.
  pose proof (f_equal (fun r => match r with
                                | Ok (_, _, gross) => gross
                                | Raise _ => zero
                                end) Htotals) as Hsum.
  cbv beta iota in Hnet, Htax, Hsum.
  assert (Hg : gross_total inv = PrimFloat.add (net_total inv) (tax_amount inv))
    by (rewrite <- Hnet, <- Htax; symmetry; exact Hsum).
  repeat split; [now symmetry | now symmetry | exact Hg |].
  intros Hin. unfold record_errors in Hin. apply in_app_or in Hin.
  destruct Hin as [Hin | Hin].
  - unfold _check_completeness in Hin.
    repeat (apply in_app_or in Hin; destruct Hin as [Hin | Hin];
            [apply when_In in Hin; destruct Hin as [Hin _];
             vm_compute in Hin; discriminate Hin |]).
    apply when_In in Hin. destruct Hin as [Hin _].
    vm_compute in Hin. discriminate Hin.
  - apply mismatch_tag in Hin. unfold totals_mismatch in Hin.
    rewrite Hg, within_tolerance_diag in Hin. discriminate Hin.
Qed.

(** A text with a net and a tax amount and no total. *)
Lemma fallback_totals_consistent_witness :
  exists inv,
    @parse_invoice_from_text ascii_only numeric_only
       (u "Subtotal 100.00" ++ newline ++ u "GST 18.00") (u "a.pdf") = Ok inv
    /\ gross_total inv = PrimFloat.add (net_total inv) (tax_amount inv).
Proof.
  eexists. split; [vm_compute; reflexivity |].
  apply (@fallback_totals_consistent ascii_only numeric_only
           (u "Subtotal 100.00" ++ newline ++ u "GST 18.00") (u "a.pdf"));
    vm_compute; reflexivity.
Defined.

End ExtractorBehaviour.

(* ===================================================================== *)
(** * Matching: currency codes and the invoice-number label            *)
(* ===================================================================== *)

Module MatchingFacts.
Import Py PyFacts Datetime Dateutil Utils Schema Re Extractor Validator Spec Spec2.
Import UtilsFacts ExtractorFacts StripFacts.

Lemma skipn_tail {A : Type} (i : nat) (l : list A) (c : A) (s : list A) :
  skipn i l = c :: s -> skipn (S i) l = s.
Proof.
  intros H. change (S i) with (1 + i). now rewrite <- skipn_skipn, H.
Qed.

Lemma starts_with_eqb (code s : str) : starts_with (map N.eqb code) s = prefixb code s.
Proof.
  revert s. induction code as [|x code IH]; intros [|y s]; simpl; try reflexivity.
  now rewrite IH.
Qed.

Lemma starts_with_app (ps qs : list (N -> bool)) (s : str) :
  starts_with (ps ++ qs) s
  = starts_with ps s && starts_with qs (skipn (length ps) s).
Proof.
  revert s. induction ps as [|p ps IH]; intros s; simpl; [reflexivity |].
  destruct s as [|c s]; [reflexivity |].
  now rewrite IH, andb_assoc.
Qed.

Lemma starts_with_length (ps : list (N -> bool)) (s : str) :
  starts_with ps s = true -> length ps <= length s.
Proof.
  revert s. induction ps as [|p ps IH]; intros [|c s]; simpl; try lia; try discriminate.
  intros H. apply andb_true_iff in H. destruct H as [_ H]. apply IH in H. lia.
Qed.

Lemma starts_with_firstn (ps : list (N -> bool)) (s : str) :
  starts_with ps s = true -> starts_with ps (firstn (length ps) s) = true.
Proof.
  revert s. induction ps as [|p ps IH]; intros [|c s]; simpl; try reflexivity;
    try discriminate.
  intros H. apply andb_true_iff in H. destruct H as [-> H]. now apply IH.
Qed.

Lemma starts_with_nth (ps : list (N -> bool)) (s : str) (j : nat) (p : N -> bool) :
  starts_with ps s = true -> nth_error ps j = Some p ->
  exists c, nth_error s j = Some c /\ p c = true.
Proof.
  revert s j. induction ps as [|q ps IH]; intros [|c s] [|j]; simpl; try discriminate.
  - intros H E. injection E as ->. apply andb_true_iff in H. exists c. tauto.
  - intros H E. apply andb_true_iff in H. destruct H as [_ H]. now apply (IH s j).
Qed.

Section Matching.
Context {U : UnicodeData}.
Variable text : str.

(** A sequence of single characters matches in one way at most. *)
Lemma rmatch_chars (ps : list (N -> bool)) :
  forall i caps,
    rmatch text (cat (map Chr ps)) i caps
    = if starts_with ps (skipn i text) then [(i + length ps, caps)] else [].
Proof.
  induction ps as [|p ps IH]; intros i caps.
  - simpl. now rewrite Nat.add_0_r.
  - destruct ps as [|q ps].
    + simpl. rewrite <- hd_error_skipn.
      destruct (skipn i text) as [|c s]; simpl; [reflexivity |].
      rewrite andb_true_r, Nat.add_1_r. reflexivity.
    + change (cat (map Chr (p :: q :: ps)))
        with (Seq (Chr p) (cat (map Chr (q :: ps)))).
      cbn [rmatch]. rewrite <- hd_error_skipn.
      destruct (skipn i text) as [|c s] eqn:E; simpl hd_error; cbv iota;
        [reflexivity |].
      change (starts_with (p :: q :: ps) (c :: s))
        with (p c && starts_with (q :: ps) s).
      destruct (p c); cbn [flat_map fst snd andb]; [| reflexivity].
      rewrite app_nil_r, IH, (skipn_tail _ _ _ _ E).
      destruct (starts_with (q :: ps) s); [| reflexivity].
      f_equal. f_equal. cbn [length]. lia.
Qed.

Lemma rmatch_lit (code : string) (i : nat) (caps : captures) :
  rmatch text (lit code) i caps
  = if prefixb (u code) (skipn i text) then [(i + length (u code), caps)] else [].
Proof.
  unfold lit. rewrite <- (map_map N.eqb Chr), rmatch_chars, starts_with_eqb.
  now rewrite length_map.
Qed.

Lemma rmatch_lit_i (label : string) (i : nat) (caps : captures) :
  rmatch text (lit_i label) i caps
  = if starts_with (map ci_eq (u label)) (skipn i text)
    then [(i + length (u label), caps)] else [].
Proof.
  unfold lit_i. rewrite <- (map_map ci_eq Chr), rmatch_chars.
  now rewrite length_map.
Qed.

Lemma rmatch_Seq (r1 r2 : regex) (i : nat) (caps : captures) (j : nat) (m : captures) :
  In (j, m) (rmatch text (Seq r1 r2) i caps)
  <-> exists k c, In (k, c) (rmatch text r1 i caps) /\ In (j, m) (rmatch text r2 k c).
Proof.
  cbn [rmatch]. rewrite in_flat_map. split.
  - intros ([k c] & H1 & H2). now exists k, c.
  - intros (k & c & H1 & H2). now exists (k, c).
Qed.

Lemma rmatch_Star (p : N -> bool) (i : nat) (caps : captures) (j : nat) (m : captures) :
  In (j, m) (rmatch text (Star p) i caps) -> m = caps /\ i <= j.
Proof.
  cbn [rmatch]. rewrite in_map_iff. intros (k & H & Hk). injection H as -> ->.
  split; [reflexivity |]. unfold downto in Hk. apply in_rev, in_seq in Hk. lia.
Qed.

Lemma rmatch_Plus (p : N -> bool) (i : nat) (caps : captures) (j : nat) (m : captures) :
  In (j, m) (rmatch text (Plus p) i caps) -> m = caps /\ i < j.
Proof.
  cbn [rmatch]. rewrite in_map_iff. intros (k & H & Hk). injection H as -> ->.
  split; [reflexivity |]. unfold downto in Hk. apply in_rev, in_seq in Hk. lia.
Qed.

Lemma rmatch_Chr (p : N -> bool) (i : nat) (caps : captures) (j : nat) (m : captures) :
  In (j, m) (rmatch text (Chr p) i caps) -> m = caps /\ j = S i.
Proof.
  cbn [rmatch]. destruct (nth_error text i) as [c|]; [| intros []].
  destruct (p c); [| intros []]. intros [H | []]. now injection H as -> ->.
Qed.

Lemma rmatch_Group (n : nat) (r : regex) (i : nat) (caps : captures) (j : nat)
  (m : captures) :
  In (j, m) (rmatch text (Group n r) i caps)
  -> exists c, In (j, c) (rmatch text r i caps) /\ m = (n, (i, j)) :: c.
Proof.
  cbn [rmatch]. rewrite in_map_iff. intros ([k c] & H & Hk). simpl in H.
  injection H as -> <-. now exists c.
Qed.

(** What [search] finds is one of the matches from some index. *)
Lemma first_match_In (r : regex) (starts : list nat) (m : captures) :
  first_match text r starts = Some m ->
  exists i j, In i starts /\ In (j, m) (rmatch text r i []).
Proof.
  induction starts as [|i starts IH]; simpl; [discriminate |].
  destruct (rmatch text r i []) as [|[j c] rest] eqn:E.
  - intros H. destruct (IH H) as (i' & j' & Hi & Hm). exists i', j'. tauto.
  - intros H. injection H as <-. exists i, j. rewrite E. simpl. tauto.
Qed.

Lemma first_match_None (r : regex) (starts : list nat) :
  first_match text r starts = None
  <-> forall i, In i starts -> rmatch text r i [] = [].
Proof.
  induction starts as [|i starts IH]; simpl.
  - split; [intros _ i [] | reflexivity].
  - destruct (rmatch text r i []) as [|m rest] eqn:E.
    + rewrite IH. split.
      * intros H k [<- | Hk]; [exact E | now apply H].
      * intros H k Hk. apply H. now right.
    + split; [discriminate |]. intros H.
      specialize (H i (or_introl eq_refl)). congruence.
Qed.

(** ** The currency codes *)

Lemma rmatch_currency (code : string) (i : nat) (caps : captures) :
  rmatch text (currency_pattern code) i caps
  = if at_boundary text i && prefixb (u code) (skipn i text)
       && at_boundary text (i + length (u code))
    then [(i + length (u code), caps)] else [].
Proof.
  unfold currency_pattern.
  change (cat [WordBoundary; lit code; WordBoundary])
    with (Seq WordBoundary (Seq (lit code) WordBoundary)).
  cbn [rmatch]. destruct (at_boundary text i); [| reflexivity].
  cbn [flat_map fst snd andb]. rewrite app_nil_r, rmatch_lit.
  destruct (prefixb (u code) (skipn i text)); [| reflexivity].
  cbn [flat_map fst snd andb]. now rewrite app_nil_r.
Qed.

Lemma word_at_prefix (code : str) (i j : nat) :
  forallb isword code = true ->
  prefixb code (skipn i text) = true ->
  j < length code ->
  word_at text (i + j) = true.
Proof.
  intros Hw Hp Hj. rewrite <- starts_with_eqb in Hp.
  destruct (nth_error code j) as [c|] eqn:E;
    [| apply nth_error_None in E; lia].
  destruct (starts_with_nth (map N.eqb code) (skipn i text) j (N.eqb c) Hp)
    as (c' & Hc' & Heq).
  { now rewrite nth_error_map, E. }
  apply N.eqb_eq in Heq. subst c'.
  rewrite nth_error_skipn in Hc'. unfold word_at. rewrite Hc'.
  rewrite forallb_forall in Hw. apply Hw. now apply nth_error_In in E.
Qed.

Lemma currency_stands_alone (code : string) (i : nat) :
  forallb isword (u code) = true ->
  u code <> [] ->
  at_boundary text i && prefixb (u code) (skipn i text)
  && at_boundary text (i + length (u code))
  = stands_alone (u code) text i.
Proof.
  intros Hw Hne. unfold stands_alone.
  destruct (prefixb (u code) (skipn i text)) eqn:Hp;
    [| now rewrite andb_false_r].
  assert (Hlen : 0 < length (u code)) by (destruct (u code); [congruence | simpl; lia]).
  pose proof (word_at_prefix (u code) i 0 Hw Hp Hlen) as Hfirst.
  pose proof (word_at_prefix (u code) i (length (u code) - 1) Hw Hp ltac:(lia)) as Hlast.
  rewrite Nat.add_0_r in Hfirst.
  unfold at_boundary. rewrite Hfirst.
  replace (i + length (u code)) with (S (i + (length (u code) - 1))) by lia.
  rewrite Hlast. cbn [andb]. rewrite !xorb_true_l, xorb_true_r.
  now rewrite andb_true_r.
Qed.

Lemma search_currency (code : string) :
  forallb isword (u code) = true ->
  u code <> [] ->
  match search text (currency_pattern code) with
  | Some _ => true
  | None => false
  end = occurs_as_word (u code) text.
Proof.
  intros Hw Hne. unfold search, occurs_as_word.
  destruct (first_match text (currency_pattern code) (seq 0 (S (length text))))
    as [m|] eqn:E.
  - symmetry. apply existsb_exists.
    apply first_match_In in E. destruct E as (i & j & Hi & Hm).
    exists i. split; [exact Hi |].
    rewrite rmatch_currency, currency_stands_alone in Hm by assumption.
    destruct (stands_alone (u code) text i); [reflexivity | destruct Hm].
  - symmetry. apply not_true_is_false. intros H.
    apply existsb_exists in H. destruct H as (i & Hi & Hs).
    rewrite first_match_None in E. specialize (E i Hi).
    rewrite rmatch_currency, currency_stands_alone, Hs in E by assumption.
    discriminate E.
Qed.

End Matching.

End MatchingFacts.

Module LabelFacts.
Import Py PyFacts Datetime Dateutil Utils Schema Re Extractor Validator Spec Spec2.
Import UtilsFacts ExtractorFacts StripFacts MatchingFacts.

(** Boolean comparisons of code points as propositions. *)
Ltac prop_of H :=
  repeat first
    [ rewrite orb_true_iff in H | rewrite andb_true_iff in H
    | rewrite orb_false_iff in H | rewrite andb_false_iff in H
    | rewrite N.eqb_eq in H | rewrite N.eqb_neq in H
    | rewrite N.leb_le in H | rewrite N.leb_gt in H ].

(** A character that matches a pattern character other than white space,
    whatever the case, is not white space. *)
Lemma ci_eq_nonspace (p c : N) :
  isspace p = false -> ci_eq p c = true -> isspace c = false.
Proof.
  intros Hp Hc. apply not_true_is_false. intros Hs.
  unfold ci_eq, ascii_lower in Hc. cbv zeta in Hc. unfold isspace in Hp, Hs.
  destruct ((65 <=? c)%N && (c <=? 90)%N) eqn:E1;
    destruct ((65 <=? p)%N && (p <=? 90)%N) eqn:E2;
    prop_of Hc; prop_of Hs; prop_of Hp; prop_of E1; prop_of E2; lia.
Qed.

Lemma starts_with_In (ps : list (N -> bool)) (s : str) (c : N) :
  starts_with ps s = true -> length s = length ps -> In c s ->
  exists p, In p ps /\ p c = true.
Proof.
  revert s. induction ps as [|p ps IH]; intros [|x s]; simpl; try discriminate;
    try tauto.
  intros H Hlen Hin. apply andb_true_iff in H. destruct H as [Hx H].
  destruct Hin as [<- | Hin].
  - exists p. tauto.
  - destruct (IH s H ltac:(lia) Hin) as (q & Hq & Hc). exists q. tauto.
Qed.

Lemma label_nonspace (label s : str) :
  In label NUMBER_LABELS -> same_ci label s = true ->
  s <> [] /\ strip s = s.
Proof.
  intros Hlabel Hsame. unfold same_ci in Hsame.
  apply andb_true_iff in Hsame. destruct Hsame as [Hlen Hs].
  apply Nat.eqb_eq in Hlen. split.
  - intros ->. simpl in Hlabel.
    repeat (destruct Hlabel as [<- | Hlabel]; [discriminate Hlen |]).
    destruct Hlabel.
  - apply strip_nonspace. intros c Hc.
    destruct (starts_with_In _ _ c Hs ltac:(now rewrite length_map) Hc)
      as (p & Hp & Hpc).
    apply in_map_iff in Hp. destruct Hp as (x & <- & Hx).
    apply (ci_eq_nonspace x c); [| exact Hpc].
    simpl in Hlabel.
    repeat (destruct Hlabel as [<- | Hlabel];
            [simpl in Hx;
             repeat (destruct Hx as [<- | Hx]; [reflexivity |]); destruct Hx |]).
    destruct Hlabel.
Qed.

Section Matching.
Context {U : UnicodeData}.
Variable text : str.

Lemma In_rmatch_lit_i (label : string) (i : nat) (caps : captures) (j : nat)
  (m : captures) :
  In (j, m) (rmatch text (lit_i label) i caps) ->
  starts_with (map ci_eq (u label)) (skipn i text) = true
  /\ j = i + length (u label) /\ m = caps.
Proof.
  rewrite rmatch_lit_i.
  destruct (starts_with (map ci_eq (u label)) (skipn i text)); [| intros []].
  intros [H | []]. injection H as <- <-. auto.
Qed.

(** What the first group of [Invoice\s*(No\.?|Number|#)...] holds. *)
Lemma In_rmatch_labels (a b : nat) (caps m : captures) :
  In (b, m)
     (rmatch text
        (Alt (cat [lit_i "No"; Opt (lit_i ".")])
             (Alt (lit_i "Number") (lit_i "#"))) a caps) ->
  m = caps
  /\ exists label,
       In label NUMBER_LABELS
       /\ starts_with (map ci_eq label) (skipn a text) = true
       /\ b = a + length label.
Proof.
  change (cat [lit_i "No"; Opt (lit_i ".")]) with (Seq (lit_i "No") (Opt (lit_i "."))).
  cbn [rmatch]. intros H. apply in_app_or in H. destruct H as [H | H].
  - apply in_flat_map in H. destruct H as ([k c] & Hno & H). cbn [fst snd] in H.
    apply In_rmatch_lit_i in Hno. destruct Hno as (Hno & -> & ->).
    apply in_app_or in H. destruct H as [H | H].
    + apply In_rmatch_lit_i in H. destruct H as (Hdot & -> & ->).
      split; [reflexivity |]. exists (u "No."). split; [simpl; tauto |].
      split; [| simpl; lia].
      change (map ci_eq (u "No.")) with (map ci_eq (u "No") ++ map ci_eq (u ".")).
      rewrite starts_with_app, Hno, skipn_skipn. simpl length.
      now rewrite (Nat.add_comm 2 a).
    + destruct H as [H | []]. injection H as <- <-.
      split; [reflexivity |]. exists (u "No"). split; [simpl; tauto |].
      split; [exact Hno | reflexivity].
  - apply in_app_or in H. destruct H as [H | H];
      apply In_rmatch_lit_i in H; destruct H as (Hl & -> & ->);
      (split; [reflexivity |]).
    + exists (u "Number"). split; [simpl; tauto |]. now split.
    + exists (u "#"). split; [simpl; tauto |]. now split.
Qed.

Lemma In_rmatch_invoice_label (i j : nat) (m : captures) :
  In (j, m) (rmatch text (nth 0 INVOICE_NO_PATTERNS Eps) i []) ->
  exists a label,
    In label NUMBER_LABELS
    /\ starts_with (map ci_eq label) (skipn a text) = true
    /\ span_of 1 m = Some (a, a + length label).
Proof.
  change (nth 0 INVOICE_NO_PATTERNS Eps)
    with (Seq (lit_i "Invoice")
            (Seq ws
               (Seq (Group 1 (Alt (cat [lit_i "No"; Opt (lit_i ".")])
                                  (Alt (lit_i "Number") (lit_i "#"))))
                  (Seq ws (Seq (Chr colon_dash) (Seq ws (Group 2 (Plus nonspace)))))))).
  intros H.
  apply rmatch_Seq in H. destruct H as (k1 & c1 & H1 & H).
  apply In_rmatch_lit_i in H1. destruct H1 as (_ & _ & ->).
  apply rmatch_Seq in H. destruct H as (a & c2 & H2 & H).
  apply rmatch_Star in H2. destruct H2 as [-> _].
  apply rmatch_Seq in H. destruct H as (b & c3 & H3 & H).
  apply rmatch_Group in H3. destruct H3 as (c & H3 & ->).
  apply In_rmatch_labels in H3. destruct H3 as (-> & label & Hlabel & Hstarts & ->).
  apply rmatch_Seq in H. destruct H as (k4 & c4 & H4 & H).
  apply rmatch_Star in H4. destruct H4 as [-> _].
  apply rmatch_Seq in H. destruct H as (k5 & c5 & H5 & H).
  apply rmatch_Chr in H5. destruct H5 as [-> _].
  apply rmatch_Seq in H. destruct H as (k6 & c6 & H6 & H).
  apply rmatch_Star in H6. destruct H6 as [-> _].
  apply rmatch_Group in H. destruct H as (c & H & ->).
  apply rmatch_Plus in H. destruct H as [-> _].
  exists a, label. now repeat split.
Qed.

End Matching.

End LabelFacts.

Module MatchingBehaviour.
Import Py PyFacts Datetime Dateutil Utils Schema Re Extractor Validator Spec Spec2.
Import UtilsFacts ExtractorFacts StripFacts MatchingFacts LabelFacts ExtractionFacts.

(** X9. [_guess_currency] goes by a fixed priority and not by the place
    in the text: it returns INR when INR stands in the text as a word of
    its own, in capitals; otherwise EUR when EUR does; otherwise USD, then
    GBP; and INR when none of the four does. *)
Theorem guess_currency_priority {U : UnicodeData} (text : str) :
  _guess_currency text
  = if occurs_as_word (u "INR") text then u "INR"
    else if occurs_as_word (u "EUR") text then u "EUR"
    else if occurs_as_word (u "USD") text then u "USD"
    else if occurs_as_word (u "GBP") text then u "GBP"
    else u "INR".
Proof.
  unfold _guess_currency, CURRENCY_CODES. cbn [guess_from].
  rewrite <- (search_currency text "INR"), <- (search_currency text "EUR"),
    <- (search_currency text "USD"), <- (search_currency text "GBP");
    try reflexivity; try discriminate.
  destruct (search text (currency_pattern "INR")); [reflexivity |].
  destruct (search text (currency_pattern "EUR")); [reflexivity |].
  destruct (search text (currency_pattern "USD")); [reflexivity |].
  destruct (search text (currency_pattern "GBP")); reflexivity.
Qed.

(** X10. When the first invoice-number pattern matches the text, the
    string taken from it is the label word of the match ([No], [No.],
    [Number] or [#], in the case in which the text has it) and not what
    follows the label: that word is what [_search_first] returns and what
    an extracted invoice has as its invoice number. *)
Theorem invoice_number_is_label {U : UnicodeData} (text : str) (m : captures) :
  search text (nth 0 INVOICE_NO_PATTERNS Eps) = Some m ->
  exists label s,
    In label NUMBER_LABELS
    /\ same_ci label s = true
    /\ _search_first INVOICE_NO_PATTERNS text 1 = Ok (Some s)
    /\ forall (P : DateParser) (source : str) (inv : Invoice),
         parse_invoice_from_text text source = Ok inv -> invoice_number inv = s.
Proof.
  intros Hsearch.
  pose proof Hsearch as Hm. unfold search in Hm.
  apply first_match_In in Hm. destruct Hm as (i & j & _ & Hm).
  apply In_rmatch_invoice_label in Hm.
  destruct Hm as (a & label & Hlabel & Hstarts & Hspan).
  set (s := firstn (length label) (skipn a text)).
  assert (Hsame : same_ci label s = true).
  { unfold same_ci, s. apply andb_true_iff. split.
    - apply Nat.eqb_eq. rewrite length_firstn.
      apply starts_with_length in Hstarts. rewrite length_map in Hstarts. lia.
    - rewrite <- (length_map ci_eq label). now apply starts_with_firstn. }
  destruct (label_nonspace label s Hlabel Hsame) as [Hne Hstrip].
  assert (Hfirst : _search_first INVOICE_NO_PATTERNS text 1 = Ok (Some s)).
  { unfold INVOICE_NO_PATTERNS in *. cbn [nth] in Hsearch. cbn [_search_first].
    rewrite Hsearch. unfold group_stripped, group. rewrite Hspan.
    replace (a + length label - a) with (length label) by lia.
    fold s. cbn [bind]. now rewrite Hstrip. }
  exists label, s. repeat split; try assumption.
  intros P source inv Hinv.
  destruct (parse_invoice_from_text_fields text source inv Hinv)
    as (_ & (found & Hfound & Hnumber) & _).
  rewrite Hfirst in Hfound. injection Hfound as <-.
  rewrite Hnumber. destruct s; [congruence | reflexivity].
Qed.

(** A text with a labelled invoice number. *)
Lemma invoice_number_is_label_witness :
  exists label s,
    In label NUMBER_LABELS
    /\ same_ci label s = true
    /\ @_search_first ascii_only INVOICE_NO_PATTERNS (u "Invoice No: A-17") 1
       = Ok (Some s).
Proof.
  destruct (@invoice_number_is_label ascii_only (u "Invoice No: A-17")
              [(2, (12, 16)); (1, (8, 10))] ltac:(vm_compute; reflexivity))
    as (label & s & Hlabel & Hsame & Hfirst & _).
  exists label, s. repeat split; assumption.
Defined.

End MatchingBehaviour.

(* ===================================================================== *)
(** * Further properties of the scalar parsers                         *)
(* ===================================================================== *)

Module AmountFacts.
Import Py PyFacts Datetime Dateutil Utils Spec2 UtilsFacts StripFacts.

Lemma has_In (c : N) (s : str) : has c s = true <-> In c s.
Proof.
  unfold has. rewrite existsb_exists. split.
  - intros (x & Hx & Heq). apply N.eqb_eq in Heq. now subst.
  - intros H. exists c. split; [exact H | apply N.eqb_refl].
Qed.

Lemma has_count (c : N) (s : str) : has c s = true <-> 0 < count_occ N.eq_dec s c.
Proof.
  rewrite has_In. apply count_occ_In.
Qed.

Lemma has_same (c : N) (s t : str) :
  count_occ N.eq_dec s c = count_occ N.eq_dec t c -> has c s = has c t.
Proof.
  intros H. destruct (has c t) eqn:E.
  - apply has_count. apply has_count in E. lia.
  - apply not_true_is_false. intros Hs. apply has_count in Hs.
    rewrite H in Hs. apply has_count in Hs. congruence.
Qed.

Lemma replace1_id (old : N) (new s : str) :
  has old s = false -> replace1 old new s = s.
Proof.
  intros H. pose proof (has_false _ _ H) as Hn. clear H.
  induction s as [|c s IH]; [reflexivity |].
  unfold replace1 in *. simpl.
  destruct (N.eqb_spec c old) as [-> | _].
  - exfalso. apply Hn. now left.
  - simpl. f_equal. apply IH. intros Hin. apply Hn. now right.
Qed.

Lemma count_occ_replace1 (old : N) (new s : str) (c : N) :
  c <> old ->
  count_occ N.eq_dec (replace1 old new s) c
  = count_occ N.eq_dec s c
    + count_occ N.eq_dec s old * count_occ N.eq_dec new c.
Proof.
  intros Hc. induction s as [|x s IH]; [reflexivity |].
  unfold replace1 in *. cbn [flat_map]. rewrite count_occ_app, IH.
  destruct (N.eqb_spec x old) as [-> | Hx]; cbn [count_occ];
    repeat match goal with
           | |- context [N.eq_dec ?a ?b] => destruct (N.eq_dec a b)
           end; try congruence; simpl; lia.
Qed.

Lemma count_occ_replace1_old (old : N) (new s : str) :
  ~ In old new -> count_occ N.eq_dec (replace1 old new s) old = 0.
Proof.
  intros Hn. apply count_occ_not_In. intros H.
  apply replace1_In in H. destruct H as [[_ H] | H]; [congruence | contradiction].
Qed.

Lemma count_occ_filter {A : Type} (dec : forall x y : A, {x = y} + {x <> y})
  (f : A -> bool) (l : list A) (c : A) :
  f c = true -> count_occ dec (filter f l) c = count_occ dec l c.
Proof.
  intros Hc. induction l as [|x l IH]; [reflexivity |].
  simpl. destruct (dec x c) as [-> | Hx].
  - rewrite Hc. simpl. destruct (dec c c); [now rewrite IH | contradiction].
  - destruct (f x); simpl; [| exact IH].
    destruct (dec x c); [contradiction | exact IH].
Qed.

Lemma filter_all {A : Type} (f : A -> bool) (l : list A) :
  (forall x, In x l -> f x = true) -> filter f l = l.
Proof.
  induction l as [|x l IH]; intros H; [reflexivity |].
  simpl. rewrite (H x (or_introl eq_refl)). f_equal. apply IH.
  intros y Hy. apply H. now right.
Qed.

Section Amount.
Context {U : UnicodeData}.

Lemma keep_replace1 (new value : str) :
  keep_amount_chars new = new ->
  keep_amount_chars (replace1 44 new value)
  = replace1 44 new (keep_amount_chars value).
Proof.
  intros Hnew. unfold replace1.
  induction value as [|x value IH]; [reflexivity |].
  cbn [flat_map]. unfold keep_amount_chars in *. rewrite filter_app, IH.
  cbn [filter]. cbv beta. destruct (N.eq_dec x 44) as [-> | Hx].
  - replace (isdecimal 44 || (44 =? 44)%N || (44 =? 46)%N || (44 =? 45)%N)
      with true by reflexivity.
    cbn [flat_map]. change (44 =? 44)%N with true. cbv iota. now rewrite Hnew.
  - apply N.eqb_neq in Hx. rewrite !Hx. cbn [filter]. cbv beta. rewrite ?Hx.
    destruct (isdecimal x || false || (x =? 46)%N || (x =? 45)%N);
      cbn [flat_map app]; rewrite ?Hx; reflexivity.
Qed.

Lemma count_occ_keep (value : str) (c : N) :
  keep_amount_chars [c] = [c] ->
  count_occ N.eq_dec (keep_amount_chars value) c = count_occ N.eq_dec value c.
Proof.
  intros Hc. unfold keep_amount_chars in *. apply count_occ_filter.
  cbn [filter] in Hc.
  destruct (isdecimal c || (c =? 44)%N || (c =? 46)%N || (c =? 45)%N);
    [reflexivity | discriminate Hc].
Qed.

(** The digits read by [digits_span] hold no point. *)
Lemma digits_span_points (s : str) (ds : list N) (rest : str) :
  digits_span s = (ds, rest) ->
  count_occ N.eq_dec s 46%N = count_occ N.eq_dec rest 46%N.
Proof.
  revert ds rest. induction s as [|c s IH]; intros ds rest; simpl.
  - intros H. now injection H as _ <-.
  - destruct (decimal c) as [d|] eqn:Hd.
    + destruct (digits_span s) as [ds' rest'] eqn:E.
      intros H. injection H as _ <-.
      destruct (N.eq_dec c 46%N) as [-> | Hc]; [discriminate Hd |].
      now apply (IH ds').
    + intros H. now injection H as _ <-.
Qed.

(** [float] rejects a string with two points. *)
Lemma py_float_two_points (s : str) :
  2 <= count_occ N.eq_dec s 46%N -> py_float s = Raise ValueError.
Proof.
  intros Hs. unfold py_float.
  assert (Hbody : exists neg body,
             match s with
             | 45%N :: r => (true, r)
             | _ => (false, s)
             end = (neg, body)
             /\ 2 <= count_occ N.eq_dec body 46%N).
  { destruct s as [|c r]; [simpl in Hs; lia |].
    destruct (N.eq_dec c 45) as [-> | Hc].
    - exists true, r. split; [reflexivity |].
      rewrite count_occ_cons_neq in Hs by discriminate. exact Hs.
    - exists false, (c :: r). split; [| exact Hs].
      destruct c as [|p]; [reflexivity |].
      repeat (destruct p as [p|p|]; try reflexivity).
      contradiction. }
  destruct Hbody as (neg & body & -> & Hbody).
  destruct (digits_span body) as [ip rest] eqn:E.
  rewrite (digits_span_points _ _ _ E) in Hbody.
  destruct rest as [|c r]; [simpl in Hbody; lia |].
  destruct (N.eq_dec c 46%N) as [-> | Hc].
  - rewrite count_occ_cons_eq in Hbody by reflexivity.
    destruct (digits_span r) as [fp rest'] eqn:E'.
    rewrite (digits_span_points _ _ _ E') in Hbody.
    destruct rest' as [|c' r']; [simpl in Hbody; lia | reflexivity].
  - destruct c as [|p]; [reflexivity |].
    repeat (destruct p as [p|p|]; try reflexivity).
    contradiction.
Qed.

(** When no decimal digit is a white-space character, nothing is left for
    [strip] to remove after the cleaning. *)
Lemma strip_keep (value : str) :
  (forall c, isdecimal c = true -> isspace c = false) ->
  strip (keep_amount_chars value) = keep_amount_chars value.
Proof.
  intros Hdigit. apply strip_nonspace. intros c Hc.
  unfold keep_amount_chars in Hc. apply filter_In in Hc. destruct Hc as [_ Hc].
  repeat (apply orb_true_iff in Hc; destruct Hc as [Hc | Hc]);
    [now apply Hdigit | | |];
    apply N.eqb_eq in Hc; subst c; reflexivity.
Qed.

Lemma parse_amount_maybe_nonempty (value : str) :
  strip (keep_amount_chars value) <> [] ->
  parse_amount_maybe value
  = Ok (match py_float (normalize_separators (strip (keep_amount_chars value))) with
        | Ok x => Some x
        | Raise _ => None
        end).
Proof.
  intros H. rewrite parse_amount_maybe_result.
  destruct (strip (keep_amount_chars value)); [congruence | reflexivity].
Qed.

Lemma has_nonempty (c : N) (s : str) : has c s = true -> s <> [].
Proof. intros H ->. discriminate H. Qed.

End Amount.

(** In ASCII the decimal digits are not white space. *)
Lemma ascii_digits_nonspace (c : N) :
  @isdecimal ascii_only c = true -> isspace c = false.
Proof.
  unfold isdecimal, decimal. simpl ucd_decimal.
  destruct (c <? 128)%N; [| discriminate].
  destruct ((48 <=? c)%N && (c <=? 57)%N) eqn:E; [| discriminate].
  intros _. apply andb_true_iff in E. destruct E as [E1 E2].
  apply N.leb_le in E1, E2. unfold isspace.
  repeat match goal with
         | |- context [(?a <=? ?b)%N] => destruct (N.leb_spec a b); try lia
         | |- context [(?a =? ?b)%N] => destruct (N.eqb_spec a b); try lia
         end;
    reflexivity.
Qed.

End AmountFacts.

Module UtilsBehaviour.
Import Py PyFacts Datetime Dateutil Utils Spec2 UtilsFacts StripFacts AmountFacts.

(** X11. The separators of an amount, when no decimal digit is a
    white-space character: in a value with a point the commas are ignored;
    in a value without a point every comma is read as a point; so a value
    without a point and with two commas or more, such as 1,234,567, gives
    [None]. *)
Theorem amount_separators {U : UnicodeData} (value : str) :
  (forall c, isdecimal c = true -> isspace c = false) ->
  (has 46 value = true ->
   parse_amount_maybe value = parse_amount_maybe (replace1 44 [] value))
  /\ (has 46 value = false ->
      parse_amount_maybe value = parse_amount_maybe (replace1 44 (u ".") value))
  /\ (has 46 value = false ->
      2 <= count_occ N.eq_dec value 44%N ->
      parse_amount_maybe value = Ok None).
Proof.
  intros Hdigit.
  set (k := keep_amount_chars value).
  assert (H46 : has 46 k = has 46 value)
    by (apply has_same, count_occ_keep; reflexivity).
  assert (C44 : count_occ N.eq_dec k 44%N = count_occ N.eq_dec value 44%N)
    by (apply count_occ_keep; reflexivity).
  assert (Hk : strip (keep_amount_chars value) = k) by now apply strip_keep.
  assert (Hsame : forall new,
             keep_amount_chars new = new ->
             ~ In 44%N new ->
             (has 44 k = true -> has 46 (replace1 44 new k) = true) ->
             (has 44 k = true -> normalize_separators k = replace1 44 new k) ->
             parse_amount_maybe value = parse_amount_maybe (replace1 44 new value)).
  { intros new Hkeep Hnew Hpoint Hnorm.
    assert (Hk' : strip (keep_amount_chars (replace1 44 new value))
                  = replace1 44 new k).
    { rewrite strip_keep by exact Hdigit. now apply keep_replace1. }
    destruct (has 44 k) eqn:H44.
    - rewrite (parse_amount_maybe_nonempty value),
        (parse_amount_maybe_nonempty (replace1 44 new value)).
      + rewrite Hk, Hk', (Hnorm eq_refl).
        assert (Hno : has 44 (replace1 44 new k) = false).
        { apply not_true_is_false. intros H. apply has_count in H.
          rewrite (count_occ_replace1_old 44 new k Hnew) in H. lia. }
        unfold normalize_separators. now rewrite Hno.
      + rewrite Hk'. apply (has_nonempty 46). now apply Hpoint.
      + rewrite Hk. now apply (has_nonempty 44).
    - rewrite !parse_amount_maybe_result, Hk, Hk'.
      now rewrite (replace1_id 44 new k H44). }
  split; [| split].
  - intros Hpoint. rewrite <- H46 in Hpoint. apply Hsame.
    + reflexivity.
    + intros [].
    + intros _. rewrite <- Hpoint. apply has_same.
      rewrite count_occ_replace1 by discriminate. simpl. lia.
    + intros H44. unfold normalize_separators. now rewrite H44, Hpoint.
  - intros Hpoint. rewrite <- H46 in Hpoint. apply Hsame.
    + reflexivity.
    + intros [H | []]. discriminate H.
    + intros H44. apply has_count. apply has_count in H44.
      rewrite count_occ_replace1 by discriminate. simpl. lia.
    + intros H44. unfold normalize_separators. now rewrite H44, Hpoint.
  - intros Hpoint Hcommas. rewrite <- H46 in Hpoint. rewrite <- C44 in Hcommas.
    assert (H44 : has 44 k = true) by (apply has_count; lia).
    rewrite parse_amount_maybe_nonempty
      by (rewrite Hk; now apply (has_nonempty 44)).
    rewrite Hk. unfold normalize_separators. rewrite H44, Hpoint. cbn [andb negb].
    rewrite py_float_two_points; [reflexivity |].
    rewrite count_occ_replace1 by discriminate. simpl. lia.
Qed.

(** An amount with two thousands separators and no decimals. *)
Lemma amount_separators_witness :
  @parse_amount_maybe ascii_only (u "1,234,567") = Ok None
  /\ @parse_amount_maybe ascii_only (u "12,5") = @parse_amount_maybe ascii_only (u "12.5").
Proof.
  destruct (@amount_separators ascii_only (u "1,234,567") ascii_digits_nonspace)
    as (_ & _ & H).
  split; [apply H; [reflexivity | simpl; lia] |].
  apply (@amount_separators ascii_only (u "12,5") ascii_digits_nonspace).
  reflexivity.
Defined.

(** X12. [parse_date_maybe] does not see the white space around a date,
    and on a string of white space alone it returns [None] without
    calling the parser. *)
Theorem date_surrounding_space {P : DateParser} (a s b : str) :
  forallb isspace a = true ->
  forallb isspace b = true ->
  parse_date_maybe (a ++ s ++ b) = parse_date_maybe s
  /\ parse_date_maybe a = Ok None.
Proof.
  intros Ha Hb. rewrite forallb_forall in Ha, Hb.
  rewrite !parse_date_maybe_result. split.
  - now rewrite (strip_blanks a s b Ha Hb).
  - now rewrite (strip_all_blanks a Ha).
Qed.

(** A date between a tab and a line end. *)
Lemma date_surrounding_space_witness :
  @parse_date_maybe numeric_only ([9%N; 32%N] ++ u "10/01/2024" ++ [13%N; 10%N])
  = @parse_date_maybe numeric_only (u "10/01/2024")
  /\ @parse_date_maybe numeric_only [9%N; 32%N] = Ok None.
Proof.
  apply (@date_surrounding_space numeric_only); reflexivity.
Defined.

End UtilsBehaviour.

(* ===================================================================== *)
(** * Folders and commands                                             *)
(* ===================================================================== *)

Module PipelineFacts.
Import Py PyFacts Datetime Dateutil Utils Schema Re Extractor Validator Spec Spec2 Cli.
Import ValidatorFacts UtilsFacts ExtractorFacts ReportFacts ExtractionFacts.

Lemma positive_length_existsb {A : Type} (f : A -> bool) (l : list A) :
  (0 <? Z.of_nat (length (filter f l)))%Z = existsb f l.
Proof.
  induction l as [|x l IH]; [reflexivity |].
  simpl. destruct (f x); [| exact IH].
  simpl. apply Z.ltb_lt. lia.
Qed.

(** The report of a batch and the exit code that goes with it. *)
Lemma write_and_exit_report (invoices : list Invoice) :
  exists rep,
    validate_invoices invoices = Ok rep
    /\ results rep = map (entry_of invoices) invoices
    /\ write_and_exit rep
       = {| ended := if existsb (fun inv => negb (passes inv)) invoices
                     then Exit 2 else Returned;
            report_written := Some rep |}.
Proof.
  destruct (validate_invoices_report invoices)
    as (rep & Hrep & Hres & _ & Hinvalid & _).
  exists rep. split; [exact Hrep |]. split; [exact Hres |].
  unfold write_and_exit.
  now rewrite Hinvalid, Hres, invalid_entries, positive_length_existsb.
Qed.

Section Directory.
Context {U : UnicodeData} {P : DateParser}.

Lemma extract_loop (files : list pdf_file) :
  agrees_with_dateutil P ->
  forall acc,
  exists invoices,
    for_each extract_file files acc = Ok (acc ++ invoices)
    /\ Forall2 (fun pdf inv =>
                  parse_invoice_from_text (_extract_text_from_pdf (snd pdf)) (fst pdf)
                  = Ok inv) files invoices.
Proof.
  intros Hagrees. induction files as [|pdf files IH]; intros acc.
  - exists []. split; [simpl; now rewrite app_nil_r | constructor].
  - destruct (parse_invoice_from_text_result
                (_extract_text_from_pdf (snd pdf)) (fst pdf) _ (default_date Hagrees))
      as (_ & _ & _ & inv & _ & _ & _ & Hinv & _).
    destruct (IH (acc ++ [inv])) as (invoices & Hloop & Hall).
    exists (inv :: invoices). split; [| now constructor].
    cbn [for_each]. unfold extract_file at 1. rewrite Hinv. cbn [bind].
    rewrite Hloop, <- app_assoc. reflexivity.
Qed.

Lemma extracted_sources (files : list pdf_file) (invoices : list Invoice) :
  Forall2 (fun pdf inv =>
             parse_invoice_from_text (_extract_text_from_pdf (snd pdf)) (fst pdf)
             = Ok inv) files invoices ->
  map source_file invoices = map fst files.
Proof.
  induction 1 as [|pdf inv files invoices Hinv _ IH]; [reflexivity |].
  simpl. rewrite IH. f_equal.
  now destruct (parse_invoice_from_text_fields _ _ _ Hinv) as (-> & _).
Qed.

End Directory.

End PipelineFacts.

Module PipelineBehaviour.
Import Py PyFacts Datetime Dateutil Utils Schema Re Extractor Validator Spec Spec2 Cli.
Import ValidatorFacts UtilsFacts ExtractorFacts ReportFacts ExtractionFacts PipelineFacts.

(** X13. [extract_from_dir], when the date parser agrees with dateutil on
    numeric dates: for every list of files it returns one invoice per
    file, in the order of the files, each extracted from the text of its
    file (the texts of the pages joined by line feeds, a page without text
    counting as empty) and carrying the name of its file. *)
Theorem extract_from_dir_files {U : UnicodeData} {P : DateParser}
  (files : list pdf_file) :
  agrees_with_dateutil P ->
  exists invoices,
    extract_from_dir files = Ok invoices
    /\ length invoices = length files
    /\ map source_file invoices = map fst files
    /\ Forall2 (fun pdf inv =>
                  parse_invoice_from_text (_extract_text_from_pdf (snd pdf)) (fst pdf)
                  = Ok inv) files invoices.
Proof.
  intros Hagrees.
  destruct (extract_loop files Hagrees []) as (invoices & Hloop & Hall).
  exists invoices. split; [exact Hloop |].
  pose proof (extracted_sources files invoices Hall) as Hsources.
  split; [| split; assumption].
  now rewrite <- (length_map source_file), Hsources, length_map.
Qed.

(** A folder with a file of two pages, the second without text. *)
Lemma extract_from_dir_files_witness :
  exists invoices,
    @extract_from_dir ascii_only numeric_only
      [(u "a.pdf", [Some (u "Seller: ACME Ltd"); None])] = Ok invoices
    /\ length invoices = 1
    /\ map source_file invoices = [u "a.pdf"].
Proof.
  destruct (@extract_from_dir_files ascii_only numeric_only
              [(u "a.pdf", [Some (u "Seller: ACME Ltd"); None])]
              numeric_only_agrees)
    as (invoices & Hdir & Hlen & Hsources & _).
  exists invoices. repeat split; assumption.
Defined.

(** X14. The command [validate]: without the input file it ends with exit
    code 1 and writes no report; when reading or parsing the file raises,
    that ends the run and no report is written; otherwise
    [validate_invoices] does not raise and its report is written, and then
    the run ends in the exception of [_print_summary] when printing the
    summary raises, and else with exit code 2 exactly when some invoice has
    a tag from the per-record checks, so that a batch whose only findings
    are duplicates ends with exit code 0. *)
Theorem validate_exit_code {C : Console} (invoices : list Invoice) :
  validate Absent
  = {| validate_ended := inl (Exit 1); validate_report := None |}
  /\ validate Malformed
     = {| validate_ended := inr LoadError; validate_report := None |}
  /\ exists rep,
       validate_invoices invoices = Ok rep
       /\ validate (Invoices invoices)
          = {| validate_ended :=
                 if _print_summary_returns (summary rep)
                 then inl (if existsb (fun inv => negb (passes inv)) invoices
                           then Exit 2 else Returned)
                 else inr PrintError;
               validate_report := Some rep |}.
Proof.
  split; [reflexivity |]. split; [reflexivity |].
  destruct (validate_invoices_report invoices)
    as (rep & Hrep & Hres & _ & Hinvalid & _).
  exists rep. split; [exact Hrep |].
  unfold validate. rewrite Hrep.
  rewrite Hinvalid, Hres, invalid_entries, positive_length_existsb.
  now destruct (_print_summary_returns (summary rep)).
Qed.

(** X15. The command [full-run], when the date parser agrees with
    dateutil on numeric dates: it never raises; it writes a report with
    one result per file, in order, under the name of the file; the only
    tags in the report are the two date tags, the totals-mismatch tag, the
    negative-totals tag and the duplicate tag; and it ends with exit code 2
    exactly when an extracted invoice has one of the first four. *)
Theorem full_run_report {U : UnicodeData} {P : DateParser} (files : list pdf_file) :
  agrees_with_dateutil P ->
  exists invoices rep,
    extract_from_dir files = Ok invoices
    /\ validate_invoices invoices = Ok rep
    /\ full_run files
       = Ok {| ended := if existsb (fun inv => negb (passes inv)) invoices
                        then Exit 2 else Returned;
               report_written := Some rep |}
    /\ map res_source_file (results rep) = map fst files
    /\ forall r e,
         In r (results rep) -> In e (errors r) ->
         In e [u "invalid_date: invoice_date_too_old";
               u "business_rule_failed: due_date_before_invoice_date";
               TOTALS_MISMATCH;
               u "anomaly: negative_totals";
               DUPLICATE].
Proof.
  intros Hagrees.
  destruct (extract_loop files Hagrees []) as (invoices & Hloop & Hall).
  destruct (write_and_exit_report invoices) as (rep & Hrep & Hres & Hexit).
  exists invoices, rep.
  split; [exact Hloop |]. split; [exact Hrep |]. split; [| split].
  - unfold full_run, extract_from_dir. rewrite Hloop. cbn [bind app].
    rewrite Hrep. cbn [bind]. now rewrite Hexit.
  - rewrite Hres, map_map. cbn [entry_of res_source_file].
    now apply extracted_sources.
  - intros r e Hr He. rewrite Hres in Hr. apply in_map_iff in Hr.
    destruct Hr as (inv & <- & Hinv). cbn [entry_of errors] in He.
    apply in_app_or in He. destruct He as [He | He].
    + assert (Hfrom : exists text source,
                 parse_invoice_from_text text source = Ok inv).
      { clear -Hall Hinv. induction Hall as [|pdf x fs xs Hx _ IH];
          [destruct Hinv |].
        destruct Hinv as [<- | Hinv]; [eauto | now apply IH]. }
      destruct Hfrom as (text & source & Hfrom).
      pose proof (extracted_tags text source inv e Hfrom He) as Htag.
      simpl in Htag. simpl. tauto.
    + destruct (is_duplicate invoices inv); [| destruct He].
      destruct He as [<- | []]. simpl. tauto.
Qed.

(** A folder with two files that hold the same invoice. *)
Lemma full_run_report_witness :
  exists invoices rep,
    @extract_from_dir ascii_only numeric_only
      [(u "a.pdf", [Some sample_text]); (u "b.pdf", [Some sample_text])]
    = Ok invoices
    /\ validate_invoices invoices = Ok rep
    /\ map res_source_file (results rep) = [u "a.pdf"; u "b.pdf"].
Proof.
  destruct (@full_run_report ascii_only numeric_only
              [(u "a.pdf", [Some sample_text]); (u "b.pdf", [Some sample_text])]
              numeric_only_agrees)
    as (invoices & rep & Hdir & Hrep & _ & Hsources & _).
  exists invoices, rep. repeat split; assumption.
Defined.

End PipelineBehaviour.

(* ===================================================================== *)
(** * The duplicate key read back                                      *)
(* ===================================================================== *)

Module KeyFacts.
Import Py PyFacts Datetime Schema Validator Spec Spec2 ValidatorFacts ReportFacts.

Lemma uint_str_inj (a b : Decimal.uint) : uint_str a = uint_str b -> a = b.
Proof.
  revert b. induction a as [|a IH|a IH|a IH|a IH|a IH|a IH|a IH|a IH|a IH|a IH];
    intros [|b|b|b|b|b|b|b|b|b|b]; simpl; intros H;
    try discriminate H; try reflexivity;
    injection H as H; f_equal; now apply IH.
Qed.

Lemma uint_str_digits (d : Decimal.uint) (c : N) :
  In c (uint_str d) -> (48 <= c <= 57)%N.
Proof.
  induction d; simpl; intros H; try (destruct H as [<- | H]; [lia | auto]).
  destruct H.
Qed.

Lemma zero_padded_uint (width : nat) (n : N) :
  zero_padded width n
  = uint_str (Nat.iter (width - length (uint_str (N.to_uint n))) Decimal.D0
                       (N.to_uint n)).
Proof.
  unfold zero_padded.
  induction (width - length (uint_str (N.to_uint n))) as [|k IH]; [reflexivity |].
  simpl. now rewrite IH.
Qed.

Lemma of_uint_zeros (k : nat) (d : Decimal.uint) :
  N.of_uint (Nat.iter k Decimal.D0 d) = N.of_uint d.
Proof.
  induction k as [|k IH]; [reflexivity |]. simpl. exact IH.
Qed.

(** The number can be read back from its padded form. *)
Lemma zero_padded_inj (width : nat) (a b : N) :
  zero_padded width a = zero_padded width b -> a = b.
Proof.
  rewrite !zero_padded_uint. intros H. apply uint_str_inj in H.
  apply (f_equal N.of_uint) in H. rewrite !of_uint_zeros in H.
  now rewrite !DecimalN.Unsigned.of_to in H.
Qed.

Lemma zero_padded_digits (width : nat) (n : N) (c : N) :
  In c (zero_padded width n) -> (48 <= c <= 57)%N.
Proof.
  rewrite zero_padded_uint. apply uint_str_digits.
Qed.

(** The date can be read back from its ISO form. *)
Lemma isoformat_inj (a b : date) : isoformat a = isoformat b -> a = b.
Proof.
  unfold isoformat. intros H.
  assert (Hdash : forall w n, ~ In 45%N (zero_padded w n)).
  { intros w n Hin. apply zero_padded_digits in Hin. lia. }
  pose proof (app_separator_inj 45 _ _ _ _ (Hdash _ _) (Hdash _ _) H) as Hy.
  rewrite Hy in H. apply app_inv_head in H. injection H as H.
  pose proof (app_separator_inj 45 _ _ _ _ (Hdash _ _) (Hdash _ _) H) as Hm.
  rewrite Hm in H. apply app_inv_head in H. injection H as H.
  apply zero_padded_inj in Hy, Hm, H.
  destruct a, b. simpl in *. now subst.
Qed.

Lemma isoformat_no_colon (d : date) : ~ In 58%N (isoformat d).
Proof.
  unfold isoformat. intros H.
  repeat (apply in_app_or in H; destruct H as [H | H];
          [first [ apply zero_padded_digits in H; lia
                 | destruct H as [H | []]; discriminate H ] |]).
  apply zero_padded_digits in H. lia.
Qed.

(** Without colons in the number and in the seller name, the key gives
    back the three fields. *)
Lemma duplicate_key_inj (a b : Invoice) :
  ~ In 58%N (invoice_number a) -> ~ In 58%N (invoice_number b) ->
  ~ In 58%N (seller_name a) -> ~ In 58%N (seller_name b) ->
  duplicate_key a = duplicate_key b ->
  invoice_number a = invoice_number b
  /\ seller_name a = seller_name b
  /\ invoice_date a = invoice_date b.
Proof.
  unfold duplicate_key. intros Hna Hnb Hsa Hsb H.
  change (u "::") with [58%N; 58%N] in H. cbn [app] in H.
  pose proof (app_separator_inj 58 _ _ _ _ Hna Hnb H) as Hn.
  rewrite Hn in H. apply app_inv_head in H. injection H as H.
  pose proof (app_separator_inj 58 _ _ _ _ Hsa Hsb H) as Hs.
  rewrite Hs in H. apply app_inv_head in H. injection H as H.
  apply isoformat_inj in H. auto.
Qed.

Lemma is_duplicate_other (invs : list Invoice) (i : nat) (inv : Invoice) :
  nth_error invs i = Some inv ->
  (is_duplicate invs inv = true
   <-> exists j other, j <> i /\ nth_error invs j = Some other
                       /\ duplicate_key other = duplicate_key inv).
Proof.
  intros Hi. split.
  - intros Hdup.
    destruct (existsb (fun j => negb (Nat.eqb j i)
                                && has_key invs (duplicate_key inv) j)
                      (seq 0 (length invs))) eqn:E.
    + apply existsb_exists in E. destruct E as (j & _ & Hj).
      apply andb_true_iff in Hj. destruct Hj as [Hne Hkey].
      apply negb_true_iff, Nat.eqb_neq in Hne.
      unfold has_key in Hkey. destruct (nth_error invs j) as [other|] eqn:Ej;
        [| discriminate].
      apply str_eqb_eq in Hkey. now exists j, other.
    + exfalso. rewrite (is_duplicate_of_unique invs i inv Hi) in Hdup;
        [discriminate |].
      intros j b Hne Hj Hkey.
      assert (Hex : existsb (fun j => negb (Nat.eqb j i)
                                      && has_key invs (duplicate_key inv) j)
                            (seq 0 (length invs)) = true).
      { apply existsb_exists. exists j. split.
        - apply in_seq. assert (j < length invs) by (apply nth_error_Some; congruence).
          lia.
        - apply andb_true_iff. split.
          + now apply negb_true_iff, Nat.eqb_neq.
          + unfold has_key. rewrite Hj. now apply str_eqb_eq. }
      congruence.
  - intros (j & other & Hne & Hj & Hkey).
    apply (is_duplicate_of_pair invs i j inv other); auto.
Qed.

End KeyFacts.

Module DuplicateBehaviour.
Import Py PyFacts Datetime Schema Validator Spec Spec2 ValidatorFacts ReportFacts.
Import KeyFacts.

(** X16. In a batch whose invoice numbers and seller names hold no colon,
    the result of an invoice has the duplicate tag exactly when another
    invoice of the batch has the same invoice number, the same seller name
    and the same invoice date: the key of an invoice then gives back these
    three fields. *)
Theorem duplicate_tag_same_fields (invs : list Invoice) :
  (forall inv, In inv invs ->
     ~ In 58%N (invoice_number inv) /\ ~ In 58%N (seller_name inv)) ->
  exists rep,
    validate_invoices invs = Ok rep
    /\ forall i inv r,
         nth_error invs i = Some inv ->
         nth_error (results rep) i = Some r ->
         (In DUPLICATE (errors r)
          <-> exists j other,
                j <> i /\ nth_error invs j = Some other
                /\ invoice_number other = invoice_number inv
                /\ seller_name other = seller_name inv
                /\ invoice_date other = invoice_date inv).
Proof.
  intros Hcolon.
  destruct (validate_invoices_report invs) as (rep & Hrep & Hres & _).
  exists rep. split; [exact Hrep |].
  intros i inv r Hi Hr.
  rewrite (entry_at invs rep i inv Hres Hi) in Hr. injection Hr as <-.
  cbn [entry_of errors].
  assert (Htag : In DUPLICATE
                   (record_errors inv
                    ++ (if is_duplicate invs inv then [DUPLICATE] else []))
                 <-> is_duplicate invs inv = true).
  { rewrite in_app_iff. split.
    - intros [H | H]; [now apply record_errors_not_duplicate in H |].
      destruct (is_duplicate invs inv); [reflexivity | destruct H].
    - intros ->. right. now left. }
  rewrite Htag, (is_duplicate_other invs i inv Hi).
  destruct (Hcolon inv (nth_error_In _ _ Hi)) as [Hn Hs].
  split; intros (j & other & Hne & Hj & H); exists j, other;
    (split; [exact Hne |]); (split; [exact Hj |]).
  - destruct (Hcolon other (nth_error_In _ _ Hj)) as [Hn' Hs'].
    now apply duplicate_key_inj.
  - destruct H as (H1 & H2 & H3). unfold duplicate_key. now rewrite H1, H2, H3.
Qed.

(** Two copies of an invoice and one with another number. *)
Lemma duplicate_tag_same_fields_witness :
  exists rep,
    validate_invoices three_batch = Ok rep
    /\ length (results rep) = 3.
Proof.
  destruct (duplicate_tag_same_fields three_batch) as (rep & Hrep & _).
  - intros inv Hin. simpl in Hin.
    repeat (destruct Hin as [<- | Hin];
            [split; intros H; simpl in H;
             repeat (destruct H as [H | H]; [discriminate H |]); exact H |]).
    destruct Hin.
  - exists rep. split; [exact Hrep |].
    vm_compute in Hrep. injection Hrep as <-. reflexivity.
Defined.

End DuplicateBehaviour.

(* ===================================================================== *)
(** * Documents: the same one twice, and those without text            *)
(* ===================================================================== *)

Module DocumentFacts.
Import Py PyFacts Datetime Dateutil Utils Schema Re Extractor Validator Spec Spec2.
Import ValidatorFacts UtilsFacts ExtractorFacts ReportFacts ExtractionFacts.
Import MatchingFacts PipelineFacts.

Section Extraction.
Context {U : UnicodeData} {P : DateParser}.

(** The file name goes into the invoice and nowhere else. *)
Lemma parse_invoice_from_text_source (text source source' : str) :
  parse_invoice_from_text text source'
  = match parse_invoice_from_text text source with
    | Ok inv => Ok (with_source inv source')
    | Raise e => Raise e
    end.
Proof.
  unfold parse_invoice_from_text.
  repeat match goal with
         | |- context [bind ?m _] => destruct m; cbn [bind]; [| reflexivity]
         | |- context [let '(_, _) := ?t in _] => destruct t as [[? ?] ?]
         end.
  match goal with
  | |- context [match ?d with None => _ | Some _ => _ end] => destruct d
  end; reflexivity.
Qed.

(** ** Texts made of one character *)

Variable text : str.
Variable c : N.
Hypothesis only_c : forall x, In x text -> x = c.

Lemma skipn_only (i : nat) (x : N) : In x (skipn i text) -> x = c.
Proof.
  intros H. apply only_c. rewrite <- (firstn_skipn i text).
  apply in_or_app. now right.
Qed.

Lemma run_stuck (p : N -> bool) (i : nat) :
  p c = false -> run p (skipn i text) = 0.
Proof.
  intros Hp. pose proof (skipn_only i) as H.
  destruct (skipn i text) as [|x s]; [reflexivity |].
  simpl. now rewrite (H x (or_introl eq_refl)), Hp.
Qed.

Lemma rmatch_stuck (r : regex) :
  stuck_on c r = true -> forall i caps, rmatch text r i caps = [].
Proof.
  induction r as [p|p|p|r IH|r1 IH1 r2 IH2|r1 IH1 r2 IH2|n r IH| |];
    simpl; intros Hs i caps; try discriminate Hs.
  - apply negb_true_iff in Hs.
    destruct (nth_error text i) as [x|] eqn:E; [| reflexivity].
    apply nth_error_In in E. apply only_c in E. subst x. now rewrite Hs.
  - apply negb_true_iff in Hs. rewrite (run_stuck p i Hs).
    unfold downto. replace (S (i + 0) - S i) with 0 by lia. reflexivity.
  - now rewrite (IH1 Hs).
  - apply andb_true_iff in Hs. destruct Hs as [H1 H2].
    now rewrite (IH1 H1), (IH2 H2).
  - now rewrite (IH Hs).
Qed.

Lemma search_stuck (r : regex) : stuck_on c r = true -> search text r = None.
Proof.
  intros Hs. unfold search. apply first_match_None.
  intros i _. now apply rmatch_stuck.
Qed.

Lemma _search_first_stuck (patterns : list regex) (g : nat) :
  forallb (stuck_on c) patterns = true ->
  _search_first patterns text g = Ok None.
Proof.
  intros H. apply _search_first_none. intros pat Hpat.
  rewrite forallb_forall in H. now apply search_stuck, H.
Qed.

Lemma search_currency_stuck (code : string) :
  prefixb (firstn 1 (u code)) [c] = false ->
  search text (currency_pattern code) = None.
Proof.
  intros Hc. unfold search. apply first_match_None. intros i _.
  rewrite rmatch_currency.
  assert (Hp : prefixb (u code) (skipn i text) = false).
  { pose proof (skipn_only i) as H.
    destruct (u code) as [|y code']; [discriminate Hc |].
    destruct (skipn i text) as [|x s]; [reflexivity |].
    rewrite (H x (or_introl eq_refl)). cbn [firstn prefixb] in *.
    rewrite andb_true_r in Hc. now rewrite Hc. }
  now rewrite Hp, andb_false_r.
Qed.

End Extraction.

Section Textless.
Context {U : UnicodeData} {P : DateParser}.

Lemma splitlines_line_feeds (n : nat) : splitlines (repeat 10%N n) = repeat [] n.
Proof.
  unfold splitlines. induction n as [|n IH]; [reflexivity |].
  simpl. now rewrite IH.
Qed.

Lemma totals_empty_lines (n : nat) (st : totals) :
  for_each totals_line (repeat [] n) st = Ok st.
Proof.
  induction n as [|n IH]; [reflexivity |].
  cbn [repeat for_each]. destruct st as [[net tax] gross].
  change (totals_line (net, tax, gross) []) with (Ok (net, tax, gross)).
  exact IH.
Qed.

(** The text of a document whose pages have no text: line feeds. *)
Lemma textless_pages (pages : list (option str)) :
  (forall page, In page pages -> page = None \/ page = Some []) ->
  _extract_text_from_pdf pages = repeat 10%N (length pages - 1).
Proof.
  unfold _extract_text_from_pdf. intros H.
  destruct pages as [|first pages]; [reflexivity |].
  cbn [map join_lines length].
  replace (or_str first []) with (@nil N)
    by (destruct (H first (or_introl eq_refl)) as [-> | ->]; reflexivity).
  replace (S (length pages) - 1) with (length pages) by lia.
  assert (Hrest : forall page, In page pages -> page = None \/ page = Some [])
    by (intros page Hp; apply H; now right).
  clear H. induction pages as [|page pages IH]; [reflexivity |].
  cbn [map flat_map length repeat app].
  replace (or_str page []) with (@nil N)
    by (destruct (Hrest page (or_introl eq_refl)) as [-> | ->]; reflexivity).
  simpl. f_equal. apply IH. intros p Hp. apply Hrest. now right.
Qed.

(** What extraction makes of a text of line feeds. *)
Lemma parse_line_feeds (n : nat) (source : str) :
  agrees_with_dateutil P ->
  parse_invoice_from_text (repeat 10%N n) source = Ok (placeholder_invoice source).
Proof.
  intros Hagrees.
  assert (Honly : forall x, In x (repeat 10%N n) -> x = 10%N)
    by (intros x Hx; now apply repeat_spec in Hx).
  unfold parse_invoice_from_text.
  rewrite !(_search_first_stuck (repeat 10%N n) 10 Honly) by reflexivity.
  rewrite !(search_stuck (repeat 10%N n) 10 Honly) by reflexivity.
  unfold _guess_currency, CURRENCY_CODES. cbn [guess_from].
  rewrite !(search_currency_stuck (repeat 10%N n) 10 Honly) by reflexivity.
  unfold _extract_totals. rewrite splitlines_line_feeds, totals_empty_lines.
  cbn [bind or_str].
  change (parse_date_maybe []) with (@Ok (option date) None).
  cbn [bind]. rewrite (default_date Hagrees). cbn [bind].
  reflexivity.
Qed.

End Textless.

End DocumentFacts.

Module FolderFacts.
Import Py PyFacts Datetime Dateutil Utils Schema Re Extractor Validator Spec Spec2.
Import ValidatorFacts UtilsFacts ExtractorFacts ReportFacts ExtractionFacts.
Import MatchingFacts PipelineFacts DocumentFacts AmountFacts.

Lemma Forall2_nth_error {A B : Type} (R : A -> B -> Prop) (l : list A) (l' : list B)
  (i : nat) (x : A) :
  Forall2 R l l' -> nth_error l i = Some x ->
  exists y, nth_error l' i = Some y /\ R x y.
Proof.
  intros H. revert i. induction H as [|a b l l' Hab _ IH]; intros [|i]; simpl;
    try discriminate.
  - intros E. injection E as <-. now exists b.
  - apply IH.
Qed.

Lemma duplicate_key_with_source (inv : Invoice) (source : str) :
  duplicate_key (with_source inv source) = duplicate_key inv.
Proof. reflexivity. Qed.

Lemma placeholder_entries (sources : list str) :
  map (entry_of (map placeholder_invoice sources)) (map placeholder_invoice sources)
  = map (fun source =>
           {| invoice_id := u "UNKNOWN";
              res_source_file := source;
              is_valid := true;
              errors := if (1 <? length sources)%nat then [DUPLICATE] else [] |})
        sources.
Proof.
  rewrite map_map. apply map_ext. intros source.
  assert (Hdup : is_duplicate (map placeholder_invoice sources)
                   (placeholder_invoice source)
                 = (1 <? length sources)%nat).
  { unfold is_duplicate. rewrite filter_all; [now rewrite length_map |].
    intros inv Hinv. apply in_map_iff in Hinv. destruct Hinv as (s & <- & _).
    reflexivity. }
  unfold entry_of. rewrite Hdup. reflexivity.
Qed.

Section Folder.
Context {U : UnicodeData} {P : DateParser}.

Lemma extract_textless (files : list pdf_file) :
  agrees_with_dateutil P ->
  (forall pdf page, In pdf files -> In page (snd pdf) ->
                    page = None \/ page = Some []) ->
  forall acc,
    for_each extract_file files acc
    = Ok (acc ++ map placeholder_invoice (map fst files)).
Proof.
  intros Hagrees. induction files as [|pdf files IH]; intros Hpages acc.
  - simpl. now rewrite app_nil_r.
  - cbn [for_each map]. unfold extract_file at 1.
    rewrite (textless_pages (snd pdf))
      by (intros page; apply Hpages; now left).
    rewrite (parse_line_feeds _ _ Hagrees). cbn [bind].
    rewrite IH by (intros p page Hp; apply Hpages; now right).
    now rewrite <- app_assoc.
Qed.

End Folder.

End FolderFacts.

Module DocumentBehaviour.
Import Py PyFacts Datetime Dateutil Utils Schema Re Extractor Validator Spec Spec2.
Import ValidatorFacts UtilsFacts ExtractorFacts ReportFacts ExtractionFacts.
Import MatchingFacts PipelineFacts DocumentFacts FolderFacts.

(** X17. The same document under two names: when two files of a folder
    have the same pages, extracting the folder and validating the result
    gives both of them the duplicate tag, each under its own file name
    (provided the date parser agrees with dateutil on numeric dates). *)
Theorem same_document_twice {U : UnicodeData} {P : DateParser}
  (files : list pdf_file) (i j : nat) (name_i name_j : str)
  (pages : list (option str)) :
  agrees_with_dateutil P ->
  i <> j ->
  nth_error files i = Some (name_i, pages) ->
  nth_error files j = Some (name_j, pages) ->
  exists invoices rep ri rj,
    extract_from_dir files = Ok invoices
    /\ validate_invoices invoices = Ok rep
    /\ nth_error (results rep) i = Some ri
    /\ nth_error (results rep) j = Some rj
    /\ res_source_file ri = name_i
    /\ res_source_file rj = name_j
    /\ In DUPLICATE (errors ri)
    /\ In DUPLICATE (errors rj).
Proof.
  intros Hagrees Hij Hi Hj.
  destruct (extract_loop files Hagrees []) as (invoices & Hloop & Hall).
  destruct (validate_invoices_report invoices) as (rep & Hrep & Hres & _).
  destruct (Forall2_nth_error _ _ _ i _ Hall Hi) as (a & Ha & Hpa).
  destruct (Forall2_nth_error _ _ _ j _ Hall Hj) as (b & Hb & Hpb).
  cbn [fst snd] in Hpa, Hpb.
  assert (Hkey : duplicate_key a = duplicate_key b).
  { rewrite (parse_invoice_from_text_source _ name_i name_j), Hpa in Hpb.
    assert (Hb' : b = with_source a name_j) by congruence.
    now rewrite Hb', duplicate_key_with_source. }
  exists invoices, rep, (entry_of invoices a), (entry_of invoices b).
  split; [exact Hloop |]. split; [exact Hrep |].
  split; [now apply entry_at |]. split; [now apply entry_at |].
  destruct (parse_invoice_from_text_fields _ _ _ Hpa) as (Hsa & _).
  destruct (parse_invoice_from_text_fields _ _ _ Hpb) as (Hsb & _).
  split; [exact Hsa |]. split; [exact Hsb |].
  cbn [entry_of errors].
  rewrite (is_duplicate_of_pair invoices i j a b Hij Ha Hb Hkey).
  rewrite (is_duplicate_of_pair invoices j i b a (not_eq_sym Hij) Hb Ha (eq_sym Hkey)).
  split; apply in_or_app; right; now left.
Qed.

(** A folder with the sample invoice under two names. *)
Lemma same_document_twice_witness :
  exists invoices rep ri rj,
    @extract_from_dir ascii_only numeric_only
      [(u "a.pdf", [Some sample_text]); (u "b.pdf", [Some sample_text])]
    = Ok invoices
    /\ validate_invoices invoices = Ok rep
    /\ nth_error (results rep) 0 = Some ri
    /\ nth_error (results rep) 1 = Some rj
    /\ In DUPLICATE (errors ri)
    /\ In DUPLICATE (errors rj).
Proof.
  destruct (@same_document_twice ascii_only numeric_only
              [(u "a.pdf", [Some sample_text]); (u "b.pdf", [Some sample_text])]
              0 1 (u "a.pdf") (u "b.pdf") [Some sample_text]
              numeric_only_agrees ltac:(lia) eq_refl eq_refl)
    as (invoices & rep & ri & rj & H1 & H2 & H3 & H4 & _ & _ & H5 & H6).
  exists invoices, rep, ri, rj. repeat split; assumption.
Defined.

(** X18. Documents without text: when no page of any file of a folder has
    text, every file gives the same placeholder invoice (number UNKNOWN,
    seller UNKNOWN_SELLER, buyer UNKNOWN_BUYER, the first of January 2000,
    INR, totals 0) under its own file name; every result is valid; and as
    soon as the folder has two files, every result has the duplicate tag,
    and no other tag (provided the date parser agrees with dateutil on
    numeric dates). *)
Theorem textless_documents {U : UnicodeData} {P : DateParser}
  (files : list pdf_file) :
  agrees_with_dateutil P ->
  (forall pdf page, In pdf files -> In page (snd pdf) ->
                    page = None \/ page = Some []) ->
  exists rep,
    extract_from_dir files = Ok (map placeholder_invoice (map fst files))
    /\ validate_invoices (map placeholder_invoice (map fst files)) = Ok rep
    /\ results rep
       = map (fun source =>
                {| invoice_id := u "UNKNOWN";
                   res_source_file := source;
                   is_valid := true;
                   errors := if (1 <? length files)%nat then [DUPLICATE] else [] |})
             (map fst files).
Proof.
  intros Hagrees Hpages.
  destruct (validate_invoices_report (map placeholder_invoice (map fst files)))
    as (rep & Hrep & Hres & _).
  exists rep. split; [| split; [exact Hrep |]].
  - unfold extract_from_dir. now rewrite (extract_textless files Hagrees Hpages).
  - rewrite Hres, placeholder_entries.
    now rewrite length_map.
Qed.

(** A folder with two scanned documents. *)
Lemma textless_documents_witness :
  exists rep,
    @extract_from_dir ascii_only numeric_only
      [(u "a.pdf", [None; None]); (u "b.pdf", [Some []])]
    = Ok [placeholder_invoice (u "a.pdf"); placeholder_invoice (u "b.pdf")]
    /\ validate_invoices [placeholder_invoice (u "a.pdf");
                          placeholder_invoice (u "b.pdf")] = Ok rep
    /\ map errors (results rep) = [[DUPLICATE]; [DUPLICATE]].
Proof.
  destruct (@textless_documents ascii_only numeric_only
              [(u "a.pdf", [None; None]); (u "b.pdf", [Some []])]
              numeric_only_agrees)
    as (rep & Hdir & Hrep & Hres).
  - intros pdf page Hpdf Hpage. simpl in Hpdf.
    destruct Hpdf as [<- | [<- | []]]; simpl in Hpage.
    + destruct Hpage as [<- | [<- | []]]; now left.
    + destruct Hpage as [<- | []]. now right.
  - exists rep. split; [exact Hdir |]. split; [exact Hrep |].
    rewrite Hres. reflexivity.
Defined.

End DocumentBehaviour.

(* ===================================================================== *)
(** * The batch as a whole                                             *)
(* ===================================================================== *)

Module OrderFacts.
Import Py PyFacts Datetime Schema Validator Spec Spec2 ValidatorFacts.
Import StripFacts CounterFacts ReportFacts TagFacts FloatFacts.

Lemma blank_blanks (s : str) : blank s = true <-> blanks s.
Proof.
  unfold blank, strip. split.
  - intros H. apply lstrip_nil_blanks.
    destruct (rstrip_split (lstrip s)) as (w & Hw & Hb).
    destruct (rstrip (lstrip s)) as [|c r]; [| discriminate H].
    simpl in Hw. destruct (lstrip s) as [|c r] eqn:E; [reflexivity |].
    apply lstrip_head in E. rewrite <- Hw in Hb.
    rewrite (Hb c (or_introl eq_refl)) in E. discriminate E.
  - intros H. now rewrite (lstrip_all_blanks s H).
Qed.

(** Where the tags of [_check_completeness] come from. *)
Lemma completeness_tags (inv : Invoice) (e : str) :
  In e (_check_completeness inv) ->
  (e = u "missing_field: invoice_number" /\ blank (invoice_number inv) = true)
  \/ (e = u "missing_field: seller_name" /\ blank (seller_name inv) = true)
  \/ (e = u "missing_field: buyer_name" /\ blank (buyer_name inv) = true)
  \/ (e = u "invalid_currency: " ++ currency inv)
  \/ (e = u "invalid_date: invoice_date_too_old")
  \/ (e = u "business_rule_failed: due_date_before_invoice_date").
Proof.
  unfold _check_completeness. intros H.
  repeat (apply in_app_or in H; destruct H as [H | H];
          [apply when_In in H; tauto |]).
  apply when_In in H. tauto.
Qed.

Lemma filter_length_perm {A : Type} (f : A -> bool) (l l' : list A) :
  Permutation l l' -> length (filter f l) = length (filter f l').
Proof.
  induction 1 as [|x l l' _ IH|x y l|l l' l'' _ IH1 _ IH2]; simpl.
  - reflexivity.
  - destruct (f x); simpl; now rewrite IH.
  - destruct (f x), (f y); reflexivity.
  - now rewrite IH1.
Qed.

Lemma occurrences_concat_perm {A : Type} (g : A -> list str) (e : str)
  (l l' : list A) :
  Permutation l l' ->
  occurrences e (concat (map g l)) = occurrences e (concat (map g l')).
Proof.
  induction 1 as [|x l l' _ IH|x y l|l l' l'' _ IH1 _ IH2]; simpl.
  - reflexivity.
  - now rewrite !occurrences_app, IH.
  - rewrite !occurrences_app. lia.
  - now rewrite IH1.
Qed.

Lemma is_duplicate_perm (invs invs' : list Invoice) (inv : Invoice) :
  Permutation invs invs' -> is_duplicate invs inv = is_duplicate invs' inv.
Proof.
  intros H. unfold is_duplicate.
  now rewrite (filter_length_perm (same_key inv) invs invs' H).
Qed.

(** The count of a tag, from the batch. *)
Lemma error_count (invs : list Invoice) (rep : Report) (e : str) :
  validate_invoices invs = Ok rep ->
  lookup (error_counts (summary rep)) e
  = Z.of_nat (occurrences e (concat (map record_errors invs))
              + length (filter (is_duplicate invs) invs)
                * occurrences e [DUPLICATE]).
Proof.
  intros Hrep. rewrite (validate_invoices_counter invs rep Hrep), lookup_fold.
  rewrite occurrences_app, occurrences_repeat, duplicates_length.
  simpl lookup. lia.
Qed.

End OrderFacts.

Module BatchBehaviour.
Import Py PyFacts Datetime Schema Validator Spec Spec2 ValidatorFacts.
Import StripFacts CounterFacts ReportFacts TagFacts FloatFacts OrderFacts.

(** X19. The order of the invoices in a batch has no part in the
    summary: two batches with the same invoices in another order have the
    same total, the same numbers of valid and of invalid invoices, and the
    same count for every tag. *)
Theorem summary_order_independent (invs invs' : list Invoice) :
  Permutation invs invs' ->
  exists rep rep',
    validate_invoices invs = Ok rep
    /\ validate_invoices invs' = Ok rep'
    /\ total_invoices (summary rep') = total_invoices (summary rep)
    /\ valid_invoices (summary rep') = valid_invoices (summary rep)
    /\ invalid_invoices (summary rep') = invalid_invoices (summary rep)
    /\ forall e, lookup (error_counts (summary rep')) e
                 = lookup (error_counts (summary rep)) e.
Proof.
  intros Hperm.
  destruct (validate_invoices_report invs)
    as (rep & Hrep & Hres & Htot & Hinv & Hval).
  destruct (validate_invoices_report invs')
    as (rep' & Hrep' & Hres' & Htot' & Hinv' & Hval').
  exists rep, rep'. split; [exact Hrep |]. split; [exact Hrep' |].
  assert (Ht : total_invoices (summary rep') = total_invoices (summary rep)).
  { rewrite Htot, Htot'. now rewrite (Permutation_length Hperm). }
  assert (Hi : invalid_invoices (summary rep') = invalid_invoices (summary rep)).
  { rewrite Hinv, Hinv', Hres, Hres', !invalid_entries.
    now rewrite (filter_length_perm _ invs invs' Hperm). }
  split; [exact Ht |]. split; [now rewrite Hval, Hval', Ht, Hi |].
  split; [exact Hi |].
  intros e. rewrite (error_count invs rep e Hrep), (error_count invs' rep' e Hrep').
  rewrite (occurrences_concat_perm record_errors e invs invs' Hperm).
  rewrite (filter_length_perm (is_duplicate invs) invs invs' Hperm).
  do 3 f_equal. f_equal. apply filter_ext. intros inv.
  now apply is_duplicate_perm.
Qed.

(** A batch of three and the same batch with its first two invoices
    swapped. *)
Lemma summary_order_independent_witness :
  exists rep rep',
    validate_invoices collision_batch = Ok rep
    /\ validate_invoices
         [sample_invoice "b.pdf" "A" "B::C"; sample_invoice "a.pdf" "A" "B::C";
          sample_invoice "c.pdf" "A::B" "C"] = Ok rep'
    /\ total_invoices (summary rep') = total_invoices (summary rep).
Proof.
  destruct (summary_order_independent collision_batch
              [sample_invoice "b.pdf" "A" "B::C"; sample_invoice "a.pdf" "A" "B::C";
               sample_invoice "c.pdf" "A::B" "C"])
    as (rep & rep' & H1 & H2 & H3 & _).
  - apply perm_swap.
  - exists rep, rep'. repeat split; assumption.
Defined.

(** X20. The [missing_field] tags: the per-record checks give an invoice
    the tag for the invoice number exactly when the number is empty or
    made of white space only, and likewise for the seller name and for the
    buyer name. *)
Theorem missing_field_blank (inv : Invoice) :
  (In (u "missing_field: invoice_number") (record_errors inv)
   <-> blanks (invoice_number inv))
  /\ (In (u "missing_field: seller_name") (record_errors inv)
      <-> blanks (seller_name inv))
  /\ (In (u "missing_field: buyer_name") (record_errors inv)
      <-> blanks (buyer_name inv)).
Proof.
  assert (Hfrom : forall e,
             prefixb (u "missing_field") e = true ->
             In e (record_errors inv) -> In e (_check_completeness inv)).
  { intros e He Hin. unfold record_errors in Hin.
    apply in_app_or in Hin. destruct Hin as [Hin | Hin]; [exact Hin |].
    apply business_rules_tags in Hin.
    destruct Hin as [[-> _] | [[-> _] | [-> _]]]; discriminate He. }
  repeat split.
  - intros H. apply blank_blanks. apply Hfrom in H; [| reflexivity].
    apply completeness_tags in H.
    destruct H as [[_ H] | [[H _] | [[H _] | [H | [H | H]]]]];
      [exact H | | | | |]; vm_compute in H; discriminate H.
  - intros H. apply blank_blanks in H. unfold record_errors, _check_completeness.
    rewrite H. apply in_or_app. left. now left.
  - intros H. apply blank_blanks. apply Hfrom in H; [| reflexivity].
    apply completeness_tags in H.
    destruct H as [[H _] | [[_ H] | [[H _] | [H | [H | H]]]]];
      [| exact H | | | |]; vm_compute in H; discriminate H.
  - intros H. apply blank_blanks in H. unfold record_errors, _check_completeness.
    rewrite H. apply in_or_app. left. apply in_or_app. right. now left.
  - intros H. apply blank_blanks. apply Hfrom in H; [| reflexivity].
    apply completeness_tags in H.
    destruct H as [[H _] | [[H _] | [[_ H] | [H | [H | H]]]]];
      [| | exact H | | |]; vm_compute in H; discriminate H.
  - intros H. apply blank_blanks in H. unfold record_errors, _check_completeness.
    rewrite H. apply in_or_app. left. apply in_or_app. right.
    apply in_or_app. right. now left.
Qed.

End BatchBehaviour.
